(** * pycrumbs.track: a shallow embedding of the [tracked] decorator

    The development follows [src/pycrumbs/track.py].  Python objects are an
    inductive type [value]; the file system is a tree of directories and
    files; the wrapper runs in a state-and-exception monad over the process
    state (file system, seeded random generators).

    Conventions of the model, fixed once here:
    - a Python [str] is a Rocq [string]; its characters are the code points
      0..255;
    - the values are [None], booleans, integers, strings, lists, tuples,
      dictionaries, paths, and objects that [json] cannot encode, known by
      their [repr]; there are no floats;
    - [dict] keys are strings, and a [dict] is an association list in
      insertion order (as Python dictionaries iterate);
    - argument objects are immutable values: in-place mutation of a caller's
      object by the wrapped function is outside the model;
    - a signature has positional-or-keyword, keyword-only, [*args] and
      [**kwargs] parameters, no positional-only ones;
    - paths are POSIX paths without symbolic links; a run of leading
      slashes is the root; [..] is resolved lexically when a path is looked
      up in the file system; the working directory of the process does not
      change;
    - a file holds either a JSON document or text that is not JSON; the
      serialised text itself is not modelled, so [json.dump] followed by
      [json.load] is the JSON projection of the value. *)

From Stdlib Require Import ZArith Ascii String DecimalString.
From stdpp Require Import base option list strings gmap fin_maps.

#[local] Set Warnings "-register-all".

Local Open Scope string_scope.
Local Open Scope Z_scope.

(** ** Exceptions and results *)

Inductive exn : Type :=
| TypeError (msg : string)
| ValueError (msg : string)
| IndexError (msg : string)
| RuntimeError (msg : string)
| ImportError (msg : string)
| FileExistsError (msg : string)
| FileNotFoundError (msg : string)
| NotADirectoryError (msg : string)
| IsADirectoryError (msg : string)
| JSONDecodeError (msg : string)
| KeyError (msg : string)
| NameError (msg : string)
| UserException (cls msg : string).

Inductive result (A : Type) : Type :=
| Ok (a : A)
| Raise (e : exn).
Arguments Ok {A} a.
Arguments Raise {A} e.

#[global] Instance result_ret : MRet result := @Ok.
#[global] Instance result_bind : MBind result :=
  fun A B k r => match r with Ok a => k a | Raise e => Raise e end.

(** ** Paths (pathlib.PurePosixPath) *)

Record path : Type := Path_ { p_root : bool; p_parts : list string }.

(** ** Python values *)

Inductive value : Type :=
| VNone
| VBool (b : bool)
| VInt (z : Z)
| VStr (s : string)
| VList (l : list value)
| VTuple (l : list value)
| VDict (d : list (string * value))
| VPath (p : path)
| VObj (cls repr : string).

(** ** Strings *)

Module Str.

Fixpoint concat (l : list string) : string :=
  match l with
  | [] => ""
  | s :: l' => s ++ concat l'
  end.

(** [sep.join(l)] *)
Fixpoint join (sep : string) (l : list string) : string :=
  match l with
  | [] => ""
  | [s] => s
  | s :: l' => s ++ sep ++ join sep l'
  end.

Fixpoint rev_acc (s acc : string) : string :=
  match s with
  | EmptyString => acc
  | String c s' => rev_acc s' (String c acc)
  end.

Definition rev (s : string) : string := rev_acc s "".

(** [s.startswith(p)] *)
Fixpoint startswith (s p : string) : bool :=
  match p, s with
  | EmptyString, _ => true
  | String _ _, EmptyString => false
  | String a p', String b s' => if Ascii.eqb a b then startswith s' p' else false
  end.

(** [s.endswith(p)] *)
Definition endswith (s p : string) : bool := startswith (rev s) (rev p).

(** [c in s] *)
Fixpoint contains (c : ascii) (s : string) : bool :=
  match s with
  | EmptyString => false
  | String a s' => if Ascii.eqb a c then true else contains c s'
  end.

(** [s.split(c)]: the fields between the occurrences of [c]. *)
Fixpoint split_acc (c : ascii) (s cur : string) : list string :=
  match s with
  | EmptyString => [rev cur]
  | String a s' =>
      if Ascii.eqb a c then rev cur :: split_acc c s' ""
      else split_acc c s' (String a cur)
  end.

Definition split (c : ascii) (s : string) : list string := split_acc c s "".

(** [s.rfind(c)]: index of the last occurrence, [None] for -1. *)
Fixpoint rfind_from (c : ascii) (s : string) (i : nat) (last : option nat) : option nat :=
  match s with
  | EmptyString => last
  | String a s' => rfind_from c s' (S i) (if Ascii.eqb a c then Some i else last)
  end.

Definition rfind (c : ascii) (s : string) : option nat := rfind_from c s 0%nat None.

(** [s[:n]] *)
Fixpoint take (n : nat) (s : string) : string :=
  match n, s with
  | O, _ => ""
  | S n', String a s' => String a (take n' s')
  | S _, EmptyString => ""
  end.

Definition of_Z (z : Z) : string := NilZero.string_of_int (Z.to_int z).

Definition hex_digit (n : N) : ascii :=
  if (n <? 10)%N then ascii_of_N (48 + n) else ascii_of_N (87 + n).

(** two lower-case hexadecimal digits of a code point below 256 *)
Definition hex2 (c : ascii) : string :=
  let n := N_of_ascii c in
  String (hex_digit (n / 16)) (String (hex_digit (n mod 16)) "").

End Str.

(** ** [json.dumps] and [repr] *)

Definition dquote : ascii := "034"%char.
Definition squote : ascii := "039"%char.
Definition backslash : ascii := "092"%char.

Module Json.

(** The escape of one character under [ensure_ascii=True]: the short escapes
    of [ESCAPE_DCT], and [\u00XX] for every other character outside
    [' '..'~']. *)
Definition escape_char (c : ascii) : string :=
  let n := N_of_ascii c in
  if Ascii.eqb c dquote then String backslash (String dquote "")
  else if Ascii.eqb c backslash then String backslash (String backslash "")
  else if (n =? 10)%N then String backslash "n"
  else if (n =? 13)%N then String backslash "r"
  else if (n =? 9)%N then String backslash "t"
  else if (n =? 8)%N then String backslash "b"
  else if (n =? 12)%N then String backslash "f"
  else if ((n <? 32) || (126 <? n))%N then String backslash ("u00" ++ Str.hex2 c)
  else String c "".

Fixpoint escape (s : string) : string :=
  match s with
  | EmptyString => ""
  | String c s' => escape_char c ++ escape s'
  end.

Definition encode_string (s : string) : string :=
  String dquote (escape s ++ String dquote "").

(** [json.dumps(obj)] with the default separators; [None] stands for the
    [TypeError] raised on an object that is not serialisable. *)
Fixpoint dumps (obj : value) : option string :=
  match obj with
  | VNone => Some "null"
  | VBool b => Some (if b then "true" else "false")
  | VInt z => Some (Str.of_Z z)
  | VStr s => Some (encode_string s)
  | VList l | VTuple l =>
      match (fix items (l : list value) : option (list string) :=
               match l with
               | [] => Some []
               | x :: l' =>
                   match dumps x, items l' with
                   | Some s, Some r => Some (s :: r)
                   | _, _ => None
                   end
               end) l with
      | Some r => Some ("[" ++ Str.join ", " r ++ "]")
      | None => None
      end
  | VDict d =>
      match (fix items (d : list (string * value)) : option (list string) :=
               match d with
               | [] => Some []
               | (k, x) :: d' =>
                   match dumps x, items d' with
                   | Some s, Some r => Some ((encode_string k ++ ": " ++ s) :: r)
                   | _, _ => None
                   end
               end) d with
      | Some r => Some ("{" ++ Str.join ", " r ++ "}")
      | None => None
      end
  | VPath _ | VObj _ _ => None
  end.

(** What [json.load] gives back for the text [json.dump] wrote: tuples come
    back as lists. *)
Fixpoint project (obj : value) : value :=
  match obj with
  | VList l | VTuple l => VList (map project l)
  | VDict d => VDict (map (fun kv => (kv.1, project kv.2)) d)
  | _ => obj
  end.

End Json.

Module Repr.

Definition is_printable (n : N) : bool :=
  (negb (n <? 32) && negb (n =? 127) && negb ((128 <=? n) && (n <=? 160)) && negb (n =? 173))%N.

Definition escape_char (quote c : ascii) : string :=
  let n := N_of_ascii c in
  if Ascii.eqb c backslash then String backslash (String backslash "")
  else if Ascii.eqb c quote then String backslash (String c "")
  else if (n =? 9)%N then String backslash "t"
  else if (n =? 10)%N then String backslash "n"
  else if (n =? 13)%N then String backslash "r"
  else if is_printable n then String c ""
  else String backslash ("x" ++ Str.hex2 c).

Fixpoint escape (quote : ascii) (s : string) : string :=
  match s with
  | EmptyString => ""
  | String c s' => escape_char quote c ++ escape quote s'
  end.

(** [repr(s)] of a string: single quotes unless the string has a single
    quote and no double quote. *)
Definition of_string (s : string) : string :=
  let quote :=
    if Str.contains squote s && negb (Str.contains dquote s) then dquote else squote in
  String quote (escape quote s ++ String quote "").

End Repr.

(** ** Dictionaries in insertion order *)

Abbreviation dict := (list (string * value)).

Module Dict.

(** [d.get(k)] *)
Fixpoint get (k : string) (d : dict) : option value :=
  match d with
  | [] => None
  | (k', v) :: d' => if String.eqb k' k then Some v else get k d'
  end.

(** [k in d] *)
Definition mem (k : string) (d : dict) : bool :=
  match get k d with Some _ => true | None => false end.

(** [d[k] = v]: an existing key keeps its place, a new key goes last. *)
Fixpoint set (k : string) (v : value) (d : dict) : dict :=
  match d with
  | [] => [(k, v)]
  | (k', v') :: d' => if String.eqb k' k then (k', v) :: d' else (k', v') :: set k v d'
  end.

(** [d.pop(k)]: the value and the rest, [None] for [KeyError]. *)
Fixpoint pop (k : string) (d : dict) : option (value * dict) :=
  match d with
  | [] => None
  | (k', v) :: d' =>
      if String.eqb k' k then Some (v, d')
      else match pop k d' with
           | Some (x, r) => Some (x, (k', v) :: r)
           | None => None
           end
  end.

(** [d[k][k2] = v] for a nested dictionary [d[k]]; other shapes are left
    alone (the wrapper only does this on dictionaries it has just built). *)
Definition set_in (k k2 : string) (v : value) (d : dict) : dict :=
  match get k d with
  | Some (VDict inner) => set k (VDict (set k2 v inner)) d
  | _ => d
  end.

End Dict.

(** ** pathlib *)

Module Path.

Definition is_segment (s : string) : bool :=
  negb (String.eqb s "") && negb (String.eqb s ".").

(** [PurePosixPath(s)]: the segments between slashes, without the empty
    ones and the dots; a leading slash makes the path absolute. *)
Definition of_string (s : string) : path :=
  Path_ (Str.startswith s "/") (filter (fun x => is_segment x = true) (Str.split "/" s)).

(** [str(p)] *)
Definition to_string (p : path) : string :=
  if p_root p then "/" ++ Str.join "/" (p_parts p)
  else match p_parts p with
       | [] => "."
       | _ => Str.join "/" (p_parts p)
       end.

(** [p / q] *)
Definition joinpath (p q : path) : path :=
  if p_root q then q else Path_ (p_root p) (p_parts p ++ p_parts q).

(** [p.name] *)
Definition name (p : path) : string := List.last (p_parts p) "".

(** [PurePath.stem] of a final component: the name without its last suffix;
    a leading dot or a trailing dot is no suffix. *)
Definition stem_of (n : string) : string :=
  match Str.rfind "." n with
  | Some i =>
      if ((0 <? i)%nat && (i <? String.length n - 1)%nat)%bool then Str.take i n else n
  | None => n
  end.

(** [p.stem] *)
Definition stem (p : path) : string := stem_of (name p).

Definition valid_name (n : string) : bool :=
  negb (String.eqb n "") && negb (Str.contains "/" n) && negb (String.eqb n ".").

(** [p.with_name(n)] *)
Definition with_name (p : path) (n : string) : result path :=
  if String.eqb (name p) "" then
    Raise (ValueError (to_string p ++ " has an empty name"))
  else if valid_name n then
    Ok (Path_ (p_root p) (removelast (p_parts p) ++ [n]))
  else Raise (ValueError ("Invalid name " ++ n)).

(** the lexical treatment of [..]: [stack] holds the segments walked so
    far, innermost first *)
Fixpoint normalize (stack parts : list string) : list string :=
  match parts with
  | [] => rev stack
  | s :: parts' =>
      if String.eqb s ".." then normalize (tail stack) parts'
      else normalize (s :: stack) parts'
  end.

(** the absolute, normalised segments of [p] in working directory [cwd] *)
Definition key (cwd : list string) (p : path) : list string :=
  normalize [] (if p_root p then p_parts p else cwd ++ p_parts p).

(** [p.resolve()] (no symbolic links) *)
Definition resolve (cwd : list string) (p : path) : path := Path_ true (key cwd p).

End Path.

(** [repr(obj)] *)
Fixpoint py_repr (obj : value) : string :=
  match obj with
  | VNone => "None"
  | VBool b => if b then "True" else "False"
  | VInt z => Str.of_Z z
  | VStr s => Repr.of_string s
  | VList l => "[" ++ Str.join ", " (map py_repr l) ++ "]"
  | VTuple l =>
      match l with
      | [x] => "(" ++ py_repr x ++ ",)"
      | _ => "(" ++ Str.join ", " (map py_repr l) ++ ")"
      end
  | VDict d =>
      "{" ++ Str.join ", " (map (fun kv => Repr.of_string kv.1 ++ ": " ++ py_repr kv.2) d) ++ "}"
  | VPath p => "PosixPath(" ++ Repr.of_string (Path.to_string p) ++ ")"
  | VObj _ r => r
  end.

(** ** track.py, lines 23-60 *)

Definition _TIMESTAMP_FMT : string := "%Y_%m_%d_%H_%M_%S".
Definition DOCKER_BUILD_HASH_LOCATION : path := Path.of_string "/etc/docker-build-git-hash".

Definition SUPPRESSED : string := "<suppressed due to excessive length>".

(** [_format_json(obj, char_limit)] *)
Definition _format_json (obj : value) (char_limit : option nat) : value :=
  let '(string, serializable) :=
    match Json.dumps obj with
    | Some s => (s, true)
    | None => (py_repr obj, false)
    end in
  if match char_limit with
     | Some limit => (limit <? String.length string)%nat
     | None => false
     end
  then VStr SUPPRESSED
  else if serializable then obj else VStr string.

(** ** The file system *)

Inductive node : Type :=
| File (doc : option value)
| Dir (ents : gmap string node).

Module FS.

Definition ENOENT : exn := FileNotFoundError "No such file or directory".
Definition ENOTDIR : exn := NotADirectoryError "Not a directory".
Definition EEXIST : exn := FileExistsError "File exists".
Definition EISDIR : exn := IsADirectoryError "Is a directory".

(** the node a key leads to, as [os.stat] finds it *)
Fixpoint find (n : node) (k : list string) : result node :=
  match k with
  | [] => Ok n
  | s :: k' =>
      match n with
      | File _ => Raise ENOTDIR
      | Dir m =>
          match m !! s with
          | Some c => find c k'
          | None => Raise ENOENT
          end
      end
  end.

(** [Path.mkdir(exist_ok=True, parents=parents)] on a key: an existing
    directory is left as it is, a file in the way is an error, a missing
    parent is created only with [parents]. *)
Fixpoint mkdir (parents : bool) (n : node) (k : list string) : result node :=
  match k with
  | [] =>
      match n with
      | Dir _ => Ok n
      | File _ => Raise EEXIST
      end
  | s :: k' =>
      match n with
      | File _ => Raise ENOTDIR
      | Dir m =>
          let descend (c : node) :=
            match mkdir parents c k' with
            | Ok c' => Ok (Dir (<[s := c']> m))
            | Raise e => Raise e
            end in
          match m !! s with
          | Some c => descend c
          | None =>
              match k' with
              | [] => descend (Dir ∅)
              | _ :: _ => if parents then descend (Dir ∅) else Raise ENOENT
              end
          end
      end
  end.

(** [open(k, 'w')] followed by writing [doc]: the parent must be a
    directory and the key must not be one. *)
Fixpoint write (n : node) (k : list string) (doc : option value) : result node :=
  match k with
  | [] =>
      match n with
      | Dir _ => Raise EISDIR
      | File _ => Ok (File doc)
      end
  | s :: k' =>
      match n with
      | File _ => Raise ENOTDIR
      | Dir m =>
          let descend (c : node) :=
            match write c k' doc with
            | Ok c' => Ok (Dir (<[s := c']> m))
            | Raise e => Raise e
            end in
          match m !! s with
          | Some c => descend c
          | None =>
              match k' with
              | [] => Ok (Dir (<[s := File doc]> m))
              | _ :: _ => Raise ENOENT
              end
          end
      end
  end.

(** [Path.exists()] *)
Definition exists_ (n : node) (k : list string) : bool :=
  match find n k with
  | Ok _ => true
  | Raise _ => false
  end.

(** [json.load] of the file at a key *)
Definition load (n : node) (k : list string) : result value :=
  match find n k with
  | Ok (File (Some v)) => Ok v
  | Ok (File None) => Raise (JSONDecodeError "Expecting value")
  | Ok (Dir _) => Raise EISDIR
  | Raise e => Raise e
  end.

(** [next(Path.iterdir())]: [Ok true] when the directory has an entry,
    [Ok false] for [StopIteration]. *)
Definition has_entry (n : node) (k : list string) : result bool :=
  match find n k with
  | Ok (Dir m) => Ok (match map_to_list m with [] => false | _ :: _ => true end)
  | Ok (File _) => Raise ENOTDIR
  | Raise e => Raise e
  end.

(** the document of the file at a key, if the key is a file *)
Definition file_at (n : node) (k : list string) : option (option value) :=
  match find n k with
  | Ok (File doc) => Some doc
  | _ => None
  end.

End FS.

(** ** The process state and the monad of the wrapper *)

Record state : Type := State {
  st_fs : node;                 (* the root directory *)
  st_seeds : dict               (* last seed given to each random library *)
}.

Definition M (A : Type) : Type := state -> result A * state.

Definition ret {A} (a : A) : M A := fun st => (Ok a, st).
Definition raise {A} (e : exn) : M A := fun st => (Raise e, st).
Definition bind {A B} (m : M A) (k : A -> M B) : M B :=
  fun st =>
    match m st with
    | (Ok a, st') => k a st'
    | (Raise e, st') => (Raise e, st')
    end.
Definition lift {A} (r : result A) : M A := fun st => (r, st).

#[global] Instance M_ret : MRet M := @ret.
#[global] Instance M_bind : MBind M := fun A B k m => bind m k.

Definition when_ (b : bool) (m : M unit) : M unit := if b then m else ret tt.

(** The operations below take the working directory [cwd] of the process,
    against which a relative path is read. *)

(** [p.mkdir(exist_ok=True, parents=parents)] *)
Definition path_mkdir (cwd : list string) (p : path) (parents : bool) : M unit :=
  fun st =>
    match FS.mkdir parents (st_fs st) (Path.key cwd p) with
    | Ok root => (Ok tt, State root (st_seeds st))
    | Raise e => (Raise e, st)
    end.

(** [p.exists()] *)
Definition path_exists (cwd : list string) (p : path) : M bool :=
  fun st => (Ok (FS.exists_ (st_fs st) (Path.key cwd p)), st).

(** [with p.open('r') as jf: json.load(jf)] *)
Definition json_load (cwd : list string) (p : path) : M value :=
  fun st => (FS.load (st_fs st) (Path.key cwd p), st).

(** [with p.open('w') as jf: json.dump(obj, jf, indent=4)]: the file is
    opened (and truncated) first; an object that is not serialisable leaves
    text that is no JSON document and raises. *)
Definition json_dump (cwd : list string) (obj : value) (p : path) : M unit :=
  fun st =>
    let doc := match Json.dumps obj with Some _ => Some (Json.project obj) | None => None end in
    match FS.write (st_fs st) (Path.key cwd p) doc with
    | Ok root =>
        (match doc with
         | Some _ => Ok tt
         | None => Raise (TypeError "Object is not JSON serializable")
         end, State root (st_seeds st))
    | Raise e => (Raise e, st)
    end.

(** [i = p.iterdir(); next(i)] *)
Definition dir_has_entry (cwd : list string) (p : path) : M bool :=
  fun st => (FS.has_entry (st_fs st) (Path.key cwd p), st).

(** ** inspect.Signature *)

Inductive kind : Type :=
| POSITIONAL_OR_KEYWORD
| VAR_POSITIONAL
| KEYWORD_ONLY
| VAR_KEYWORD.

Record parameter : Type := MkParameter {
  par_name : string;
  par_kind : kind;
  par_default : option value      (* [None]: no default *)
}.

Module Signature.

(** [name in signature.parameters] *)
Definition has (sig : list parameter) (name : string) : bool :=
  existsb (fun p => String.eqb (par_name p) name) sig.

Definition missing (p : parameter) : exn :=
  TypeError ("missing a required argument: " ++ par_name p).

(** The first loop of [Signature._bind]: positional values against the
    parameters in order.  Returns the arguments bound so far and the
    parameters left for the keyword loop. *)
Fixpoint bind_positional (params : list parameter) (args : list value)
    (kwargs arguments : dict) : result (dict * list parameter) :=
  match args with
  | [] =>
      match params with
      | [] => Ok (arguments, [])
      | param :: rest =>
          match par_kind param with
          | VAR_POSITIONAL => Ok (arguments, rest)
          | k =>
              if Dict.mem (par_name param) kwargs then Ok (arguments, param :: rest)
              else match k, par_default param with
                   | VAR_KEYWORD, _ | _, Some _ => Ok (arguments, param :: rest)
                   | _, None => Raise (missing param)
                   end
          end
      end
  | arg_val :: args' =>
      match params with
      | [] => Raise (TypeError "too many positional arguments")
      | param :: rest =>
          match par_kind param with
          | VAR_KEYWORD | KEYWORD_ONLY => Raise (TypeError "too many positional arguments")
          | VAR_POSITIONAL =>
              Ok (Dict.set (par_name param) (VTuple (arg_val :: args')) arguments, rest)
          | POSITIONAL_OR_KEYWORD =>
              if Dict.mem (par_name param) kwargs then
                Raise (TypeError ("multiple values for argument " ++ par_name param))
              else bind_positional rest args' kwargs
                     (Dict.set (par_name param) arg_val arguments)
          end
      end
  end.

(** The second loop: the remaining parameters take their values from the
    keyword arguments. *)
Fixpoint bind_keywords (params : list parameter) (kwargs arguments : dict)
    (kwargs_param : option parameter) : result (dict * dict * option parameter) :=
  match params with
  | [] => Ok (arguments, kwargs, kwargs_param)
  | param :: rest =>
      match par_kind param with
      | VAR_KEYWORD => bind_keywords rest kwargs arguments (Some param)
      | VAR_POSITIONAL => bind_keywords rest kwargs arguments kwargs_param
      | _ =>
          match Dict.pop (par_name param) kwargs with
          | None =>
              match par_default param with
              | None => Raise (missing param)
              | Some _ => bind_keywords rest kwargs arguments kwargs_param
              end
          | Some (arg_val, kwargs') =>
              bind_keywords rest kwargs' (Dict.set (par_name param) arg_val arguments)
                kwargs_param
          end
      end
  end.

(** [signature.bind], applied to the positional and the keyword arguments
    of a call; the result is [BoundArguments.arguments]. *)
Definition bind (sig : list parameter) (args : list value) (kwargs : dict) : result dict :=
  match bind_positional sig args kwargs [] with
  | Raise e => Raise e
  | Ok (arguments, rest) =>
      match bind_keywords rest kwargs arguments None with
      | Raise e => Raise e
      | Ok (arguments, [], _) => Ok arguments
      | Ok (arguments, ((_ :: _) as kwargs'), Some kwargs_param) =>
          Ok (Dict.set (par_name kwargs_param) (VDict kwargs') arguments)
      | Ok (_, (k, _) :: _, None) =>
          Raise (TypeError ("got an unexpected keyword argument " ++ k))
      end
  end.

(** [BoundArguments.apply_defaults]: one entry per parameter, in the order
    of the signature. *)
Fixpoint apply_defaults (sig : list parameter) (arguments : dict) : dict :=
  match sig with
  | [] => []
  | param :: rest =>
      match Dict.get (par_name param) arguments with
      | Some v => (par_name param, v) :: apply_defaults rest arguments
      | None =>
          match par_default param, par_kind param with
          | Some v, _ => (par_name param, v) :: apply_defaults rest arguments
          | None, VAR_POSITIONAL => (par_name param, VTuple []) :: apply_defaults rest arguments
          | None, VAR_KEYWORD => (par_name param, VDict []) :: apply_defaults rest arguments
          | None, _ => apply_defaults rest arguments
          end
      end
  end.

End Signature.

(** ** What the interpreter and the machine tell the module *)

Record module_ : Type := Module_ {
  mod_name : string;              (* __name__ *)
  mod_file : option string        (* __file__, [None] without the attribute *)
}.

Inductive module_ref : Type :=
| ByName (name : string)
| ByObject (m : module_).

Record repo : Type := Repo {
  repo_is_dirty : bool;
  repo_active_branch : option string;   (* [None]: detached head *)
  repo_head_commit : string;
  repo_remotes : list (string * string);
  repo_working_dir : string
}.

Record process : Type := Process {
  _have_tensorflow : bool;
  _have_torch : bool;
  _have_numpy : bool;
  sys_argv : list string;
  sys_orig_argv : option (list string);  (* [None] before Python 3.10 *)
  sys_platform : string;
  platform_platform : string;
  sys_version : string;
  sys_implementation_name : string;
  sys_executable : string;
  platform_node : string;
  sys_path : list string;
  mp_cpu_count : Z;
  getuser : option string;               (* [None]: the call raises *)
  os_getcwd : list string;               (* the working directory, as segments *)
  read_text : path -> option string;     (* the text of a file, [None] if absent *)
  working_set : list (string * string);  (* pkg_resources: key, version *)
  import_module : string -> result module_;
  git_Repo : string -> option repo       (* [None]: InvalidGitRepositoryError *)
}.

(** The inputs of one call of the wrapper: the arguments, and what the
    clock, [uuid4], [os.environ] and [random] answer during the call. *)
Record call : Type := Call {
  c_args : list value;
  c_kwargs : dict;
  c_uuid4 : string;               (* str(uuid4()) *)
  c_start_time : string;          (* str(start_time) *)
  c_timestamp : string;           (* start_time.strftime(_TIMESTAMP_FMT) *)
  c_end_time : string;            (* str(end_time) *)
  c_run_time : string;            (* str(end_time - start_time) *)
  c_environ : list (string * string);
  c_entropy : Z                   (* what random.randint draws from *)
}.

Definition vstrs (l : list string) : value := VList (map VStr l).

Definition is_linebreak (c : ascii) : bool :=
  let n := N_of_ascii c in
  ((n =? 10) || (n =? 13) || (n =? 11) || (n =? 12) || (n =? 28) || (n =? 29)
   || (n =? 30) || (n =? 133))%N.

(** [s.splitlines()] *)
Fixpoint splitlines_acc (s cur : string) : list string :=
  match s with
  | EmptyString =>
      match cur with
      | EmptyString => []
      | _ => [Str.rev cur]
      end
  | String c s' =>
      if is_linebreak c then
        Str.rev cur ::
          match s' with
          | String c' s'' =>
              if ((N_of_ascii c =? 13) && (N_of_ascii c' =? 10))%N
              then splitlines_acc s'' ""
              else splitlines_acc s' ""
          | EmptyString => splitlines_acc s' ""
          end
      else splitlines_acc s' (String c cur)
  end.

Definition splitlines (s : string) : list string := splitlines_acc s "".

(** ** track.py, lines 63-149: the environment *)

(** lines 107-109: the text of the build-hash file, [None] when
    [DOCKER_BUILD_HASH_LOCATION.exists()] is false *)
Definition docker_build_hash_file (ps : process) : option string :=
  read_text ps DOCKER_BUILD_HASH_LOCATION.

(** [get_environment_info()] *)
Definition get_environment_info (ps : process) : result value :=
  let info : dict := [] in
  let info := Dict.set "argv" (vstrs (sys_argv ps)) info in
  let info :=
    match sys_orig_argv ps with
    | Some a => Dict.set "orig_argv" (vstrs a) info
    | None => info
    end in
  let info := Dict.set "platform" (VStr (sys_platform ps)) info in
  let info := Dict.set "platform_info" (VStr (platform_platform ps)) info in
  let info := Dict.set "python_version" (VStr (sys_version ps)) info in
  let info := Dict.set "python_implementation" (VStr (sys_implementation_name ps)) info in
  let info := Dict.set "python_executable" (VStr (sys_executable ps)) info in
  let info := Dict.set "cwd" (VStr ("/" ++ Str.join "/" (os_getcwd ps))) info in
  let info := Dict.set "hostname" (VStr (platform_node ps)) info in
  let info := Dict.set "python_path" (vstrs (sys_path ps)) info in
  let info := Dict.set "cpu_count" (VInt (mp_cpu_count ps)) info in
  let info :=
    match getuser ps with
    | Some u => Dict.set "user" (VStr u) info
    | None => Dict.set "user" (VStr "") info
    end in
  match docker_build_hash_file ps with
  | Some text =>
      match splitlines text with
      | docker_build_hash :: _ =>
          Ok (VDict (Dict.set "git_hash_at_docker_build" (VStr docker_build_hash) info))
      | [] => Raise (IndexError "list index out of range")
      end
  | None => Ok (VDict info)
  end.

(** [environ.get(var)] *)
Fixpoint environ_get (environ : list (string * string)) (var : string) : value :=
  match environ with
  | [] => VNone
  | (k, v) :: rest => if String.eqb k var then VStr v else environ_get rest var
  end.

(** [get_environment_vars(extra_environment_variables)] *)
Definition get_environment_vars (environ : list (string * string))
    (extra_environment_variables : option (list string)) : value :=
  let var_list :=
    ["CUDA_VISIBLE_DEVICES"; "VIRTUAL_ENV"; "PYENV_VIRTUAL_ENV"; "PYTHONPATH"] in
  let var_list :=
    if existsb (fun kv => String.eqb kv.1 "SLURM_JOB_ID") environ
    then (var_list ++ filter (fun v => Str.startswith v "SLURM" = true) (map fst environ))%list
    else var_list in
  let var_list :=
    match extra_environment_variables with
    | Some extra => (var_list ++ extra)%list
    | None => var_list
    end in
  VDict (fold_left (fun vars_dict var => Dict.set var (environ_get environ var) vars_dict)
           var_list []).

(** ** track.py, lines 171-216: seeding *)

(** [random.randint(0, 1000000)] *)
Definition random_randint (entropy : Z) : Z := entropy mod 1000001.

Definition seed_library (lib : string) (seed : value) : M unit :=
  fun st => (Ok tt, State (st_fs st) (Dict.set lib seed (st_seeds st))).

(** [seed_tasks(seed)] *)
Definition seed_tasks (ps : process) (entropy : Z) (seed : value) : M value :=
  let seed :=
    match seed with
    | VNone => VInt (random_randint entropy)
    | _ => seed
    end in
  seed_library "random" seed;;
  when_ (_have_numpy ps) (seed_library "numpy" seed);;
  when_ (_have_tensorflow ps) (seed_library "tensorflow" seed);;
  when_ (_have_torch ps) (seed_library "torch" seed);;
  ret seed.

(** ** track.py, lines 219-320: git, packages, writing *)

Definition no_file_str : string :=
  "You appear to be trying to use git tracking on a function or method "
  ++ "that is not defined in a file, which is not possible. This may be "
  ++ "because the function is defined in an interactive Python shell.".

(** [get_git_info(module, allow_dirty)] *)
Definition get_git_info (ps : process) (module : module_ref) (allow_dirty : bool)
    : result value :=
  match
    match module with
    | ByName name => import_module ps name
    | ByObject m => Ok m
    end
  with
  | Raise e => Raise e
  | Ok md =>
      match mod_file md with
      | None => Raise (RuntimeError no_file_str)
      | Some module_path =>
          match git_Repo ps module_path with
          | None =>
              Raise (RuntimeError ("Module '" ++ mod_name md ++ "' at path '" ++ module_path
                                   ++ "' is not within a git repository"))
          | Some repo =>
              if negb allow_dirty && repo_is_dirty repo then
                Raise (RuntimeError ("Repository for module '" ++ mod_name md
                                     ++ "' is dirty (has uncommitted changes)."))
              else
                let record : dict := [] in
                let record := Dict.set "module_path" (VStr module_path) record in
                let record := Dict.set "name" (VStr (mod_name md)) record in
                let record :=
                  Dict.set "git_active_branch"
                    (VStr (default "detached" (repo_active_branch repo))) record in
                let record := Dict.set "git_commit_hash" (VStr (repo_head_commit repo)) record in
                let record := Dict.set "git_is_dirty" (VBool (repo_is_dirty repo)) record in
                let record :=
                  Dict.set "git_remotes"
                    (VDict (fold_left (fun d item => Dict.set item.1 (VStr item.2) d)
                              (repo_remotes repo) [])) record in
                let record := Dict.set "git_working_dir" (VStr (repo_working_dir repo)) record in
                Ok (VDict record)
          end
      end
  end.

(** [get_installed_packages()] *)
Definition get_installed_packages (ps : process) : value :=
  VDict (fold_left (fun d p => Dict.set p.1 (VStr p.2) d) (working_set ps) []).

(** the renaming both [write_record] and the wrapper apply to a record
    path: a name that does not end in [.json] becomes its stem followed
    by [.json] *)
Definition json_name (record_path : path) : result path :=
  if negb (Str.endswith (Path.name record_path) ".json") then
    Path.with_name record_path (Path.stem record_path ++ ".json")
  else Ok record_path.

(** [write_record(record_path, record)] *)
Definition write_record (cwd : list string) (record_path : path) (record : value) : M unit :=
  record_path ← lift (json_name record_path);
  json_dump cwd record record_path.

(** ** track.py, lines 323-639: the options and their validation *)

(** [Union[Path, str]] *)
Inductive pathlike : Type :=
| PStr (s : string)
| PPath (p : path).

Record config : Type := Config {
  literal_directory : option pathlike;
  directory_parameter : option string;
  subdirectory_name_parameter : option string;
  directory_injection_parameter : option string;
  include_timestamp : bool;
  include_uuid : bool;
  record_filename : option string;
  extra_modules : option (list module_ref);
  extra_environment_variables : option (list string);
  seed_parameter : option string;
  disable_git_tracking : bool;
  allow_dirty_repo : bool;
  include_package_inventory : bool;
  create_parents : bool;
  require_empty_directory : bool;
  chain_records : bool
}.

(** the decorated function *)
Record pyfunction : Type := PyFunction {
  fn_name : string;                   (* __name__ *)
  fn_module : string;                 (* __module__ *)
  fn_signature : list parameter;      (* inspect.signature *)
  fn_sourcefile : option string;      (* inspect.getsourcefile, [None] also for its TypeError *)
  fn_getmodule : option module_;      (* inspect.getmodule *)
  fn_body : dict -> M value           (* the call, on the bound arguments; it
                                         may itself raise, write files and seed *)
}.

(** what [decorator] computes once and [wrapper] closes over *)
Record closure : Type := Closure {
  cl_config : config;
  cl_process : process;
  cl_function : pyfunction;
  cl_signature : list parameter;
  cl_source_file : option string;
  cl_git_info : option value;
  cl_extra_modules_git_info : option value;
  cl_environment_info : value;
  cl_package_inventory : option value;
  cl_record_name_local : string
}.

Definition is_None {A} (o : option A) : bool :=
  match o with None => true | Some _ => false end.

Definition no_such_parameter (name : string) (function : pyfunction) : exn :=
  ValueError ("No such parameter '" ++ name ++ "' for function '" ++ fn_name function ++ "'.").

(** the four checks of lines 646-671 *)
Definition check_parameter (function : pyfunction) (name : option string) : result unit :=
  match name with
  | Some n =>
      if Signature.has (fn_signature function) n then Ok tt
      else Raise (no_such_parameter n function)
  | None => Ok tt
  end.

Definition module_key (m : module_ref) : string :=
  match m with
  | ByName name => name
  | ByObject md => mod_name md
  end.

(** the dictionary comprehension of lines 694-700 *)
Fixpoint extra_git_info (ps : process) (allow_dirty : bool) (ms : list module_ref)
    (acc : dict) : result dict :=
  match ms with
  | [] => Ok acc
  | m :: ms' =>
      match get_git_info ps m allow_dirty with
      | Ok info => extra_git_info ps allow_dirty ms' (Dict.set (module_key m) info acc)
      | Raise e => Raise e
      end
  end.

(** [decorator(function)], lines 641-712 *)
Definition decorator (cfg : config) (ps : process) (function : pyfunction) : result closure :=
  let signature := fn_signature function in
  check_parameter function (directory_parameter cfg);;
  check_parameter function (subdirectory_name_parameter cfg);;
  check_parameter function (directory_injection_parameter cfg);;
  check_parameter function (seed_parameter cfg);;
  let source_file := fn_sourcefile function in
  git_info ←
    (if negb (disable_git_tracking cfg) then
       match fn_getmodule function with
       | None => Raise (RuntimeError "Could not determine module for the decorated function.")
       | Some module =>
           info ← get_git_info ps (ByObject module) (allow_dirty_repo cfg);
           Ok (Some info)
       end
     else Ok None);
  extra_modules_git_info ←
    match extra_modules cfg with
    | Some ms =>
        d ← extra_git_info ps (allow_dirty_repo cfg) ms [];
        Ok (Some (VDict d))
    | None => Ok None
    end;
  environment_info ← get_environment_info ps;
  let package_inventory :=
    if include_package_inventory cfg then Some (get_installed_packages ps) else None in
  let record_name_local :=
    match record_filename cfg with
    | Some (String _ _ as name) => name
    | _ => fn_name function ++ "_record"
    end in
  Ok (Closure cfg ps function signature source_file git_info extra_modules_git_info
         environment_info package_inventory record_name_local).

(** [tracked(...)], lines 613-639: the checks made before a decorator is
    returned (the messages are given without their inner quotation marks) *)
Definition tracked (cfg : config) : result (process -> pyfunction -> result closure) :=
  if Bool.eqb (is_None (literal_directory cfg)) (is_None (directory_parameter cfg)) then
    Raise (TypeError
      "Exactly one of literal_directory or directory_parameter must be provided.")
  else if include_timestamp cfg && include_uuid cfg then
    Raise (ValueError "Options include_timestamp and include_uuid are incompatible.")
  else if include_timestamp cfg || include_uuid cfg then
    if is_None (directory_injection_parameter cfg)
       && is_None (directory_parameter cfg)
       && is_None (subdirectory_name_parameter cfg) then
      let option_used := if include_timestamp cfg then "include_timestamp" else "include_uuid" in
      Raise (TypeError
        ("If " ++ option_used ++ " is True and neither directory_parameter "
         ++ "nor subdirectory_name_parameter are specified, a parameter "
         ++ "of the decorated function must be specified via "
         ++ "directory_injection_parameter in order for the decorated "
         ++ "function to have access to the dynamically created output "
         ++ "directory."))
    else Ok (decorator cfg)
  else Ok (decorator cfg).

(** ** track.py, lines 715-892: the wrapper *)

(** [Path(x)] for a configured directory *)
Definition Path_of (x : pathlike) : path :=
  match x with
  | PStr s => Path.of_string s
  | PPath p => p
  end.

(** [Path(v)] for a runtime value *)
Definition Path_of_value (v : value) : result path :=
  match v with
  | VStr s => Ok (Path.of_string s)
  | VPath p => Ok p
  | _ => Raise (TypeError "expected str, bytes or os.PathLike object")
  end.

(** [p / v] for a runtime value *)
Definition path_div (p : path) (v : value) : result path :=
  match v with
  | VStr s => Ok (Path.joinpath p (Path.of_string s))
  | VPath q => Ok (Path.joinpath p q)
  | _ => Raise (TypeError "unsupported operand type(s) for /")
  end.

(** [arguments[name]] *)
Definition argument (arguments : dict) (name : string) : M value :=
  match Dict.get name arguments with
  | Some v => ret v
  | None => raise (KeyError name)
  end.

(** [isinstance(v, int)]: [bool] is a subclass of [int] *)
Definition isinstance_int (v : value) : bool :=
  match v with
  | VInt _ | VBool _ => true
  | _ => false
  end.

Definition is_VNone (v : value) : bool :=
  match v with
  | VNone => true
  | _ => false
  end.

Definition opt_set (k : string) (o : option value) (d : dict) : dict :=
  match o with
  | Some v => Dict.set k v d
  | None => d
  end.

(** the dictionary comprehension of lines 760-763 and 841-844 *)
Definition format_arguments (arguments : dict) : value :=
  VDict (map (fun kv => (kv.1, _format_json kv.2 (Some 200%nat))) arguments).

(** lines 744-755: binding, with the retry that passes [None] for the
    injection parameter, and the defaults *)
Definition bind_arguments (cl : closure) (c : call) : result dict :=
  let signature := cl_signature cl in
  match Signature.bind signature (c_args c) (c_kwargs c) with
  | Ok arguments => Ok (Signature.apply_defaults signature arguments)
  | Raise (TypeError msg) =>
      match directory_injection_parameter (cl_config cl) with
      | Some inj =>
          match Signature.bind signature (c_args c) (Dict.set inj VNone (c_kwargs c)) with
          | Ok arguments => Ok (Signature.apply_defaults signature arguments)
          | Raise e => Raise e
          end
      | None => Raise (TypeError msg)
      end
  | Raise e => Raise e
  end.

(** lines 771-792: the output directory of this call *)
Definition resolve_directory (cl : closure) (c : call) (arguments : dict) : M path :=
  let cfg := cl_config cl in
  let cwd := os_getcwd (cl_process cl) in
  record_dir ←
    match literal_directory cfg with
    | Some l => ret (Path_of l)
    | None =>
        match directory_parameter cfg with
        | Some output_dir_parameter_loc =>
            v ← argument arguments output_dir_parameter_loc;
            lift (Path_of_value v)
        | None => raise (NameError "output_dir_parameter_loc")
        end
    end;
  record_dir ←
    match subdirectory_name_parameter cfg with
    | Some sub =>
        path_mkdir cwd record_dir (create_parents cfg);;
        subdir_name ← argument arguments sub;
        lift (path_div record_dir subdir_name)
    | None => ret record_dir
    end;
  if include_timestamp cfg then
    let new_name := Path.name record_dir ++ "_" ++ c_timestamp c in
    lift (Path.with_name (Path.resolve cwd record_dir) new_name)
  else if include_uuid cfg then
    let new_name := Path.name record_dir ++ "_" ++ c_uuid4 c in
    lift (Path.with_name (Path.resolve cwd record_dir) new_name)
  else ret record_dir.

(** lines 794-805: the seed of this call *)
Definition resolve_seed (cl : closure) (c : call) (arguments : dict) : M value :=
  seed ←
    match seed_parameter (cl_config cl) with
    | Some sp =>
        seed_ ← argument arguments sp;
        if negb (isinstance_int seed_) && negb (is_VNone seed_) then
          raise (TypeError "Value of the seed parameter must be 'int' or 'None'")
        else ret seed_
    | None => ret VNone
    end;
  seed_tasks (cl_process cl) (c_entropy c) seed.

(** lines 808-810 *)
Definition inject_seed (cfg : config) (seed : value) (arguments : dict) : dict :=
  match seed_parameter cfg with
  | Some sp => Dict.set sp seed arguments
  | None => arguments
  end.

(** lines 812-825 *)
Definition inject_directory (cfg : config) (record_dir : path) (arguments : dict) : dict :=
  match directory_injection_parameter cfg with
  | Some inj => Dict.set inj (VPath record_dir) arguments
  | None =>
      if include_uuid cfg || include_timestamp cfg then
        match subdirectory_name_parameter cfg with
        | Some sub => Dict.set sub (VStr (Path.name record_dir)) arguments
        | None =>
            match directory_parameter cfg with
            | Some dp => Dict.set dp (VPath record_dir) arguments
            | None => arguments
            end
        end
      else arguments
  end.

(** lines 827-838 *)
Definition prepare_directory (cfg : config) (cwd : list string) (record_dir : path)
    : M unit :=
  path_mkdir cwd record_dir (create_parents cfg);;
  if require_empty_directory cfg then
    nonempty ← dir_has_entry cwd record_dir;
    if (nonempty : bool) then
      raise (FileExistsError ("Directory " ++ Path.to_string record_dir ++ " is not empty."))
    else ret tt
  else ret tt.

(** lines 860-864 and 881-885: a record joins what the file held *)
Definition chained (previous_record record : value) : value :=
  match previous_record with
  | VList l => VList (l ++ [record])
  | _ => VList [previous_record; record]
  end.

(** lines 853-868: [Some previous_record] stands for [chaining = True] *)
Definition chain (cfg : config) (cwd : list string) (full_record_path : path)
    : M (option value) :=
  if chain_records cfg then
    found ← path_exists cwd full_record_path;
    if (found : bool) then
      previous_record ← json_load cwd full_record_path;
      ret (Some previous_record)
    else ret None
  else ret None.

(** the document to write, before and after the call *)
Definition out_record_of (previous_record : option value) (record : dict) : value :=
  match previous_record with
  | Some previous => chained previous (VDict record)
  | None => VDict record
  end.

(** what is fixed before the first write *)
Record plan : Type := Plan {
  pl_record : dict;
  pl_arguments : dict;               (* bound_args.arguments, after the injections *)
  pl_record_dir : path;
  pl_full_record_path : path;
  pl_previous_record : option value  (* [Some _]: chaining *)
}.

(** lines 717-868: all the wrapper does before the first write *)
Definition pre_call (cl : closure) (c : call) : M plan :=
  let cfg := cl_config cl in
  let function := cl_function cl in
  let cwd := os_getcwd (cl_process cl) in
  let record : dict := [] in
  let record := Dict.set "uuid" (VStr (c_uuid4 c)) record in
  let record := Dict.set "timing" (VDict [("start_time", VStr (c_start_time c))]) record in
  let record := Dict.set "environment" (cl_environment_info cl) record in
  let record :=
    Dict.set_in "environment" "environment_variables"
      (get_environment_vars (c_environ c) (extra_environment_variables cfg)) record in
  let record :=
    if include_package_inventory cfg
    then opt_set "package_inventory" (cl_package_inventory cl) record
    else record in
  arguments ← lift (bind_arguments cl c);
  let record :=
    Dict.set "called_function"
      (VDict [("name", VStr (fn_name function));
              ("module", VStr (fn_module function));
              ("source_file", from_option VStr VNone (cl_source_file cl));
              ("parameters", format_arguments arguments)]) record in
  let record :=
    if negb (disable_git_tracking cfg)
    then opt_set "tracked_module" (cl_git_info cl) record
    else record in
  let record :=
    if negb (is_None (extra_modules cfg))
    then opt_set "extra_tracked_modules" (cl_extra_modules_git_info cl) record
    else record in
  record_dir ← resolve_directory cl c arguments;
  seed ← resolve_seed cl c arguments;
  let record := Dict.set "seed" seed record in
  let arguments := inject_seed cfg seed arguments in
  let arguments := inject_directory cfg record_dir arguments in
  prepare_directory cfg cwd record_dir;;
  let record :=
    Dict.set_in "called_function" "altered_parameters" (format_arguments arguments) record in
  full_record_path ←
    lift (json_name (Path.joinpath record_dir (Path.of_string (cl_record_name_local cl))));
  previous_record ← chain cfg cwd full_record_path;
  ret (Plan record arguments record_dir full_record_path previous_record).

(** lines 876-878: the end of the call enters the record *)
Definition finish_record (c : call) (record : dict) : dict :=
  let record := Dict.set_in "timing" "end_time" (VStr (c_end_time c)) record in
  Dict.set_in "timing" "run_time" (VStr (c_run_time c)) record.

(** lines 870-892: write, call, write again *)
Definition run_call (cl : closure) (c : call) (p : plan) : M value :=
  let cwd := os_getcwd (cl_process cl) in
  write_record cwd (pl_full_record_path p)
    (out_record_of (pl_previous_record p) (pl_record p));;
  result ← fn_body (cl_function cl) (pl_arguments p);
  let record := finish_record c (pl_record p) in
  write_record cwd (pl_full_record_path p) (out_record_of (pl_previous_record p) record);;
  ret result.

(** [wrapper], applied to the arguments and the answers of one call [c] *)
Definition wrapper (cl : closure) (c : call) : M value :=
  p ← pre_call cl c;
  run_call cl c p.

(** * Notions used to state the properties *)

(** the textual form of a value that the normaliser measures *)
Definition textual_form (obj : value) : string :=
  match Json.dumps obj with
  | Some s => s
  | None => py_repr obj
  end.

(** [tracked(...)(function)]: validation, then decoration *)
Definition decorate (cfg : config) (ps : process) (function : pyfunction) : result closure :=
  dec ← tracked cfg;
  dec ps function.

(** [record['called_function'][field]] *)
Definition called_function_field (field : string) (record : dict) : option value :=
  match Dict.get "called_function" record with
  | Some (VDict cf) => Dict.get field cf
  | _ => None
  end.

(** [record['timing'][field]] *)
Definition timing_field (field : string) (record : dict) : option value :=
  match Dict.get "timing" record with
  | Some (VDict t) => Dict.get field t
  | _ => None
  end.

(** where the record file of a plan lies in the file system *)
Definition record_key (cl : closure) (p : plan) : list string :=
  Path.key (os_getcwd (cl_process cl)) (pl_full_record_path p).

(** the number of records a document of a record file holds *)
Definition record_count (doc : value) : nat :=
  match doc with
  | VList l => length l
  | _ => 1%nat
  end.

(** an action that leaves every file as it is *)
Definition keeps_files {A} (m : M A) : Prop :=
  forall st r st', m st = (r, st') ->
    forall k, FS.file_at (st_fs st') k = FS.file_at (st_fs st) k.

(** an action that leaves every non-empty directory non-empty *)
Definition keeps_entries {A} (m : M A) : Prop :=
  forall st r st', m st = (r, st') ->
    forall k, FS.has_entry (st_fs st) k = Ok true -> FS.has_entry (st_fs st') k = Ok true.

(** Calls of one decorated function that follow each other, each returning
    normally and each with its record file at the key [k]. *)
Inductive successive_calls (cl : closure) (k : list string)
  : state -> list call -> state -> Prop :=
| no_call (st : state) : successive_calls cl k st [] st
| one_more_call (st st1 st2 st3 : state) (c : call) (cs : list call) (p : plan) (v : value) :
    pre_call cl c st = (Ok p, st1) ->
    record_key cl p = k ->
    run_call cl c p st1 = (Ok v, st2) ->
    successive_calls cl k st2 cs st3 ->
    successive_calls cl k st (c :: cs) st3.

(** the record a written document ends with: the document itself, or the
    last element of a chained list *)
Definition newest (doc : value) : value :=
  match doc with
  | VList l => List.last l VNone
  | _ => doc
  end.

(** ** Sample inputs *)

Module Sample.

Definition machine : process := {|
  _have_tensorflow := false;
  _have_torch := false;
  _have_numpy := true;
  sys_argv := ["jobs.py"];
  sys_orig_argv := None;
  sys_platform := "linux";
  platform_platform := "Linux-5.15-x86_64";
  sys_version := "3.9.7";
  sys_implementation_name := "cpython";
  sys_executable := "/usr/bin/python3";
  platform_node := "node1";
  sys_path := ["/srv/app"];
  mp_cpu_count := 8;
  getuser := Some "alice";
  os_getcwd := ["srv"; "app"];
  read_text := fun _ => None;
  working_set := [("numpy", "1.21.0")];
  import_module := fun name => Raise (ImportError name);
  git_Repo := fun _ =>
    Some (Repo false (Some "main") "0a1b2c" [("origin", "git@example.org:app.git")] "/srv/app")
|}.

(** the same machine with an empty build-hash file *)
Definition machine_empty_marker : process := {|
  _have_tensorflow := false;
  _have_torch := false;
  _have_numpy := true;
  sys_argv := ["jobs.py"];
  sys_orig_argv := None;
  sys_platform := "linux";
  platform_platform := "Linux-5.15-x86_64";
  sys_version := "3.9.7";
  sys_implementation_name := "cpython";
  sys_executable := "/usr/bin/python3";
  platform_node := "node1";
  sys_path := ["/srv/app"];
  mp_cpu_count := 8;
  getuser := Some "alice";
  os_getcwd := ["srv"; "app"];
  read_text := fun p =>
    if String.eqb (Path.to_string p) "/etc/docker-build-git-hash" then Some "" else None;
  working_set := [("numpy", "1.21.0")];
  import_module := fun name => Raise (ImportError name);
  git_Repo := fun _ => None
|}.

(** the options that the samples vary; the others keep their defaults *)
Definition options (literal : option pathlike) (dirp sub inj : option string)
    (timestamp uuid : bool) (filename seedp : option string)
    (require_empty chain : bool) : config := {|
  literal_directory := literal;
  directory_parameter := dirp;
  subdirectory_name_parameter := sub;
  directory_injection_parameter := inj;
  include_timestamp := timestamp;
  include_uuid := uuid;
  record_filename := filename;
  extra_modules := None;
  extra_environment_variables := None;
  seed_parameter := seedp;
  disable_git_tracking := false;
  allow_dirty_repo := true;
  include_package_inventory := true;
  create_parents := false;
  require_empty_directory := require_empty;
  chain_records := chain
|}.

Definition jobs : module_ := Module_ "jobs" (Some "/srv/app/jobs.py").

Definition def (name : string) (sig : list parameter) (body : dict -> M value) : pyfunction :=
  PyFunction name "jobs" sig (Some "/srv/app/jobs.py") (Some jobs) body.

Definition required (name : string) : parameter := MkParameter name POSITIONAL_OR_KEYWORD None.
Definition optional (name : string) (v : value) : parameter :=
  MkParameter name POSITIONAL_OR_KEYWORD (Some v).

(** a body that returns the argument it received under [name] *)
Definition observe (name : string) (arguments : dict) : M value :=
  ret (from_option id VNone (Dict.get name arguments)).

(** a body that raises *)
Definition fail (arguments : dict) : M value :=
  raise (UserException "RuntimeError" "training diverged").

(** a body that removes the whole tree and returns *)
Definition wipe (arguments : dict) : M value :=
  fun st => (Ok (VInt 5), State (Dir ∅) (st_seeds st)).

Definition call_with (args : list value) (kwargs : dict) : call := {|
  c_args := args;
  c_kwargs := kwargs;
  c_uuid4 := "2dddbaa6-620f-4aaa-9883-eb3557dbbdb2";
  c_start_time := "2024-05-01 10:00:00.000000";
  c_timestamp := "2024_05_01_10_00_00";
  c_end_time := "2024-05-01 10:00:02.500000";
  c_run_time := "0:00:02.500000";
  c_environ := [("HOME", "/home/alice")];
  c_entropy := 272428
|}.

(** [/data] exists and is empty *)
Definition disk : state := State (Dir {[ "data" := Dir ∅ ]}) [].

(** [/data] holds a file *)
Definition disk_junk : state := State (Dir {[ "data" := Dir {[ "junk" := File None ]} ]}) [].

End Sample.

(** ** Notions for the further properties *)

(** the variables [get_environment_vars] looks up: the fixed list, the
    variables of a SLURM job, and the ones asked for *)
Definition recorded_variable (environ : list (string * string))
    (extra : option (list string)) (var : string) : Prop :=
  var ∈ ["CUDA_VISIBLE_DEVICES"; "VIRTUAL_ENV"; "PYENV_VIRTUAL_ENV"; "PYTHONPATH"]
  \/ ("SLURM_JOB_ID" ∈ map fst environ /\ var ∈ map fst environ
      /\ Str.startswith var "SLURM" = true)
  \/ (exists l, extra = Some l /\ var ∈ l).

(** the random libraries [seed_tasks] seeds on this machine *)
Definition seeded_library (ps : process) (lib : string) : bool :=
  String.eqb lib "random"
  || (String.eqb lib "numpy" && _have_numpy ps)
  || (String.eqb lib "tensorflow" && _have_tensorflow ps)
  || (String.eqb lib "torch" && _have_torch ps).

(** a git record of a repository without uncommitted changes *)
Definition clean_git_record (info : value) : Prop :=
  exists d, info = VDict d /\ Dict.get "git_is_dirty" d = Some (VBool false).

(** the generators after [seed_tasks] has run with the seed [s] *)
Definition seeded (ps : process) (s : value) (seeds : dict) : dict :=
  (if _have_torch ps then Dict.set "torch" s else id)
    ((if _have_tensorflow ps then Dict.set "tensorflow" s else id)
       ((if _have_numpy ps then Dict.set "numpy" s else id)
          (Dict.set "random" s seeds))).

(** the parameter names given to [tracked] *)
Definition configured (cfg : config) (name : string) : Prop :=
  directory_parameter cfg = Some name
  \/ subdirectory_name_parameter cfg = Some name
  \/ directory_injection_parameter cfg = Some name
  \/ seed_parameter cfg = Some name.

(** the record as the wrapper has built it when it first writes, from the
    bound arguments, the seed and the arguments after the injections *)
Definition record_of (cl : closure) (c : call) (bound : dict) (seed : value)
    (altered : dict) : dict :=
  let cfg := cl_config cl in
  let function := cl_function cl in
  let record : dict := [] in
  let record := Dict.set "uuid" (VStr (c_uuid4 c)) record in
  let record := Dict.set "timing" (VDict [("start_time", VStr (c_start_time c))]) record in
  let record := Dict.set "environment" (cl_environment_info cl) record in
  let record :=
    Dict.set_in "environment" "environment_variables"
      (get_environment_vars (c_environ c) (extra_environment_variables cfg)) record in
  let record :=
    if include_package_inventory cfg
    then opt_set "package_inventory" (cl_package_inventory cl) record
    else record in
  let record :=
    Dict.set "called_function"
      (VDict [("name", VStr (fn_name function));
              ("module", VStr (fn_module function));
              ("source_file", from_option VStr VNone (cl_source_file cl));
              ("parameters", format_arguments bound)]) record in
  let record :=
    if negb (disable_git_tracking cfg)
    then opt_set "tracked_module" (cl_git_info cl) record
    else record in
  let record :=
    if negb (is_None (extra_modules cfg))
    then opt_set "extra_tracked_modules" (cl_extra_modules_git_info cl) record
    else record in
  let record := Dict.set "seed" seed record in
  Dict.set_in "called_function" "altered_parameters" (format_arguments altered) record.

(** a value that [json.dump] accepts *)
Definition serializable (v : value) : Prop := Json.dumps v <> None.

(** a parameter that a call has to give a value: it has no default and is
    neither the starred nor the double-starred parameter *)
Definition needs_value (p : parameter) : Prop :=
  par_default p = None /\ par_kind p <> VAR_POSITIONAL /\ par_kind p <> VAR_KEYWORD.

(** the exceptions the wrapper itself lets out: [TypeError], [ValueError],
    the [OSError]s of the file system, and [JSONDecodeError] *)
Definition call_error (e : exn) : bool :=
  match e with
  | TypeError _ | ValueError _ | FileExistsError _ | FileNotFoundError _
  | NotADirectoryError _ | IsADirectoryError _ | JSONDecodeError _ => true
  | _ => false
  end.

(** an action whose exceptions all satisfy [P] *)
Definition raises_only {A} (P : exn -> Prop) (m : M A) : Prop :=
  forall st e st', m st = (Raise e, st') -> P e.

(** the suffix that makes the output directory of a call unique *)
Definition suffix_of (cfg : config) (c : call) : string :=
  if include_timestamp cfg then c_timestamp c else c_uuid4 c.

(** ** Further sample inputs *)

Module Strict.

Definition helpers : module_ := Module_ "helpers" (Some "/srv/app/helpers.py").

(** a clean repository is required, and a second module is tracked *)
Definition options : config := {|
  literal_directory := Some (PStr "/data");
  directory_parameter := None;
  subdirectory_name_parameter := None;
  directory_injection_parameter := None;
  include_timestamp := false;
  include_uuid := false;
  record_filename := None;
  extra_modules := Some [ByObject helpers];
  extra_environment_variables := None;
  seed_parameter := None;
  disable_git_tracking := false;
  allow_dirty_repo := false;
  include_package_inventory := false;
  create_parents := false;
  require_empty_directory := false;
  chain_records := false
|}.

(** missing parents of the output directory are created *)
Definition parents : config := {|
  literal_directory := Some (PStr "/data/runs/a");
  directory_parameter := None;
  subdirectory_name_parameter := None;
  directory_injection_parameter := None;
  include_timestamp := false;
  include_uuid := false;
  record_filename := None;
  extra_modules := None;
  extra_environment_variables := None;
  seed_parameter := None;
  disable_git_tracking := false;
  allow_dirty_repo := true;
  include_package_inventory := false;
  create_parents := true;
  require_empty_directory := true;
  chain_records := false
|}.

End Strict.

(** [/data] holds a record file of the function [f] that is not JSON *)
Definition disk_garbled : state :=
  State (Dir {[ "data" := Dir {[ "f_record.json" := File None ]} ]}) [].

(** * Lemmas about the model *)

(** ** Strings and names *)

Lemma append_cons (x : ascii) (a b : string) : String x a ++ b = String x (a ++ b).
Proof. reflexivity. Qed.

Lemma append_nil_l (a : string) : "" ++ a = a.
Proof. reflexivity. Qed.

Lemma append_assoc (a b c : string) : (a ++ b) ++ c = a ++ (b ++ c).
Proof.
  induction a as [|x a IH]; [reflexivity|]. now rewrite !append_cons, IH.
Qed.

Lemma append_nil_r (a : string) : a ++ "" = a.
Proof. induction a as [|x a IH]; [reflexivity|]. now rewrite append_cons, IH. Qed.

Lemma rev_acc_append (s acc : string) : Str.rev_acc s acc = Str.rev s ++ acc.
Proof.
  unfold Str.rev. revert acc.
  induction s as [|c s IH]; intros acc; cbn; [reflexivity|].
  rewrite (IH (String c acc)), (IH (String c "")), append_assoc. reflexivity.
Qed.

Lemma rev_append (a b : string) : Str.rev (a ++ b) = Str.rev b ++ Str.rev a.
Proof.
  induction a as [|c a IH].
  - now rewrite append_nil_l, append_nil_r.
  - rewrite append_cons. unfold Str.rev at 1 3. cbn.
    rewrite !rev_acc_append, IH. now rewrite append_assoc.
Qed.

Lemma startswith_append (p s : string) : Str.startswith (p ++ s) p = true.
Proof.
  induction p as [|c p IH]; [rewrite append_nil_l; now destruct s|].
  rewrite append_cons. cbn. now rewrite Ascii.eqb_refl.
Qed.

Lemma endswith_append (s suffix : string) : Str.endswith (s ++ suffix) suffix = true.
Proof. unfold Str.endswith. rewrite rev_append. apply startswith_append. Qed.

Lemma with_name_name (p q : path) (n : string) :
  Path.with_name p n = Ok q -> Path.name q = n.
Proof.
  unfold Path.with_name.
  destruct (String.eqb (Path.name p) ""); [discriminate|].
  destruct (Path.valid_name n); [|discriminate].
  intros [= <-]. unfold Path.name. cbn. apply List.last_last.
Qed.

(** the renamed path always ends in [.json], and renaming it again changes
    nothing *)
Lemma json_name_endswith (p q : path) :
  json_name p = Ok q -> Str.endswith (Path.name q) ".json" = true.
Proof.
  unfold json_name.
  destruct (Str.endswith (Path.name p) ".json") eqn:E; cbn.
  - now intros [= <-].
  - intros H. apply with_name_name in H. rewrite H. apply endswith_append.
Qed.

Lemma json_name_idempotent (p q : path) : json_name p = Ok q -> json_name q = Ok q.
Proof.
  intros H. apply json_name_endswith in H. unfold json_name. now rewrite H.
Qed.

(** ** Dictionaries *)

Lemma dict_get_set_eq (k : string) (v : value) (d : dict) :
  Dict.get k (Dict.set k v d) = Some v.
Proof.
  induction d as [|[k' v'] d IH]; cbn.
  - now rewrite String.eqb_refl.
  - destruct (String.eqb k' k) eqn:E; cbn; rewrite E; auto.
Qed.

Lemma dict_get_set_ne (k k0 : string) (v : value) (d : dict) :
  k <> k0 -> Dict.get k0 (Dict.set k v d) = Dict.get k0 d.
Proof.
  intros Hne. induction d as [|[k' v'] d IH]; cbn.
  - apply String.eqb_neq in Hne. now rewrite Hne.
  - destruct (String.eqb k' k) eqn:E; cbn.
    + apply String.eqb_eq in E. subst k'.
      apply String.eqb_neq in Hne. now rewrite Hne.
    + destruct (String.eqb k' k0); auto.
Qed.

Lemma dict_get_opt_set_ne (k k0 : string) (o : option value) (d : dict) :
  k <> k0 -> Dict.get k0 (opt_set k o d) = Dict.get k0 d.
Proof. destruct o; cbn; [apply dict_get_set_ne | reflexivity]. Qed.

Lemma dict_get_set_in_ne (k k2 k0 : string) (v : value) (d : dict) :
  k <> k0 -> Dict.get k0 (Dict.set_in k k2 v d) = Dict.get k0 d.
Proof.
  intros Hne. unfold Dict.set_in.
  destruct (Dict.get k d) as [[]|]; try reflexivity. now apply dict_get_set_ne.
Qed.

Lemma dict_get_set_in_eq (k k2 : string) (v : value) (d inner : dict) :
  Dict.get k d = Some (VDict inner) ->
  Dict.get k (Dict.set_in k k2 v d) = Some (VDict (Dict.set k2 v inner)).
Proof. intros H. unfold Dict.set_in. rewrite H. apply dict_get_set_eq. Qed.

(** ** The monad *)

Lemma bind_run {A B} (m : M A) (k : A -> M B) (st : state) :
  (m ≫= k) st =
    match m st with
    | (Ok a, st') => k a st'
    | (Raise e, st') => (Raise e, st')
    end.
Proof. reflexivity. Qed.

Lemma bind_ok_inv {A B} (m : M A) (k : A -> M B) (st st2 : state) (b : B) :
  (m ≫= k) st = (Ok b, st2) ->
  exists a st1, m st = (Ok a, st1) /\ k a st1 = (Ok b, st2).
Proof.
  rewrite bind_run. destruct (m st) as [[a|e] st1]; [eauto | discriminate].
Qed.

Lemma bind_ok {A B} (m : M A) (k : A -> M B) (st st1 : state) (a : A) :
  m st = (Ok a, st1) -> (m ≫= k) st = k a st1.
Proof. intros H. now rewrite bind_run, H. Qed.

Lemma bind_raise {A B} (m : M A) (k : A -> M B) (st st1 : state) (e : exn) :
  m st = (Raise e, st1) -> (m ≫= k) st = (Raise e, st1).
Proof. intros H. now rewrite bind_run, H. Qed.

Lemma lift_ok_inv {A} (r : result A) (st st1 : state) (a : A) :
  lift r st = (Ok a, st1) -> r = Ok a /\ st1 = st.
Proof. unfold lift. now intros [= -> ->]. Qed.

Lemma ret_inv {A} (a b : A) (st st1 : state) :
  ret a st = (Ok b, st1) -> a = b /\ st1 = st.
Proof. unfold ret. now intros [= -> ->]. Qed.

(** ** The file system *)

Lemma find_write (n n' : node) (k : list string) (doc : option value) :
  FS.write n k doc = Ok n' -> FS.find n' k = Ok (File doc).
Proof.
  revert n n'. induction k as [|s k IH]; intros n n'; cbn.
  - destruct n; [intros [= <-]; reflexivity | discriminate].
  - destruct n as [|m]; [discriminate|].
    destruct (m !! s) as [c|] eqn:Hc.
    + destruct (FS.write c k doc) as [c'|] eqn:Hw; [|discriminate].
      intros [= <-]. cbn. rewrite lookup_insert_eq. eauto.
    + destruct k; [|discriminate].
      intros [= <-]. cbn. now rewrite lookup_insert_eq.
Qed.

Lemma file_at_empty_dir (k : list string) : FS.file_at (Dir ∅) k = None.
Proof. destruct k; cbn; [reflexivity|]. unfold FS.file_at. cbn. now rewrite lookup_empty. Qed.

(** creating directories changes no file *)
Lemma mkdir_file_at (parents : bool) (kd : list string) :
  forall n n' k, FS.mkdir parents n kd = Ok n' -> FS.file_at n' k = FS.file_at n k.
Proof.
  induction kd as [|s kd IH]; intros n n' k; cbn.
  - destruct n; [discriminate | now intros [= <-]].
  - destruct n as [|m]; [discriminate|].
    destruct (m !! s) as [c|] eqn:Hc.
    + destruct (FS.mkdir parents c kd) as [c'|] eqn:Hm; [|discriminate].
      intros [= <-]. destruct k as [|t k]; [reflexivity|].
      unfold FS.file_at. cbn.
      destruct (decide (s = t)) as [->|Hne].
      * rewrite lookup_insert_eq, Hc. apply (IH c c' k Hm).
      * now rewrite lookup_insert_ne.
    + assert (Hnew : forall c', FS.mkdir parents (Dir ∅) kd = Ok c' ->
                FS.file_at (Dir (<[s:=c']> m)) k = FS.file_at (Dir m) k).
      { intros c' Hm. destruct k as [|t k]; [reflexivity|].
        unfold FS.file_at. cbn.
        destruct (decide (s = t)) as [->|Hne].
        - rewrite lookup_insert_eq, Hc.
          pose proof (IH _ _ k Hm) as E. rewrite file_at_empty_dir in E.
          unfold FS.file_at in E. exact E.
        - now rewrite lookup_insert_ne. }
      destruct kd as [|s2 kd2].
      * destruct (FS.mkdir parents (Dir ∅) []) as [c'|] eqn:Hm; [|discriminate].
        intros [= <-]. now apply Hnew.
      * destruct parents; [|discriminate].
        destruct (FS.mkdir true (Dir ∅) (s2 :: kd2)) as [c'|] eqn:Hm; [|discriminate].
        intros [= <-]. now apply Hnew.
Qed.

Lemma has_entry_insert (m : gmap string node) (s : string) (c : node) :
  map_to_list (<[s:=c]> m) <> [].
Proof.
  intros E. apply map_to_list_empty_iff in E.
  apply (f_equal (fun x => x !! s)) in E. rewrite lookup_insert_eq, lookup_empty in E.
  discriminate.
Qed.

(** creating directories empties no directory *)
Lemma mkdir_has_entry (parents : bool) (kd : list string) :
  forall n n' k, FS.mkdir parents n kd = Ok n' ->
    FS.has_entry n k = Ok true -> FS.has_entry n' k = Ok true.
Proof.
  induction kd as [|s kd IH]; intros n n' k; cbn.
  - destruct n; [discriminate | now intros [= <-]].
  - destruct n as [|m]; [discriminate|].
    destruct (m !! s) as [c|] eqn:Hc.
    + destruct (FS.mkdir parents c kd) as [c'|] eqn:Hm; [|discriminate].
      intros [= <-]. destruct k as [|t k].
      * intros _. unfold FS.has_entry. cbn.
        destruct (map_to_list (<[s:=c']> m)) eqn:E; [|reflexivity].
        now apply has_entry_insert in E.
      * unfold FS.has_entry. cbn.
        destruct (decide (s = t)) as [->|Hne].
        -- rewrite lookup_insert_eq, Hc. apply (IH c c' k Hm).
        -- now rewrite lookup_insert_ne.
    + assert (Hnew : forall c', FS.has_entry (Dir m) k = Ok true ->
                FS.has_entry (Dir (<[s:=c']> m)) k = Ok true).
      { intros c'. destruct k as [|t k].
        - intros _. unfold FS.has_entry. cbn.
          destruct (map_to_list (<[s:=c']> m)) eqn:E; [|reflexivity].
          now apply has_entry_insert in E.
        - unfold FS.has_entry. cbn.
          destruct (decide (s = t)) as [->|Hne].
          + rewrite Hc. discriminate.
          + now rewrite lookup_insert_ne. }
      destruct kd as [|s2 kd2].
      * destruct (FS.mkdir parents (Dir ∅) []) as [c'|]; [|discriminate].
        intros [= <-]. apply Hnew.
      * destruct parents; [|discriminate].
        destruct (FS.mkdir true (Dir ∅) (s2 :: kd2)) as [c'|]; [|discriminate].
        intros [= <-]. apply Hnew.
Qed.

(** ** Actions that change no file *)

Lemma keeps_files_ret {A} (a : A) : keeps_files (ret a).
Proof. intros st r st'. unfold ret. now intros [= <- <-]. Qed.

Lemma keeps_files_mret {A} (a : A) : keeps_files (mret a : M A).
Proof. apply keeps_files_ret. Qed.

Lemma keeps_files_raise {A} (e : exn) : keeps_files (raise e : M A).
Proof. intros st r st'. unfold raise. now intros [= <- <-]. Qed.

Lemma keeps_files_lift {A} (r : result A) : keeps_files (lift r).
Proof. intros st r' st'. unfold lift. now intros [= <- <-]. Qed.

Lemma keeps_files_bind {A B} (m : M A) (k : A -> M B) :
  keeps_files m -> (forall a, keeps_files (k a)) -> keeps_files (m ≫= k).
Proof.
  intros Hm Hk st r st'. rewrite bind_run.
  destruct (m st) as [[a|e] st1] eqn:E.
  - intros H key. rewrite (Hk a _ _ _ H). apply (Hm _ _ _ E).
  - intros [= <- <-]. apply (Hm _ _ _ E).
Qed.

Lemma keeps_files_path_mkdir cwd p parents : keeps_files (path_mkdir cwd p parents).
Proof.
  intros st r st'. unfold path_mkdir.
  destruct (FS.mkdir parents (st_fs st) (Path.key cwd p)) eqn:E.
  - intros [= <- <-] k. cbn. apply (mkdir_file_at _ _ _ _ k E).
  - now intros [= <- <-].
Qed.

Lemma keeps_files_path_exists cwd p : keeps_files (path_exists cwd p).
Proof. intros st r st'. unfold path_exists. now intros [= <- <-]. Qed.

Lemma keeps_files_json_load cwd p : keeps_files (json_load cwd p).
Proof. intros st r st'. unfold json_load. now intros [= <- <-]. Qed.

Lemma keeps_files_dir_has_entry cwd p : keeps_files (dir_has_entry cwd p).
Proof. intros st r st'. unfold dir_has_entry. now intros [= <- <-]. Qed.

Lemma keeps_files_seed_library lib seed : keeps_files (seed_library lib seed).
Proof. intros st r st'. unfold seed_library. now intros [= <- <-]. Qed.

Lemma keeps_files_argument arguments name : keeps_files (argument arguments name).
Proof.
  unfold argument. destruct (Dict.get name arguments);
    [apply keeps_files_ret | apply keeps_files_raise].
Qed.

Create HintDb files.
#[local] Hint Resolve keeps_files_ret keeps_files_mret keeps_files_raise keeps_files_lift
  keeps_files_path_mkdir keeps_files_path_exists keeps_files_json_load
  keeps_files_dir_has_entry keeps_files_seed_library keeps_files_argument : files.

Ltac keeps_files_tac :=
  repeat first
    [ progress auto with files
    | apply keeps_files_bind; [|intros ?]
    | match goal with
      | |- keeps_files (if ?b then _ else _) => destruct b
      | |- keeps_files (match ?o with Some _ => _ | None => _ end) => destruct o
      | |- keeps_files (when_ ?b _) => destruct b; cbn [when_]
      end ].

Lemma keeps_files_seed_tasks ps entropy seed : keeps_files (seed_tasks ps entropy seed).
Proof. unfold seed_tasks. keeps_files_tac. Qed.

Lemma keeps_files_resolve_directory cl c arguments :
  keeps_files (resolve_directory cl c arguments).
Proof. unfold resolve_directory. cbv zeta. keeps_files_tac. Qed.

Lemma keeps_files_resolve_seed cl c arguments : keeps_files (resolve_seed cl c arguments).
Proof.
  unfold resolve_seed. keeps_files_tac; apply keeps_files_seed_tasks.
Qed.

Lemma keeps_files_prepare_directory cfg cwd d : keeps_files (prepare_directory cfg cwd d).
Proof. unfold prepare_directory. keeps_files_tac. Qed.

Lemma keeps_files_chain cfg cwd p : keeps_files (chain cfg cwd p).
Proof. unfold chain. keeps_files_tac. Qed.

#[local] Hint Resolve keeps_files_resolve_directory keeps_files_resolve_seed
  keeps_files_prepare_directory keeps_files_chain : files.

(** before its first write the wrapper creates directories at most *)
Lemma keeps_files_pre_call cl c : keeps_files (pre_call cl c).
Proof. unfold pre_call. cbv zeta. keeps_files_tac. Qed.

(** ** Actions that empty no directory *)

Lemma keeps_entries_ret {A} (a : A) : keeps_entries (ret a).
Proof. intros st r st'. unfold ret. now intros [= <- <-]. Qed.

Lemma keeps_entries_mret {A} (a : A) : keeps_entries (mret a : M A).
Proof. apply keeps_entries_ret. Qed.

Lemma keeps_entries_raise {A} (e : exn) : keeps_entries (raise e : M A).
Proof. intros st r st'. unfold raise. now intros [= <- <-]. Qed.

Lemma keeps_entries_lift {A} (r : result A) : keeps_entries (lift r).
Proof. intros st r' st'. unfold lift. now intros [= <- <-]. Qed.

Lemma keeps_entries_bind {A B} (m : M A) (k : A -> M B) :
  keeps_entries m -> (forall a, keeps_entries (k a)) -> keeps_entries (m ≫= k).
Proof.
  intros Hm Hk st r st'. rewrite bind_run.
  destruct (m st) as [[a|e] st1] eqn:E.
  - intros H key Hin. apply (Hk a _ _ _ H). now apply (Hm _ _ _ E).
  - intros [= <- <-]. apply (Hm _ _ _ E).
Qed.

Lemma keeps_entries_path_mkdir cwd p parents : keeps_entries (path_mkdir cwd p parents).
Proof.
  intros st r st'. unfold path_mkdir.
  destruct (FS.mkdir parents (st_fs st) (Path.key cwd p)) eqn:E.
  - intros [= <- <-] k. cbn. apply (mkdir_has_entry _ _ _ _ k E).
  - now intros [= <- <-].
Qed.

Lemma keeps_entries_seed_library lib seed : keeps_entries (seed_library lib seed).
Proof. intros st r st'. unfold seed_library. now intros [= <- <-]. Qed.

Lemma keeps_entries_argument arguments name : keeps_entries (argument arguments name).
Proof.
  unfold argument. destruct (Dict.get name arguments);
    [apply keeps_entries_ret | apply keeps_entries_raise].
Qed.

Create HintDb entries.
#[local] Hint Resolve keeps_entries_ret keeps_entries_mret keeps_entries_raise
  keeps_entries_lift keeps_entries_path_mkdir keeps_entries_seed_library
  keeps_entries_argument : entries.

Ltac keeps_entries_tac :=
  repeat first
    [ progress auto with entries
    | apply keeps_entries_bind; [|intros ?]
    | match goal with
      | |- keeps_entries (if ?b then _ else _) => destruct b
      | |- keeps_entries (match ?o with Some _ => _ | None => _ end) => destruct o
      | |- keeps_entries (when_ ?b _) => destruct b; cbn [when_]
      end ].

Lemma keeps_entries_resolve_directory cl c arguments :
  keeps_entries (resolve_directory cl c arguments).
Proof. unfold resolve_directory. cbv zeta. keeps_entries_tac. Qed.

Lemma keeps_entries_resolve_seed cl c arguments :
  keeps_entries (resolve_seed cl c arguments).
Proof. unfold resolve_seed, seed_tasks. keeps_entries_tac. Qed.

(** ** What a successful [pre_call] went through *)

Tactic Notation "inv_bind" hyp(H) "as" ident(a) ident(s) ident(H1) :=
  apply bind_ok_inv in H; destruct H as (a & s & H1 & H); cbv beta in H.

Lemma pre_call_inv (cl : closure) (c : call) (st st1 : state) (p : plan) :
  pre_call cl c st = (Ok p, st1) ->
  let cfg := cl_config cl in
  let cwd := os_getcwd (cl_process cl) in
  exists bound seed sa sb sc,
    bind_arguments cl c = Ok bound
    /\ resolve_directory cl c bound st = (Ok (pl_record_dir p), sa)
    /\ resolve_seed cl c bound sa = (Ok seed, sb)
    /\ prepare_directory cfg cwd (pl_record_dir p) sb = (Ok tt, sc)
    /\ json_name (Path.joinpath (pl_record_dir p) (Path.of_string (cl_record_name_local cl)))
       = Ok (pl_full_record_path p)
    /\ chain cfg cwd (pl_full_record_path p) sc = (Ok (pl_previous_record p), st1)
    /\ pl_arguments p = inject_directory cfg (pl_record_dir p) (inject_seed cfg seed bound)
    /\ Dict.get "seed" (pl_record p) = Some seed
    /\ Dict.get "uuid" (pl_record p) = Some (VStr (c_uuid4 c))
    /\ Dict.get "timing" (pl_record p) = Some (VDict [("start_time", VStr (c_start_time c))])
    /\ called_function_field "parameters" (pl_record p) = Some (format_arguments bound)
    /\ called_function_field "altered_parameters" (pl_record p)
       = Some (format_arguments (pl_arguments p)).
Proof.
  intros H. cbv zeta. unfold pre_call in H. cbv zeta in H.
  inv_bind H as a s0 Hbind. apply lift_ok_inv in Hbind as [Hbind ->].
  inv_bind H as d sa Hdir. inv_bind H as seed sb Hseed.
  inv_bind H as u sc Hprep. destruct u.
  inv_bind H as q s1 Hname. apply lift_ok_inv in Hname as [Hname ->].
  inv_bind H as prev s2 Hchain. apply ret_inv in H as [<- <-].
  cbn [pl_record_dir pl_full_record_path pl_previous_record pl_arguments pl_record].
  exists a, seed, sa, sb, sc. repeat (split; [assumption || reflexivity|]).
  assert (Hcf : forall d0,
    Dict.get "called_function"
      (Dict.set "called_function"
         (VDict [("name", VStr (fn_name (cl_function cl)));
                 ("module", VStr (fn_module (cl_function cl)));
                 ("source_file", from_option VStr VNone (cl_source_file cl));
                 ("parameters", format_arguments a)]) d0)
    = Some (VDict [("name", VStr (fn_name (cl_function cl)));
                   ("module", VStr (fn_module (cl_function cl)));
                   ("source_file", from_option VStr VNone (cl_source_file cl));
                   ("parameters", format_arguments a)])) by (intros; apply dict_get_set_eq).
  assert (Htail : forall (k0 : string) b1 o1 b2 o2 d0,
    k0 <> "tracked_module" -> k0 <> "extra_tracked_modules" ->
    Dict.get k0 (if b2 : bool then opt_set "extra_tracked_modules" o2
                                     (if b1 : bool then opt_set "tracked_module" o1 d0 else d0)
                 else (if b1 then opt_set "tracked_module" o1 d0 else d0))
    = Dict.get k0 d0).
  { intros k0 b1 o1 b2 o2 d0 N1 N2.
    destruct b1, b2; rewrite ?dict_get_opt_set_ne by congruence; reflexivity. }
  assert (Hhead : forall (k0 : string) b o v1 v2 v3 v4,
    k0 <> "package_inventory" -> k0 <> "environment" ->
    Dict.get k0 (if b : bool then opt_set "package_inventory" o
                   (Dict.set_in "environment" "environment_variables" v4
                      (Dict.set "environment" v3
                         (Dict.set "timing" v2 (Dict.set "uuid" v1 []))))
                 else Dict.set_in "environment" "environment_variables" v4
                        (Dict.set "environment" v3
                           (Dict.set "timing" v2 (Dict.set "uuid" v1 []))))
    = Dict.get k0 [("uuid", v1); ("timing", v2)]).
  { intros k0 b o v1 v2 v3 v4 N1 N2.
    destruct b; rewrite ?dict_get_opt_set_ne by congruence;
      rewrite dict_get_set_in_ne by congruence;
      rewrite dict_get_set_ne by congruence; reflexivity. }
  repeat split.
  - rewrite dict_get_set_in_ne by discriminate. apply dict_get_set_eq.
  - rewrite dict_get_set_in_ne by discriminate.
    rewrite dict_get_set_ne by discriminate.
    rewrite Htail by discriminate.
    rewrite dict_get_set_ne by discriminate.
    rewrite Hhead by discriminate. reflexivity.
  - rewrite dict_get_set_in_ne by discriminate.
    rewrite dict_get_set_ne by discriminate.
    rewrite Htail by discriminate.
    rewrite dict_get_set_ne by discriminate.
    rewrite Hhead by discriminate. reflexivity.
  - unfold called_function_field.
    erewrite dict_get_set_in_eq.
    2:{ rewrite dict_get_set_ne by discriminate.
        rewrite Htail by discriminate. apply Hcf. }
    reflexivity.
  - unfold called_function_field.
    erewrite dict_get_set_in_eq.
    2:{ rewrite dict_get_set_ne by discriminate.
        rewrite Htail by discriminate. apply Hcf. }
    reflexivity.
Qed.

(** ** Writing a record *)

Lemma write_record_ok cwd (path : path) (doc : value) (st st' : state) :
  write_record cwd path doc st = (Ok tt, st') ->
  exists q, json_name path = Ok q
    /\ FS.file_at (st_fs st') (Path.key cwd q) = Some (Some (Json.project doc))
    /\ st_seeds st' = st_seeds st.
Proof.
  unfold write_record. intros H.
  inv_bind H as q s Hq. apply lift_ok_inv in Hq as [Hq ->].
  exists q. split; [assumption|].
  unfold json_dump in H.
  destruct (FS.write (st_fs st) (Path.key cwd q) _) as [root|] eqn:Hw; [|discriminate].
  destruct (Json.dumps doc); [|discriminate].
  injection H as <-. cbn. apply find_write in Hw.
  unfold FS.file_at. now rewrite Hw.
Qed.

Lemma run_call_ok_inv (cl : closure) (c : call) (p : plan) (st1 st2 : state) (v : value) :
  run_call cl c p st1 = (Ok v, st2) ->
  let cwd := os_getcwd (cl_process cl) in
  exists sa sb,
    write_record cwd (pl_full_record_path p)
      (out_record_of (pl_previous_record p) (pl_record p)) st1 = (Ok tt, sa)
    /\ fn_body (cl_function cl) (pl_arguments p) sa = (Ok v, sb)
    /\ write_record cwd (pl_full_record_path p)
         (out_record_of (pl_previous_record p) (finish_record c (pl_record p))) sb
       = (Ok tt, st2).
Proof.
  unfold run_call. cbv zeta. intros H.
  inv_bind H as u sa Hw1. destruct u.
  inv_bind H as r sb Hbody.
  inv_bind H as u s Hw2. destruct u.
  apply ret_inv in H as [-> ->]. eauto.
Qed.

Lemma wrapper_run (cl : closure) (c : call) (p : plan) (st st1 : state) :
  pre_call cl c st = (Ok p, st1) -> wrapper cl c st = run_call cl c p st1.
Proof. intros H. unfold wrapper. now rewrite bind_run, H. Qed.

Lemma wrapper_pre_raise (cl : closure) (c : call) (e : exn) (st st1 : state) :
  pre_call cl c st = (Raise e, st1) -> wrapper cl c st = (Raise e, st1).
Proof. intros H. unfold wrapper. now rewrite bind_run, H. Qed.

(** ** Decoration *)

Lemma result_bind_ok_inv {A B} (r : result A) (k : A -> result B) (b : B) :
  r ≫= k = Ok b -> exists a, r = Ok a /\ k a = Ok b.
Proof. destruct r as [a|e]; cbn; [eauto | discriminate]. Qed.

Lemma tracked_ok_inv (cfg : config) dec :
  tracked cfg = Ok dec ->
  dec = decorator cfg
  /\ is_None (literal_directory cfg) <> is_None (directory_parameter cfg).
Proof.
  unfold tracked.
  destruct (Bool.eqb _ _) eqn:E; [discriminate|].
  apply Bool.eqb_false_iff in E. intros H. split; [|assumption].
  destruct (include_timestamp cfg && include_uuid cfg); [discriminate|].
  destruct (include_timestamp cfg || include_uuid cfg).
  - destruct (_ && _ && _); [discriminate | congruence].
  - congruence.
Qed.

Lemma decorate_inv (cfg : config) (ps : process) (f : pyfunction) (cl : closure) :
  decorate cfg ps f = Ok cl ->
  cl_config cl = cfg /\ cl_process cl = ps /\ cl_function cl = f
  /\ cl_signature cl = fn_signature f
  /\ is_None (literal_directory cfg) <> is_None (directory_parameter cfg).
Proof.
  unfold decorate. intros H.
  apply result_bind_ok_inv in H as (dec & Ht & H).
  apply tracked_ok_inv in Ht as [-> Hone].
  unfold decorator in H. cbv zeta in H.
  repeat (apply result_bind_ok_inv in H as (? & _ & H)).
  injection H as <-. cbn. auto.
Qed.

(** * The properties *)

(** ** Feeding the directory back (C1) *)




(** ** Chaining (C2) *)

Lemma file_at_load (n : node) (k : list string) (doc : value) :
  FS.file_at n k = Some (Some doc) <-> FS.load n k = Ok doc.
Proof.
  unfold FS.file_at, FS.load.
  destruct (FS.find n k) as [[[v|]|m]|e]; split; intros H; try discriminate;
    injection H as <-; reflexivity.
Qed.

Lemma file_at_exists (n : node) (k : list string) (content : option value) :
  FS.file_at n k = Some content -> FS.exists_ n k = true.
Proof.
  unfold FS.file_at, FS.exists_. destruct (FS.find n k) as [[|]|]; now try discriminate.
Qed.

Lemma chain_inv (cfg : config) cwd (q : path) (sc st1 : state) (previous : option value) :
  chain cfg cwd q sc = (Ok previous, st1) ->
  chain_records cfg = true ->
  st1 = sc
  /\ ((FS.exists_ (st_fs sc) (Path.key cwd q) = false /\ previous = None)
      \/ exists doc, FS.file_at (st_fs sc) (Path.key cwd q) = Some (Some doc)
                     /\ previous = Some doc).
Proof.
  unfold chain. intros H Hc. rewrite Hc in H.
  rewrite bind_run in H. unfold path_exists in H.
  destruct (FS.exists_ (st_fs sc) (Path.key cwd q)) eqn:E.
  - rewrite bind_run in H. unfold json_load in H.
    destruct (FS.load (st_fs sc) (Path.key cwd q)) as [doc|] eqn:L; [|discriminate].
    injection H as <- <-. split; [reflexivity|]. right. exists doc.
    split; [now apply file_at_load | reflexivity].
  - injection H as <- <-. auto.
Qed.

Section Chaining.

Variable cl : closure.
Hypothesis chaining_on : chain_records (cl_config cl) = true.

(** the chaining decision is read off the file as it is before the call *)
Lemma previous_record_of_file (c : call) (st st1 : state) (p : plan) :
  pre_call cl c st = (Ok p, st1) ->
  (FS.exists_ (st_fs st) (record_key cl p) = false -> pl_previous_record p = None)
  /\ (forall doc, FS.file_at (st_fs st) (record_key cl p) = Some (Some doc) ->
      pl_previous_record p = Some doc).
Proof.
  intros Hpre.
  pose proof (keeps_files_pre_call _ _ _ _ _ Hpre (record_key cl p)) as Hsame.
  destruct (pre_call_inv _ _ _ _ _ Hpre)
    as (bound & seed & sa & sb & sc & _ & _ & _ & _ & _ & Hchain & _).
  destruct (chain_inv _ _ _ _ _ _ Hchain chaining_on) as [-> Hcases].
  fold (record_key cl p) in Hcases. split.
  - intros Habsent. destruct Hcases as [[_ ->] | (doc & Hfile & _)]; [reflexivity|].
    rewrite Hsame in Hfile. apply file_at_exists in Hfile. congruence.
  - intros doc Hfile. rewrite <- Hsame in Hfile.
    destruct Hcases as [[Habsent _] | (doc' & Hfile' & ->)].
    + apply file_at_exists in Hfile. congruence.
    + congruence.
Qed.

(** after a call that returned, the record file holds the document of the
    second write *)
Lemma record_file_after_call (c : call) (st st1 st2 : state) (p : plan) (v : value) :
  pre_call cl c st = (Ok p, st1) ->
  run_call cl c p st1 = (Ok v, st2) ->
  FS.file_at (st_fs st2) (record_key cl p)
  = Some (Some (Json.project
                  (out_record_of (pl_previous_record p) (finish_record c (pl_record p))))).
Proof.
  intros Hpre Hrun.
  destruct (pre_call_inv _ _ _ _ _ Hpre)
    as (bound & seed & sa & sb & sc & _ & _ & _ & _ & Hname & _).
  apply run_call_ok_inv in Hrun as (s1 & s2 & _ & _ & Hw).
  apply write_record_ok in Hw as (q & Hq & Hfile & _).
  rewrite (json_name_idempotent _ _ Hname) in Hq. injection Hq as <-. exact Hfile.
Qed.

Lemma record_count_chained (previous : value) (record : dict) :
  exists l, Json.project (chained previous (VDict record)) = VList l
            /\ length l = (record_count previous + 1)%nat.
Proof.
  destruct previous; cbn; eexists; (split; [reflexivity|]); try reflexivity.
  now rewrite length_map, length_app.
Qed.

(** each further call adds one record to the list *)
Lemma successive_calls_extend (k : list string) (st st' : state) (cs : list call) :
  successive_calls cl k st cs st' ->
  forall doc0, FS.file_at (st_fs st) k = Some (Some doc0) ->
  exists doc,
    FS.file_at (st_fs st') k = Some (Some doc)
    /\ record_count doc = (record_count doc0 + length cs)%nat
    /\ (cs <> [] -> exists l, doc = VList l).
Proof.
  intros Hcalls. induction Hcalls as [st | st st1 st2 st3 c cs p v Hpre Hkey Hrun Hrest IH].
  - intros doc0 Hfile. exists doc0. split; [assumption|]. split; [cbn; lia | congruence].
  - intros doc0 Hfile. subst k.
    destruct (previous_record_of_file _ _ _ _ Hpre) as [_ Hprev].
    pose proof (record_file_after_call _ _ _ _ _ _ Hpre Hrun) as Hafter.
    rewrite (Hprev _ Hfile) in Hafter. cbn [out_record_of] in Hafter.
    destruct (record_count_chained doc0 (finish_record c (pl_record p))) as (l & Hl & Hlen).
    rewrite Hl in Hafter.
    destruct (IH _ Hafter) as (doc & Hdoc & Hcount & Hlist).
    exists doc. split; [assumption|]. split.
    + rewrite Hcount. cbn [record_count length]. lia.
    + intros _. destruct cs as [|c' cs'].
      * inversion Hrest; subst. rewrite Hafter in Hdoc. injection Hdoc as <-. eauto.
      * apply Hlist. discriminate.
Qed.

(** C2: with [chain_records], the chaining decision is made from the file
    as the call finds it: no file, and the record is written alone; a file
    holding a list, and the record is appended to the list; a file holding
    another document, and the pair of that document and the record is
    written.  Both writes of the call use this decision, and after a call
    that returned the file holds the document of the second write.  So
    from a path without a file, one call leaves a single record, and [n]
    calls that follow each other leave a list of [n] records. *)
Theorem C2_chained_records :
  (forall c st st1 p,
     pre_call cl c st = (Ok p, st1) ->
     let key := record_key cl p in
     let written record := out_record_of (pl_previous_record p) record in
     (FS.exists_ (st_fs st) key = false ->
        forall record, written record = VDict record)
     /\ (forall l, FS.file_at (st_fs st) key = Some (Some (VList l)) ->
         forall record, written record = VList (l ++ [VDict record]))
     /\ (forall doc, FS.file_at (st_fs st) key = Some (Some doc) ->
         (forall l, doc <> VList l) ->
         forall record, written record = VList [doc; VDict record])
     /\ (forall v st2, run_call cl c p st1 = (Ok v, st2) ->
         exists sa sb,
           write_record (os_getcwd (cl_process cl)) (pl_full_record_path p)
             (written (pl_record p)) st1 = (Ok tt, sa)
           /\ fn_body (cl_function cl) (pl_arguments p) sa = (Ok v, sb)
           /\ write_record (os_getcwd (cl_process cl)) (pl_full_record_path p)
                (written (finish_record c (pl_record p))) sb = (Ok tt, st2)
           /\ FS.file_at (st_fs st2) key
              = Some (Some (Json.project (written (finish_record c (pl_record p)))))))
  /\ (forall k st cs st',
        successive_calls cl k st cs st' ->
        FS.exists_ (st_fs st) k = false ->
        cs <> [] ->
        exists doc,
          FS.file_at (st_fs st') k = Some (Some doc)
          /\ record_count doc = length cs
          /\ (length cs = 1%nat -> exists record, doc = VDict record)
          /\ (2 <= length cs -> exists l, doc = VList l /\ length l = length cs)%nat).
Proof.
  split.
  - intros c st st1 p Hpre. cbv zeta.
    destruct (previous_record_of_file _ _ _ _ Hpre) as [Hnone Hsome].
    repeat split.
    + intros Habsent record. now rewrite (Hnone Habsent).
    + intros l Hfile record. now rewrite (Hsome _ Hfile).
    + intros doc Hfile Hnolist record. rewrite (Hsome _ Hfile).
      destruct doc; try reflexivity. now destruct (Hnolist l).
    + intros v st2 Hrun.
      destruct (run_call_ok_inv _ _ _ _ _ _ Hrun) as (sa & sb & H1 & H2 & H3).
      exists sa, sb. repeat split; try assumption.
      now apply (record_file_after_call _ _ _ _ _ _ Hpre Hrun).
  - intros k st cs st' Hcalls Habsent Hne.
    destruct Hcalls as [st | st st1 st2 st3 c cs p v Hpre Hkey Hrun Hrest]; [congruence|].
    subst k.
    destruct (previous_record_of_file _ _ _ _ Hpre) as [Hnone _].
    pose proof (record_file_after_call _ _ _ _ _ _ Hpre Hrun) as Hafter.
    rewrite (Hnone Habsent) in Hafter. cbn [out_record_of] in Hafter.
    change (Json.project (VDict (finish_record c (pl_record p))))
      with (VDict (map (fun kv => (kv.1, Json.project kv.2)) (finish_record c (pl_record p))))
      in Hafter.
    destruct (successive_calls_extend _ _ _ _ Hrest _ Hafter)
      as (doc & Hdoc & Hcount & Hlist).
    exists doc. split; [assumption|]. cbn [record_count] in Hcount.
    split; [cbn [length]; lia|]. split.
    + intros Hone. destruct cs; [|discriminate].
      inversion Hrest; subst. rewrite Hafter in Hdoc. injection Hdoc as <-. eauto.
    + intros Htwo. destruct cs as [|c' cs']; [cbn in Htwo; lia|].
      destruct Hlist as [l ->]; [discriminate|]. exists l. split; [reflexivity|].
      cbn [record_count] in Hcount. cbn [length] in *. lia.
Qed.

End Chaining.

Lemma C2_chained_records_witness :
  exists cl st',
    decorate (Sample.options (Some (PStr "/data")) None None None false false None None
                false true)
      Sample.machine (Sample.def "f" [Sample.required "x"] (Sample.observe "x")) = Ok cl
    /\ successive_calls cl ["data"; "f_record.json"] Sample.disk
         [Sample.call_with [VInt 1] []; Sample.call_with [VInt 2] [];
          Sample.call_with [VInt 3] []] st'
    /\ exists l, FS.file_at (st_fs st') ["data"; "f_record.json"] = Some (Some (VList l))
                 /\ length l = 3%nat.
Proof.
  eexists _, _.
  match goal with
  | |- ?H /\ _ => assert (Hdec : H) by (vm_compute; reflexivity)
  end.
  split; [exact Hdec|].
  match goal with
  | |- ?H /\ _ =>
      assert (Hcalls : H)
        by (repeat (eapply one_more_call;
                    [vm_compute; reflexivity | vm_compute; reflexivity
                    | vm_compute; reflexivity | ]);
            apply no_call)
  end.
  split; [exact Hcalls|].
  lazymatch type of Hdec with
  | _ = Ok ?k =>
      destruct (proj2 (C2_chained_records k eq_refl) _ _ _ _ Hcalls eq_refl
                  ltac:(discriminate))
        as (doc & Hfile & _ & _ & Hlist)
  end.
  destruct (Hlist ltac:(cbn; lia)) as (l & -> & Hlen).
  exists l. split; [exact Hfile | exact Hlen].
Defined.

(** ** The seed (C3) *)

Lemma seed_tasks_run (ps : process) (entropy : Z) (seed : value) (st : state) :
  exists st',
    seed_tasks ps entropy seed st
    = (Ok (match seed with VNone => VInt (random_randint entropy) | _ => seed end), st').
Proof.
  unfold seed_tasks, when_.
  destruct (_have_numpy ps), (_have_tensorflow ps), (_have_torch ps);
    cbn; eexists; reflexivity.
Qed.

Lemma random_randint_range (entropy : Z) : 0 <= random_randint entropy <= 1000000.
Proof.
  unfold random_randint.
  pose proof (Z.mod_pos_bound entropy 1000001 ltac:(reflexivity)). lia.
Qed.

Lemma resolve_seed_ok_inv (cl : closure) (c : call) (bound : dict) (sa sb : state)
    (seed : value) (sp : string) :
  resolve_seed cl c bound sa = (Ok seed, sb) ->
  seed_parameter (cl_config cl) = Some sp ->
  exists v, Dict.get sp bound = Some v
    /\ (isinstance_int v = true \/ v = VNone)
    /\ seed = match v with VNone => VInt (random_randint (c_entropy c)) | _ => v end.
Proof.
  unfold resolve_seed. intros H Hsp. rewrite Hsp in H.
  inv_bind H as s0 s1 Hs. inv_bind Hs as v s2 Hv.
  unfold argument in Hv. destruct (Dict.get sp bound) as [v'|]; [|discriminate].
  apply ret_inv in Hv as [-> ->]. exists v. split; [reflexivity|].
  destruct (seed_tasks_run (cl_process cl) (c_entropy c) s0 s1) as [st' Hrun].
  rewrite Hrun in H. injection H as <- <-.
  destruct (isinstance_int v) eqn:Hi.
  - cbn in Hs. apply ret_inv in Hs as [<- _]. auto.
  - destruct v; cbn in Hs; try discriminate. apply ret_inv in Hs as [<- _]. auto.
Qed.

Lemma resolve_seed_bad (cl : closure) (c : call) (bound : dict) (sa : state)
    (v : value) (sp : string) :
  seed_parameter (cl_config cl) = Some sp ->
  Dict.get sp bound = Some v ->
  isinstance_int v = false -> v <> VNone ->
  exists msg, resolve_seed cl c bound sa = (Raise (TypeError msg), sa).
Proof.
  intros Hsp Hv Hi Hn. unfold resolve_seed, argument. rewrite Hsp, Hv.
  destruct v; try discriminate; try contradiction; cbn; eexists; reflexivity.
Qed.

Lemma resolve_seed_value (cl : closure) (c : call) (bound : dict) (sa : state)
    (v : value) (sp : string) :
  seed_parameter (cl_config cl) = Some sp ->
  Dict.get sp bound = Some v ->
  isinstance_int v = true \/ v = VNone ->
  exists sb,
    resolve_seed cl c bound sa
    = (Ok (match v with VNone => VInt (random_randint (c_entropy c)) | _ => v end), sb).
Proof.
  intros Hsp Hv Hkind. unfold resolve_seed, argument. rewrite Hsp, Hv.
  rewrite bind_run, bind_run. cbn.
  replace (negb (isinstance_int v) && negb (is_VNone v)) with false
    by (destruct Hkind as [Hi | ->]; [now rewrite Hi | reflexivity]).
  cbn. apply seed_tasks_run.
Qed.

Lemma pre_call_seed_raise (cl : closure) (c : call) (bound : dict) (d : path)
    (st sa sb : state) (e : exn) :
  bind_arguments cl c = Ok bound ->
  resolve_directory cl c bound st = (Ok d, sa) ->
  resolve_seed cl c bound sa = (Raise e, sb) ->
  pre_call cl c st = (Raise e, sb).
Proof.
  intros Hb Hd Hs. unfold pre_call. cbv zeta.
  rewrite bind_run. unfold lift at 1. rewrite Hb.
  rewrite bind_run, Hd. rewrite bind_run, Hs. reflexivity.
Qed.

(** a parameter that gave a path or a path segment holds no seed *)
Lemma resolve_directory_sub (cl : closure) (c : call) (bound : dict) (st sa : state)
    (d : path) (sub : string) :
  resolve_directory cl c bound st = (Ok d, sa) ->
  subdirectory_name_parameter (cl_config cl) = Some sub ->
  exists v, Dict.get sub bound = Some v /\ isinstance_int v = false /\ v <> VNone.
Proof.
  unfold resolve_directory. cbv zeta. intros H Hsub. rewrite Hsub in H.
  inv_bind H as d0 s0 Hd0. inv_bind H as d1 s1 Hd1.
  inv_bind Hd1 as u s2 Hm. inv_bind Hd1 as v s3 Hv.
  unfold argument in Hv. destruct (Dict.get sub bound) as [v'|]; [|discriminate].
  apply ret_inv in Hv as [-> ->]. exists v. split; [reflexivity|].
  apply lift_ok_inv in Hd1 as [Hdiv _].
  destruct v; cbn in Hdiv; try discriminate; split; (reflexivity || discriminate).
Qed.

Lemma resolve_directory_param (cl : closure) (c : call) (bound : dict) (st sa : state)
    (d : path) (dp : string) :
  resolve_directory cl c bound st = (Ok d, sa) ->
  literal_directory (cl_config cl) = None ->
  directory_parameter (cl_config cl) = Some dp ->
  exists v, Dict.get dp bound = Some v /\ isinstance_int v = false /\ v <> VNone.
Proof.
  unfold resolve_directory. cbv zeta. intros H Hlit Hdp. rewrite Hlit, Hdp in H.
  inv_bind H as d0 s0 Hd0. inv_bind Hd0 as v s3 Hv.
  unfold argument in Hv. destruct (Dict.get dp bound) as [v'|]; [|discriminate].
  apply ret_inv in Hv as [-> ->]. exists v. split; [reflexivity|].
  apply lift_ok_inv in Hd0 as [Hp _].
  destruct v; cbn in Hp; try discriminate; split; (reflexivity || discriminate).
Qed.




(** ** The value normaliser (C4) *)

Lemma format_json_suppressed (obj : value) (limit : nat) :
  (limit < String.length (textual_form obj))%nat ->
  _format_json obj (Some limit) = VStr SUPPRESSED.
Proof.
  intros Hlong. unfold _format_json, textual_form in *.
  destruct (Json.dumps obj) as [s|]; apply Nat.ltb_lt in Hlong; now rewrite Hlong.
Qed.

Lemma format_json_within (obj : value) (limit : nat) :
  (String.length (textual_form obj) <= limit)%nat ->
  _format_json obj (Some limit) =
    match Json.dumps obj with
    | Some _ => obj
    | None => VStr (py_repr obj)
    end.
Proof.
  intros Hshort. unfold _format_json, textual_form in *.
  destruct (Json.dumps obj) as [s|]; apply Nat.ltb_ge in Hshort; now rewrite Hshort.
Qed.

Example format_json_short_list :
  _format_json (VList [VInt 1; VStr "a"; VNone]) (Some 200%nat)
  = VList [VInt 1; VStr "a"; VNone].
Proof. reflexivity. Qed.

Example format_json_long_list :
  Json.dumps (VList (repeat (VInt 1000) 40)) <> None
  /\ _format_json (VList (repeat (VInt 1000) 40)) (Some 200%nat) = VStr SUPPRESSED.
Proof. split; [discriminate | reflexivity]. Qed.

Example format_json_path :
  _format_json (VPath (Path.of_string "/data/run")) (Some 200%nat)
  = VStr "PosixPath('/data/run')".
Proof. reflexivity. Qed.

Example format_json_long_object :
  _format_json (VObj "Blob" (Str.concat (repeat "0123456789" 21))) (Some 200%nat)
  = VStr SUPPRESSED.
Proof. reflexivity. Qed.

(** C4: with the ceiling of 200 characters, a value whose JSON text fits is
    returned unchanged; a value that does not encode is replaced by its
    [repr] when that fits; and whenever the text that was obtained (the JSON
    text, or the [repr] when encoding failed) is longer than 200 characters
    the result is the placeholder, encodable or not. *)
Theorem C4_format_json_ceiling (obj : value) :
  let r := _format_json obj (Some 200%nat) in
  (forall s, Json.dumps obj = Some s -> (String.length s <= 200)%nat -> r = obj)
  /\ (Json.dumps obj = None -> (String.length (py_repr obj) <= 200)%nat ->
      r = VStr (py_repr obj))
  /\ (forall s, Json.dumps obj = Some s -> (200 < String.length s)%nat ->
      r = VStr SUPPRESSED)
  /\ (Json.dumps obj = None -> (200 < String.length (py_repr obj))%nat ->
      r = VStr SUPPRESSED).
Proof.
  cbv zeta. repeat split.
  - intros s Hs Hlen. rewrite format_json_within; unfold textual_form; now rewrite Hs.
  - intros Hs Hlen. rewrite format_json_within; unfold textual_form; now rewrite Hs.
  - intros s Hs Hlen. apply format_json_suppressed. unfold textual_form. now rewrite Hs.
  - intros Hs Hlen. apply format_json_suppressed. unfold textual_form. now rewrite Hs.
Qed.

(** ** The name of the record file (C5) *)

(** C5, as the code has it: the record file always has a name that ends in
    [.json]; a requested name that ends in [.json] is used unchanged; any
    other name is replaced by its stem (the name without its last suffix)
    followed by [.json]; [write_record] renames nothing further, and after a
    call that returned the record file is on disk under that name. *)
Theorem C5_record_name_json (cl : closure) (c : call) (st st1 : state) (p : plan) :
  pre_call cl c st = (Ok p, st1) ->
  let requested :=
    Path.joinpath (pl_record_dir p) (Path.of_string (cl_record_name_local cl)) in
  Str.endswith (Path.name (pl_full_record_path p)) ".json" = true
  /\ (Str.endswith (Path.name requested) ".json" = true ->
      pl_full_record_path p = requested)
  /\ (Str.endswith (Path.name requested) ".json" = false ->
      Path.name (pl_full_record_path p) = Path.stem requested ++ ".json")
  /\ json_name (pl_full_record_path p) = Ok (pl_full_record_path p)
  /\ (forall v st2, run_call cl c p st1 = (Ok v, st2) ->
      exists doc, FS.file_at (st_fs st2) (record_key cl p) = Some (Some doc)).
Proof.
  intros H. cbv zeta.
  destruct (pre_call_inv _ _ _ _ _ H)
    as (bound & seed & sa & sb & sc & _ & _ & _ & _ & Hname & _).
  pose proof (json_name_endswith _ _ Hname) as Hend.
  pose proof (json_name_idempotent _ _ Hname) as Hidem.
  repeat split; try assumption.
  - intros E. unfold json_name in Hname. rewrite E in Hname. cbn in Hname. congruence.
  - intros E. unfold json_name in Hname. rewrite E in Hname. cbn in Hname.
    now apply with_name_name in Hname.
  - intros v st2 Hrun. apply run_call_ok_inv in Hrun as (s1 & s2 & _ & _ & Hw).
    apply write_record_ok in Hw as (q & Hq & Hfile & _).
    rewrite Hidem in Hq. injection Hq as <-. unfold record_key. eauto.
Qed.

Lemma C5_record_name_json_witness :
  exists cl p st1,
    decorate (Sample.options (Some (PStr "/data")) None None None false false
                (Some "rec.txt") None false false)
      Sample.machine (Sample.def "f" [Sample.required "x"] (Sample.observe "x")) = Ok cl
    /\ pre_call cl (Sample.call_with [VInt 4] []) Sample.disk = (Ok p, st1)
    /\ Str.endswith (Path.name (pl_full_record_path p)) ".json" = true
    /\ Path.name (pl_full_record_path p) = "rec.json".
Proof.
  eexists _, _, _. split; [vm_compute; reflexivity|].
  match goal with
  | |- ?H /\ _ => assert (Hpre : H) by (vm_compute; reflexivity)
  end.
  split; [exact Hpre|]. split.
  - exact (proj1 (C5_record_name_json _ _ _ _ _ Hpre)).
  - vm_compute. reflexivity.
Defined.

(** C5 as stated fails: for the requested name [rec.txt] the extension is
    not appended ([rec.txt.json]) but put in the place of [.txt]. *)
Lemma C5_counterexample :
  exists cl v st2,
    decorate (Sample.options (Some (PStr "/data")) None None None false false
                (Some "rec.txt") None false false)
      Sample.machine (Sample.def "f" [Sample.required "x"] (Sample.observe "x")) = Ok cl
    /\ cl_record_name_local cl = "rec.txt"
    /\ wrapper cl (Sample.call_with [VInt 4] []) Sample.disk = (Ok v, st2)
    /\ FS.exists_ (st_fs st2) ["data"; "rec.json"] = true
    /\ FS.exists_ (st_fs st2) ["data"; "rec.txt.json"] = false.
Proof.
  eexists _, _, _. split; [vm_compute; reflexivity|].
  split; [reflexivity|]. split; [vm_compute; reflexivity|].
  split; vm_compute; reflexivity.
Qed.

(** ** Parameters before and after the injections (C6) *)

Lemma called_function_field_finish (c : call) (field : string) (record : dict) :
  called_function_field field (finish_record c record) = called_function_field field record.
Proof.
  unfold called_function_field, finish_record.
  now rewrite !dict_get_set_in_ne by discriminate.
Qed.

Lemma newest_out_record (previous : option value) (record : dict) :
  newest (out_record_of previous record) = VDict record.
Proof.
  destruct previous as [[]|]; cbn; try reflexivity. apply List.last_last.
Qed.



(** ** Decoration-time validation (C7) *)

(** C7: [tracked] returns an exception instead of a decorator, so before any
    function is decorated or called, exactly when the options are invalid:
    a [TypeError] when both or neither of [literal_directory] and
    [directory_parameter] are given, a [ValueError] when both suffixes are
    asked for, a [TypeError] when one suffix is asked for and none of
    [directory_parameter], [subdirectory_name_parameter] and
    [directory_injection_parameter] is given; otherwise, and only then, the
    decorator is returned. *)
Theorem C7_tracked_validation (cfg : config) :
  let both_or_neither :=
    is_None (literal_directory cfg) = is_None (directory_parameter cfg) in
  let both_suffixes := include_timestamp cfg = true /\ include_uuid cfg = true in
  let suffix_without_target :=
    (include_timestamp cfg = true \/ include_uuid cfg = true)
    /\ directory_injection_parameter cfg = None
    /\ directory_parameter cfg = None
    /\ subdirectory_name_parameter cfg = None in
  (both_or_neither -> exists msg, tracked cfg = Raise (TypeError msg))
  /\ (both_suffixes -> exists e, tracked cfg = Raise e)
  /\ (~ both_or_neither -> both_suffixes ->
      exists msg, tracked cfg = Raise (ValueError msg))
  /\ (suffix_without_target -> exists e, tracked cfg = Raise e)
  /\ (~ both_or_neither -> ~ both_suffixes -> suffix_without_target ->
      exists msg, tracked cfg = Raise (TypeError msg))
  /\ (~ both_or_neither -> ~ both_suffixes -> ~ suffix_without_target ->
      tracked cfg = Ok (decorator cfg))
  /\ ((exists e, tracked cfg = Raise e) <->
      both_or_neither \/ both_suffixes \/ suffix_without_target).
Proof.
  cbv zeta. unfold tracked.
  destruct (literal_directory cfg), (directory_parameter cfg),
    (include_timestamp cfg), (include_uuid cfg),
    (directory_injection_parameter cfg), (subdirectory_name_parameter cfg);
    cbn [is_None Bool.eqb andb orb];
    (split; [|split; [|split; [|split; [|split; [|split; [|split]]]]]]);
    try (intros; eexists; reflexivity);
    try (intros; reflexivity);
    try (intros; exfalso; intuition congruence);
    try (intros [e He]; discriminate He);
    try (intros; tauto).
Qed.

Example tracked_rejects_both_directories :
  exists msg,
    tracked (Sample.options (Some (PStr "/data")) (Some "out") None None false false None
               None false false) = Raise (TypeError msg).
Proof. eexists. reflexivity. Qed.

Example tracked_rejects_both_suffixes :
  exists msg,
    tracked (Sample.options (Some (PStr "/data")) None None (Some "out") true true None
               None false false) = Raise (ValueError msg).
Proof. eexists. reflexivity. Qed.

Example tracked_rejects_suffix_without_target :
  exists msg,
    tracked (Sample.options (Some (PStr "/data")) None None None false true None
               None false false) = Raise (TypeError msg).
Proof. eexists. reflexivity. Qed.

Example tracked_accepts_suffix_with_injection :
  let cfg := Sample.options (Some (PStr "/data")) None None (Some "out") false true None
               None false false in
  tracked cfg = Ok (decorator cfg).
Proof. reflexivity. Qed.

(** ** A directory that must be empty (C8) *)

(** the directory is there: [mkdir] has nothing to do and does not fail *)
Lemma mkdir_existing (parents : bool) (k : list string) :
  forall n, FS.has_entry n k = Ok true -> exists n', FS.mkdir parents n k = Ok n'.
Proof.
  unfold FS.has_entry.
  induction k as [|s k IH]; intros n; cbn.
  - destruct n; [discriminate | eauto].
  - destruct n as [|m]; [discriminate|].
    destruct (m !! s) as [c|]; [|discriminate].
    intros H. destruct (IH c H) as [c' ->]. eauto.
Qed.

Lemma prepare_directory_conflict (cfg : config) cwd (d : path) (st : state) :
  require_empty_directory cfg = true ->
  FS.has_entry (st_fs st) (Path.key cwd d) = Ok true ->
  exists msg st', prepare_directory cfg cwd d st = (Raise (FileExistsError msg), st').
Proof.
  intros Hreq Hin. unfold prepare_directory. rewrite Hreq.
  destruct (mkdir_existing (create_parents cfg) _ _ Hin) as [n' Hm].
  assert (Hmk : path_mkdir cwd d (create_parents cfg) st = (Ok tt, State n' (st_seeds st)))
    by (unfold path_mkdir; now rewrite Hm).
  rewrite bind_run, Hmk, bind_run. unfold dir_has_entry. cbn [st_fs].
  rewrite (mkdir_has_entry _ _ _ _ _ Hm Hin). unfold raise. eauto.
Qed.

Lemma pre_call_prepare_raise (cl : closure) (c : call) (bound : dict) (d : path)
    (seed : value) (st sa sb sc : state) (e : exn) :
  bind_arguments cl c = Ok bound ->
  resolve_directory cl c bound st = (Ok d, sa) ->
  resolve_seed cl c bound sa = (Ok seed, sb) ->
  prepare_directory (cl_config cl) (os_getcwd (cl_process cl)) d sb = (Raise e, sc) ->
  pre_call cl c st = (Raise e, sc).
Proof.
  intros Hb Hd Hs Hp. unfold pre_call. cbv zeta.
  rewrite bind_run. unfold lift at 1. rewrite Hb.
  rewrite bind_run, Hd. rewrite bind_run, Hs. rewrite bind_run, Hp. reflexivity.
Qed.

Lemma resolve_seed_total (cl : closure) (c : call) (bound : dict) (sa : state) :
  exists r sb, resolve_seed cl c bound sa = (r, sb).
Proof. destruct (resolve_seed cl c bound sa) as [r sb]. eauto. Qed.

Lemma resolve_seed_good (cl : closure) (c : call) (bound : dict) (sa : state) :
  (seed_parameter (cl_config cl) = None
   \/ exists sp v, seed_parameter (cl_config cl) = Some sp
        /\ Dict.get sp bound = Some v
        /\ (isinstance_int v = true \/ v = VNone)) ->
  exists seed sb, resolve_seed cl c bound sa = (Ok seed, sb).
Proof.
  intros Hgood. unfold resolve_seed.
  assert (Hrun : forall s, exists seed sb,
            seed_tasks (cl_process cl) (c_entropy c) s sa = (Ok seed, sb)).
  { intros s. destruct (seed_tasks_run (cl_process cl) (c_entropy c) s sa) as [st' ->].
    eauto. }
  destruct Hgood as [-> | (sp & v & -> & Hv & Hkind)].
  - rewrite bind_run. cbn. apply Hrun.
  - unfold argument. rewrite Hv. rewrite bind_run, bind_run. cbn.
    replace (negb (isinstance_int v) && negb (is_VNone v)) with false
      by (destruct Hkind as [Hi | ->]; [now rewrite Hi | reflexivity]).
    cbn. apply Hrun.
Qed.




(** ** Exceptions and return values of the wrapped function (C9) *)

(** C9: once the record is written, an exception of the wrapped function is
    the exception of the call, and the state the function leaves is the
    state the call leaves: nothing is written after it.  The document
    written before the call, whose record has no end time and no run time,
    is then the last the wrapper wrote to the record file.  When the
    function returns, the call returns the same value as soon as the second
    write is done; the only other outcome is an error of that write. *)
Theorem C9_exception_and_return
    (cl : closure) (c : call) (st st1 sa sb : state) (p : plan) :
  let cwd := os_getcwd (cl_process cl) in
  let before := out_record_of (pl_previous_record p) (pl_record p) in
  let after := out_record_of (pl_previous_record p) (finish_record c (pl_record p)) in
  pre_call cl c st = (Ok p, st1) ->
  write_record cwd (pl_full_record_path p) before st1 = (Ok tt, sa) ->
  (forall e, fn_body (cl_function cl) (pl_arguments p) sa = (Raise e, sb) ->
     wrapper cl c st = (Raise e, sb)
     /\ FS.file_at (st_fs sa) (record_key cl p) = Some (Some (Json.project before))
     /\ newest before = VDict (pl_record p)
     /\ timing_field "end_time" (pl_record p) = None
     /\ timing_field "run_time" (pl_record p) = None)
  /\ (forall v, fn_body (cl_function cl) (pl_arguments p) sa = (Ok v, sb) ->
      (forall st2, write_record cwd (pl_full_record_path p) after sb = (Ok tt, st2) ->
         wrapper cl c st = (Ok v, st2))
      /\ (forall r st2, wrapper cl c st = (r, st2) ->
          r = Ok v
          \/ exists e, r = Raise e
               /\ write_record cwd (pl_full_record_path p) after sb = (Raise e, st2))).
Proof.
  cbv zeta. intros Hpre Hw.
  pose proof (wrapper_run _ _ _ _ _ Hpre) as Hwr.
  destruct (pre_call_inv _ _ _ _ _ Hpre)
    as (bound & seed & s1 & s2 & s3 & _ & _ & _ & _ & Hname & _ & _ & _ & _ & Ht & _).
  split.
  - intros e Hbody. repeat split.
    + rewrite Hwr. unfold run_call. cbv zeta.
      now rewrite bind_run, Hw, bind_run, Hbody.
    + apply write_record_ok in Hw as (q & Hq & Hfile & _).
      rewrite (json_name_idempotent _ _ Hname) in Hq. injection Hq as <-. exact Hfile.
    + apply newest_out_record.
    + unfold timing_field. now rewrite Ht.
    + unfold timing_field. now rewrite Ht.
  - intros v Hbody. split.
    + intros st2 Hw2. rewrite Hwr. unfold run_call. cbv zeta.
      now rewrite bind_run, Hw, bind_run, Hbody, bind_run, Hw2.
    + intros r st2. rewrite Hwr. unfold run_call. cbv zeta.
      rewrite bind_run, Hw, bind_run, Hbody, bind_run.
      destruct (write_record _ _ _ sb) as [[[]|e] s] eqn:Hw2.
      * intros [= <- <-]. now left.
      * intros [= <- <-]. right. eauto.
Qed.

Lemma C9_exception_and_return_witness :
  exists cl p st1 sa,
    decorate (Sample.options (Some (PStr "/data")) None None None false false None None
                false false)
      Sample.machine (Sample.def "f" [Sample.required "x"] Sample.fail) = Ok cl
    /\ pre_call cl (Sample.call_with [VInt 4] []) Sample.disk = (Ok p, st1)
    /\ write_record (os_getcwd (cl_process cl)) (pl_full_record_path p)
         (out_record_of (pl_previous_record p) (pl_record p)) st1 = (Ok tt, sa)
    /\ wrapper cl (Sample.call_with [VInt 4] []) Sample.disk
       = (Raise (UserException "RuntimeError" "training diverged"), sa)
    /\ timing_field "end_time" (pl_record p) = None.
Proof.
  eexists _, _, _, _.
  split; [vm_compute; reflexivity|].
  match goal with
  | |- ?H /\ _ => assert (Hpre : H) by (vm_compute; reflexivity)
  end.
  split; [exact Hpre|].
  match goal with
  | |- ?H /\ _ => assert (Hw : H) by (vm_compute; reflexivity)
  end.
  split; [exact Hw|].
  destruct (proj1 (C9_exception_and_return _ _ _ _ _ _ _ Hpre Hw)
              (UserException "RuntimeError" "training diverged") eq_refl)
    as (Hraise & _ & _ & Hend & _).
  split; [exact Hraise | exact Hend].
Defined.

(** the other outcome of a call whose function returns: a function that
    removes the output directory makes the second write fail *)
Example post_call_write_can_fail :
  exists cl st2,
    decorate (Sample.options (Some (PStr "/data")) None None None false false None None
                false false)
      Sample.machine (Sample.def "f" [Sample.required "x"] Sample.wipe) = Ok cl
    /\ wrapper cl (Sample.call_with [VInt 4] []) Sample.disk
       = (Raise FS.ENOENT, st2).
Proof.
  eexists _, _. split; [vm_compute; reflexivity|]. vm_compute. reflexivity.
Qed.

(** ** The environment snapshot (C10) *)

Lemma splitlines_acc_nil (s cur : string) :
  splitlines_acc s cur = [] <-> s = "" /\ cur = "".
Proof.
  revert cur. induction s as [|c s IH]; intros cur; cbn.
  - destruct cur; split; try easy; intros [_ H]; discriminate.
  - destruct (is_linebreak c).
    + split; [discriminate | intros [H _]; discriminate].
    + rewrite IH. split; intros [H1 H2]; discriminate.
Qed.

Lemma splitlines_nil (s : string) : splitlines s = [] <-> s = "".
Proof. unfold splitlines. rewrite splitlines_acc_nil. tauto. Qed.

Lemma environment_info_without_marker (ps : process) :
  docker_build_hash_file ps = None ->
  exists info,
    get_environment_info ps = Ok (VDict info)
    /\ Dict.get "git_hash_at_docker_build" info = None.
Proof.
  intros H. unfold get_environment_info. rewrite H.
  eexists; split; [reflexivity|].
  destruct (sys_orig_argv ps), (getuser ps); reflexivity.
Qed.

Lemma environment_info_with_marker (ps : process) (text first : string) (rest : list string) :
  docker_build_hash_file ps = Some text ->
  splitlines text = first :: rest ->
  exists info,
    get_environment_info ps = Ok (VDict info)
    /\ Dict.get "git_hash_at_docker_build" info = Some (VStr first).
Proof.
  intros H Hl. unfold get_environment_info. rewrite H, Hl.
  eexists; split; [reflexivity|].
  destruct (sys_orig_argv ps), (getuser ps); reflexivity.
Qed.

Example environment_info_empty_marker :
  get_environment_info Sample.machine_empty_marker
  = Raise (IndexError "list index out of range").
Proof. reflexivity. Qed.

Example environment_info_no_marker :
  exists info, get_environment_info Sample.machine = Ok (VDict info)
               /\ Dict.get "user" info = Some (VStr "alice").
Proof. eexists. split; reflexivity. Qed.


(** * Further properties of the code *)

(** ** Environment variables *)

Lemma fold_set_get (f : string -> value) (l : list string) :
  forall (d0 : dict) (k : string) (v : value),
    Dict.get k (fold_left (fun d var => Dict.set var (f var) d) l d0) = Some v
    <-> (k ∈ l /\ v = f k) \/ (~ k ∈ l /\ Dict.get k d0 = Some v).
Proof.
  induction l as [|x l IH]; intros d0 k v; cbn.
  - split.
    + intros H. right. split; [apply not_elem_of_nil | assumption].
    + intros [[H _]|[_ H]]; [now apply elem_of_nil in H | assumption].
  - rewrite IH. rewrite elem_of_cons. split.
    + intros [[Hin ->]|[Hnin Hget]]; [left; auto|].
      destruct (decide (x = k)) as [Hk|Hne].
      * subst x. rewrite dict_get_set_eq in Hget. injection Hget as <-. left; auto.
      * rewrite dict_get_set_ne in Hget by assumption.
        right. split; [|assumption]. intros [Hk|Hin]; [congruence | contradiction].
    + intros [[[Hk|Hin] Hv]|[Hnin Hget]].
      * subst x v. destruct (decide (k ∈ l)); [left; auto|].
        right. split; [assumption|]. apply dict_get_set_eq.
      * left; auto.
      * right. split; [tauto|].
        rewrite dict_get_set_ne; [assumption|]. intros Hk. subst x. tauto.
Qed.

Lemma existsb_key (environ : list (string * string)) (k : string) :
  existsb (fun kv => String.eqb kv.1 k) environ = true <-> k ∈ map fst environ.
Proof.
  rewrite existsb_exists, list_elem_of_fmap. split.
  - intros ([a b] & Hin & E). apply String.eqb_eq in E. cbn in E. subst a.
    exists (k, b). split; [reflexivity|]. now apply list_elem_of_In.
  - intros ([a b] & -> & Hin). exists (a, b). split; [now apply list_elem_of_In|].
    apply String.eqb_refl.
Qed.

(** X1: [get_environment_vars] returns one entry for each variable it looks
    up, the fixed four, the variables of the environment whose name starts
    with SLURM when [SLURM_JOB_ID] is set, and the extra ones asked for, and
    no other entry; the entry holds what [environ.get] answers, [None] for a
    variable that is not set. *)
Theorem X1_environment_vars_recorded (environ : list (string * string))
    (extra : option (list string)) :
  exists d,
    get_environment_vars environ extra = VDict d
    /\ forall var v,
         Dict.get var d = Some v
         <-> recorded_variable environ extra var /\ v = environ_get environ var.
Proof.
  unfold get_environment_vars. cbv zeta. eexists. split; [reflexivity|].
  intros var v. rewrite fold_set_get. unfold recorded_variable.
  cbn [Dict.get].
  destruct (existsb (fun kv => String.eqb kv.1 "SLURM_JOB_ID") environ) eqn:Eslurm.
  - apply existsb_key in Eslurm.
    destruct extra as [l|]; rewrite ?elem_of_app, ?list_elem_of_filter.
    + split.
      * intros [[[[H|[H1 H2]]|H] ->]|[_ H]]; [| | |discriminate]; split; auto.
        right. right. eauto.
      * intros [[H|[(_ & H1 & H2)|(l' & [= <-] & H)]] ->]; left; split; auto.
    + split.
      * intros [[[H|[H1 H2]] ->]|[_ H]]; [| |discriminate]; split; auto.
      * intros [[H|[(_ & H1 & H2)|(l' & [=] & H)]] ->]; left; split; auto.
  - assert (Hno : ~ "SLURM_JOB_ID" ∈ map fst environ).
    { intros H. apply existsb_key in H. congruence. }
    destruct extra as [l|]; rewrite ?elem_of_app.
    + split.
      * intros [[[H|H] ->]|[_ H]]; [| |discriminate]; split; auto.
        right. right. eauto.
      * intros [[H|[(H0 & _)|(l' & [= <-] & H)]] ->]; [|contradiction|]; left; split; auto.
    + split.
      * intros [[H ->]|[_ H]]; [|discriminate]; split; auto.
      * intros [[H|[(H0 & _)|(l' & [=] & H)]] ->]; [|contradiction]; left; split; auto.
Qed.

(** ** Seeding *)

Lemma seed_tasks_state (ps : process) (entropy : Z) (seed : value) (st : state) :
  seed_tasks ps entropy seed st
  = (Ok (match seed with VNone => VInt (random_randint entropy) | _ => seed end),
     State (st_fs st)
       (seeded ps (match seed with VNone => VInt (random_randint entropy) | _ => seed end)
          (st_seeds st))).
Proof.
  unfold seed_tasks, seeded.
  destruct (_have_numpy ps), (_have_tensorflow ps), (_have_torch ps); reflexivity.
Qed.

Lemma seeded_get (ps : process) (s : value) (seeds : dict) (lib : string) :
  Dict.get lib (seeded ps s seeds)
  = if seeded_library ps lib then Some s else Dict.get lib seeds.
Proof.
  unfold seeded, seeded_library.
  destruct (String.eqb_spec lib "random") as [Hr|Hr];
    destruct (String.eqb_spec lib "numpy") as [Hn|Hn];
    destruct (String.eqb_spec lib "tensorflow") as [Ht|Ht];
    destruct (String.eqb_spec lib "torch") as [Hto|Hto];
    try (exfalso; congruence); subst;
    destruct (_have_numpy ps), (_have_tensorflow ps), (_have_torch ps);
    cbn [orb andb id];
    repeat first [ rewrite dict_get_set_eq | rewrite dict_get_set_ne by congruence ];
    reflexivity.
Qed.


Lemma seed_tasks_seeds (ps : process) (entropy : Z) (seed s : value) (st st' : state) :
  seed_tasks ps entropy seed st = (Ok s, st') ->
  forall lib, seeded_library ps lib = true -> Dict.get lib (st_seeds st') = Some s.
Proof.
  rewrite seed_tasks_state. intros [= <- <-] lib Hlib. cbn [st_seeds].
  now rewrite seeded_get, Hlib.
Qed.

Lemma resolve_seed_seeds (cl : closure) (c : call) (bound : dict) (sa sb : state)
    (seed : value) :
  resolve_seed cl c bound sa = (Ok seed, sb) ->
  forall lib, seeded_library (cl_process cl) lib = true ->
    Dict.get lib (st_seeds sb) = Some seed.
Proof.
  unfold resolve_seed. intros H.
  inv_bind H as s0 s1 Hs. intros lib Hlib. eapply seed_tasks_seeds; eauto.
Qed.

Lemma path_mkdir_seeds cwd (d : path) (parents : bool) (st st' : state) r :
  path_mkdir cwd d parents st = (r, st') -> st_seeds st' = st_seeds st.
Proof.
  unfold path_mkdir. destruct (FS.mkdir _ _ _); now intros [= <- <-].
Qed.

Lemma prepare_directory_seeds (cfg : config) cwd (d : path) (st st' : state) r :
  prepare_directory cfg cwd d st = (r, st') -> st_seeds st' = st_seeds st.
Proof.
  unfold prepare_directory. rewrite bind_run.
  destruct (path_mkdir cwd d (create_parents cfg) st) as [[u|e] s1] eqn:Hm;
    apply path_mkdir_seeds in Hm; [|now intros [= <- <-]].
  destruct (require_empty_directory cfg); [|now intros [= <- <-]].
  rewrite bind_run. unfold dir_has_entry.
  destruct (FS.has_entry _ _) as [[|]|]; now intros [= <- <-].
Qed.

Lemma chain_state (cfg : config) cwd (q : path) (st st' : state) r :
  chain cfg cwd q st = (r, st') -> st' = st.
Proof.
  unfold chain. destruct (chain_records cfg); [|now intros [= <- <-]].
  rewrite bind_run. unfold path_exists.
  destruct (FS.exists_ _ _); [|now intros [= <- <-]].
  rewrite bind_run. unfold json_load. destruct (FS.load _ _); now intros [= <- <-].
Qed.

(** X3: when the wrapper has got as far as its first write, [random] and
    every installed library among numpy, tensorflow and torch have been
    seeded with the value the record holds under [seed], and the first
    write does not change that: the wrapped function starts from the
    recorded seed. *)
Theorem X3_recorded_seed_is_the_seed_in_use
    (cl : closure) (c : call) (st st1 sa : state) (p : plan) (lib : string) :
  pre_call cl c st = (Ok p, st1) ->
  write_record (os_getcwd (cl_process cl)) (pl_full_record_path p)
    (out_record_of (pl_previous_record p) (pl_record p)) st1 = (Ok tt, sa) ->
  seeded_library (cl_process cl) lib = true ->
  Dict.get lib (st_seeds st1) = Dict.get "seed" (pl_record p)
  /\ Dict.get lib (st_seeds sa) = Dict.get "seed" (pl_record p).
Proof.
  intros Hpre Hw Hlib.
  destruct (pre_call_inv _ _ _ _ _ Hpre)
    as (bound & seed & s1 & s2 & s3 & _ & _ & Hseed & Hprep & _ & Hchain & _ & Hrec & _).
  apply chain_state in Hchain. subst st1.
  apply prepare_directory_seeds in Hprep.
  apply write_record_ok in Hw as (q & _ & _ & Hsa).
  rewrite Hsa, Hprep, Hrec. split; now apply (resolve_seed_seeds _ _ _ _ _ _ Hseed).
Qed.

Lemma X3_recorded_seed_is_the_seed_in_use_witness :
  exists cl p st1 sa,
    decorate (Sample.options (Some (PStr "/data")) None None None false false None
                (Some "seed") false false)
      Sample.machine
      (Sample.def "f" [Sample.optional "seed" VNone] (Sample.observe "seed")) = Ok cl
    /\ pre_call cl (Sample.call_with [] []) Sample.disk = (Ok p, st1)
    /\ write_record (os_getcwd (cl_process cl)) (pl_full_record_path p)
         (out_record_of (pl_previous_record p) (pl_record p)) st1 = (Ok tt, sa)
    /\ seeded_library (cl_process cl) "numpy" = true
    /\ Dict.get "numpy" (st_seeds sa) = Some (VInt 272428)
    /\ Dict.get "numpy" (st_seeds sa) = Dict.get "seed" (pl_record p).
Proof.
  eexists _, _, _, _. split; [vm_compute; reflexivity|].
  match goal with
  | |- ?H /\ _ => assert (Hpre : H) by (vm_compute; reflexivity)
  end.
  split; [exact Hpre|].
  match goal with
  | |- ?H /\ _ => assert (Hw : H) by (vm_compute; reflexivity)
  end.
  split; [exact Hw|].
  match goal with
  | |- ?H /\ _ => assert (Hlib : H) by (vm_compute; reflexivity)
  end.
  split; [exact Hlib|].
  split; [vm_compute; reflexivity|].
  exact (proj2 (X3_recorded_seed_is_the_seed_in_use _ _ _ _ _ _ _ Hpre Hw Hlib)).
Defined.

(** ** Decoration, once more *)

Lemma check_parameter_ok (f : pyfunction) (o : option string) :
  check_parameter f o = Ok tt <->
  forall n, o = Some n -> Signature.has (fn_signature f) n = true.
Proof.
  unfold check_parameter. destruct o as [n|].
  - destruct (Signature.has (fn_signature f) n) eqn:E; split.
    + now intros _ n' [= <-].
    + reflexivity.
    + discriminate.
    + intros H. specialize (H n eq_refl). congruence.
  - split; [intros _ n; discriminate | reflexivity].
Qed.

Lemma decorator_inv (cfg : config) (ps : process) (f : pyfunction) (cl : closure) :
  decorator cfg ps f = Ok cl ->
  cl_config cl = cfg /\ cl_process cl = ps /\ cl_function cl = f
  /\ cl_signature cl = fn_signature f
  /\ cl_source_file cl = fn_sourcefile f
  /\ (forall n, configured cfg n -> Signature.has (fn_signature f) n = true)
  /\ (if disable_git_tracking cfg then cl_git_info cl = None
      else exists md info,
          fn_getmodule f = Some md
          /\ get_git_info ps (ByObject md) (allow_dirty_repo cfg) = Ok info
          /\ cl_git_info cl = Some info)
  /\ match extra_modules cfg with
     | Some ms => exists d, extra_git_info ps (allow_dirty_repo cfg) ms [] = Ok d
                            /\ cl_extra_modules_git_info cl = Some (VDict d)
     | None => cl_extra_modules_git_info cl = None
     end
  /\ get_environment_info ps = Ok (cl_environment_info cl)
  /\ cl_package_inventory cl
     = (if include_package_inventory cfg then Some (get_installed_packages ps) else None)
  /\ cl_record_name_local cl
     = match record_filename cfg with
       | Some (String _ _ as name) => name
       | _ => fn_name f ++ "_record"
       end.
Proof.
  unfold decorator. cbv zeta. intros H.
  apply result_bind_ok_inv in H as ([] & H1 & H).
  apply result_bind_ok_inv in H as ([] & H2 & H).
  apply result_bind_ok_inv in H as ([] & H3 & H).
  apply result_bind_ok_inv in H as ([] & H4 & H).
  apply result_bind_ok_inv in H as (git & Hgit & H).
  apply result_bind_ok_inv in H as (extra & Hextra & H).
  apply result_bind_ok_inv in H as (env & Henv & H).
  injection H as <-. cbn.
  repeat (split; [reflexivity|]).
  split.
  { intros n [Hn|[Hn|[Hn|Hn]]];
      [ apply (proj1 (check_parameter_ok f _) H1)
      | apply (proj1 (check_parameter_ok f _) H2)
      | apply (proj1 (check_parameter_ok f _) H3)
      | apply (proj1 (check_parameter_ok f _) H4) ]; assumption. }
  split.
  { destruct (disable_git_tracking cfg); cbn in Hgit; [congruence|].
    destruct (fn_getmodule f) as [md|]; [|discriminate].
    apply result_bind_ok_inv in Hgit as (info & Hinfo & [= <-]). eauto. }
  split.
  { destruct (extra_modules cfg) as [ms|]; [|congruence].
    apply result_bind_ok_inv in Hextra as (d & Hd & [= <-]). eauto. }
  split; [assumption|]. split; reflexivity.
Qed.

Lemma decorate_decorator (cfg : config) (ps : process) (f : pyfunction) (cl : closure) :
  decorate cfg ps f = Ok cl -> tracked cfg = Ok (decorator cfg) /\ decorator cfg ps f = Ok cl.
Proof.
  unfold decorate. intros H.
  apply result_bind_ok_inv in H as (dec & Ht & H).
  destruct (tracked_ok_inv _ _ Ht) as [-> _]. auto.
Qed.

(** X4: decoration checks the names given to [tracked] against the
    signature of the function: a decorated function has a parameter of each
    configured name, and a configured name that the function lacks makes
    decoration fail with a [ValueError], whatever git and the environment
    would have answered. *)
Theorem X4_decorator_checks_parameter_names (cfg : config) (ps : process) (f : pyfunction) :
  (forall cl n, decorator cfg ps f = Ok cl -> configured cfg n ->
     Signature.has (fn_signature f) n = true)
  /\ (forall n, configured cfg n -> Signature.has (fn_signature f) n = false ->
      exists msg, decorator cfg ps f = Raise (ValueError msg)).
Proof.
  split.
  - intros cl n H. apply (decorator_inv _ _ _ _ H).
  - intros n Hn Hmiss. unfold decorator. cbv zeta.
    assert (Hc : forall o, check_parameter f o = Ok tt
                 \/ exists msg, check_parameter f o = Raise (ValueError msg)).
    { intros [n'|]; cbn; [|auto].
      destruct (Signature.has (fn_signature f) n'); [auto|]. right. eexists. reflexivity. }
    destruct (Hc (directory_parameter cfg)) as [E1|(msg & E1)]; rewrite E1; cbn; [|eauto].
    destruct (Hc (subdirectory_name_parameter cfg)) as [E2|(msg & E2)];
      rewrite E2; cbn; [|eauto].
    destruct (Hc (directory_injection_parameter cfg)) as [E3|(msg & E3)];
      rewrite E3; cbn; [|eauto].
    destruct (Hc (seed_parameter cfg)) as [E4|(msg & E4)]; rewrite E4; cbn; [|eauto].
    exfalso.
    destruct Hn as [Hn|[Hn|[Hn|Hn]]];
      [ apply (proj1 (check_parameter_ok f _)) with (n := n) in E1
      | apply (proj1 (check_parameter_ok f _)) with (n := n) in E2
      | apply (proj1 (check_parameter_ok f _)) with (n := n) in E3
      | apply (proj1 (check_parameter_ok f _)) with (n := n) in E4 ];
      congruence.
Qed.

(** ** Git records *)

Lemma git_info_inv (ps : process) (m : module_ref) (allow : bool) (info : value) :
  get_git_info ps m allow = Ok info ->
  exists md file repo d,
    match m with ByName name => import_module ps name | ByObject md' => Ok md' end = Ok md
    /\ mod_file md = Some file
    /\ git_Repo ps file = Some repo
    /\ (allow = true \/ repo_is_dirty repo = false)
    /\ info = VDict d
    /\ Dict.get "name" d = Some (VStr (mod_name md))
    /\ Dict.get "module_path" d = Some (VStr file)
    /\ Dict.get "git_is_dirty" d = Some (VBool (repo_is_dirty repo))
    /\ Dict.get "git_commit_hash" d = Some (VStr (repo_head_commit repo))
    /\ Dict.get "git_active_branch" d
       = Some (VStr (default "detached" (repo_active_branch repo)))
    /\ Dict.get "git_working_dir" d = Some (VStr (repo_working_dir repo)).
Proof.
  unfold get_git_info.
  destruct (match m with ByName name => import_module ps name | ByObject md' => Ok md' end)
    as [md|e]; [|discriminate].
  destruct (mod_file md) as [file|] eqn:Hf; [|discriminate].
  destruct (git_Repo ps file) as [repo|] eqn:Hr; [|discriminate].
  destruct (negb allow && repo_is_dirty repo) eqn:E; [discriminate|].
  intros [= <-]. exists md, file, repo. eexists.
  repeat (split; [reflexivity || assumption|]).
  split; [destruct allow; [auto|]; right; exact E|].
  repeat (split; [reflexivity|]). reflexivity.
Qed.

Lemma strict_git_info_clean (ps : process) (m : module_ref) (info : value) :
  get_git_info ps m false = Ok info -> clean_git_record info.
Proof.
  intros H. apply git_info_inv in H
    as (md & file & repo & d & _ & _ & _ & [Hallow|Hclean] & -> & _ & _ & Hdirty & _);
    [discriminate|].
  exists d. split; [reflexivity|]. now rewrite Hdirty, Hclean.
Qed.




(** ** The fields of a record *)

Lemma pre_call_record (cl : closure) (c : call) (st st1 : state) (p : plan) :
  pre_call cl c st = (Ok p, st1) ->
  exists bound seed sa sb,
    bind_arguments cl c = Ok bound
    /\ resolve_seed cl c bound sa = (Ok seed, sb)
    /\ pl_record p = record_of cl c bound seed (pl_arguments p).
Proof.
  intros H. unfold pre_call in H. cbv zeta in H.
  inv_bind H as a s0 Hbind. apply lift_ok_inv in Hbind as [Hbind ->].
  inv_bind H as d sa Hdir. inv_bind H as seed sb Hseed.
  inv_bind H as u sc Hprep. destruct u.
  inv_bind H as q s1 Hname. apply lift_ok_inv in Hname as [Hname ->].
  inv_bind H as prev s2 Hchain. apply ret_inv in H as [<- <-].
  exists a, seed, sa, sb. split; [assumption|]. split; [assumption|]. reflexivity.
Qed.

Lemma dict_mem_keys (k : string) (d : dict) :
  Dict.mem k d = existsb (fun k' => String.eqb k' k) (map fst d).
Proof.
  unfold Dict.mem. induction d as [|[k' v] d IH]; cbn; [reflexivity|].
  destruct (String.eqb k' k); [reflexivity | exact IH].
Qed.

Lemma keys_set (k : string) (v : value) (d : dict) :
  map fst (Dict.set k v d)
  = if existsb (fun k' => String.eqb k' k) (map fst d) then map fst d
    else (map fst d ++ [k])%list.
Proof.
  induction d as [|[k' v'] d IH]; cbn; [reflexivity|].
  destruct (String.eqb k' k); cbn; [reflexivity|].
  rewrite IH. now destruct (existsb _ _).
Qed.

Lemma keys_set_in (k k2 : string) (v : value) (d : dict) :
  map fst (Dict.set_in k k2 v d) = map fst d.
Proof.
  unfold Dict.set_in. destruct (Dict.get k d) as [[]|] eqn:E; try reflexivity.
  rewrite keys_set, <- dict_mem_keys. unfold Dict.mem. now rewrite E.
Qed.

Lemma keys_opt_set (k : string) (o : option value) (d : dict) :
  map fst (opt_set k o d)
  = match o with
    | Some _ => if existsb (fun k' => String.eqb k' k) (map fst d) then map fst d
                else (map fst d ++ [k])%list
    | None => map fst d
    end.
Proof. destruct o; [apply keys_set | reflexivity]. Qed.

Lemma keys_finish_record (c : call) (record : dict) :
  map fst (finish_record c record) = map fst record.
Proof. unfold finish_record. now rewrite !keys_set_in. Qed.

(** X7: the record of a call of a decorated function has the keys [uuid],
    [timing], [environment], [called_function] and [seed], and the keys
    [package_inventory], [tracked_module] and [extra_tracked_modules]
    exactly when the package inventory is asked for, git tracking is not
    disabled and extra modules are given; they come in this order, in the
    first write and in the second. *)
Theorem X7_record_keys (cfg : config) (ps : process) (f : pyfunction) (cl : closure)
    (c : call) (st st1 : state) (p : plan) :
  decorate cfg ps f = Ok cl ->
  pre_call cl c st = (Ok p, st1) ->
  map fst (pl_record p)
  = (["uuid"; "timing"; "environment"]
     ++ (if include_package_inventory cfg then ["package_inventory"] else [])
     ++ ["called_function"]
     ++ (if disable_git_tracking cfg then [] else ["tracked_module"])
     ++ (if is_None (extra_modules cfg) then [] else ["extra_tracked_modules"])
     ++ ["seed"])%list
  /\ map fst (finish_record c (pl_record p)) = map fst (pl_record p).
Proof.
  intros Hdec Hpre. split; [|apply keys_finish_record].
  apply decorate_decorator in Hdec as [_ Hdec].
  destruct (decorator_inv _ _ _ _ Hdec)
    as (Hcfg & _ & _ & _ & _ & _ & Hgit & Hextra & _ & Hpkg & _).
  destruct (pre_call_record _ _ _ _ _ Hpre) as (bound & seed & sa & sb & _ & _ & ->).
  unfold record_of. cbv zeta. rewrite Hcfg, Hpkg.
  rewrite keys_set_in, keys_set.
  destruct (extra_modules cfg) as [ms|];
    [destruct Hextra as (d & _ & ->)|rewrite Hextra];
    (destruct (disable_git_tracking cfg);
     [rewrite Hgit|destruct Hgit as (md & info & _ & _ & ->)]);
    destruct (include_package_inventory cfg);
    cbn [is_None negb];
    rewrite ?keys_opt_set, ?keys_set, ?keys_set_in, ?keys_opt_set, ?keys_set, ?keys_set_in,
      ?keys_set;
    reflexivity.
Qed.

Lemma X7_record_keys_witness :
  exists cl p st1,
    decorate (Sample.options (Some (PStr "/data")) None None None false false None
                (Some "seed") false false)
      Sample.machine
      (Sample.def "f" [Sample.optional "seed" VNone] (Sample.observe "seed")) = Ok cl
    /\ pre_call cl (Sample.call_with [] []) Sample.disk = (Ok p, st1)
    /\ map fst (pl_record p)
       = ["uuid"; "timing"; "environment"; "package_inventory"; "called_function";
          "tracked_module"; "seed"].
Proof.
  eexists _, _, _.
  match goal with
  | |- ?H /\ _ => assert (Hdec : H) by (vm_compute; reflexivity)
  end.
  split; [exact Hdec|].
  match goal with
  | |- ?H /\ _ => assert (Hpre : H) by (vm_compute; reflexivity)
  end.
  split; [exact Hpre|].
  exact (proj1 (X7_record_keys _ _ _ _ _ _ _ _ Hdec Hpre)).
Defined.

(** ** Git records in the records of calls *)

Lemma extra_git_info_all (ps : process) (allow : bool) (P : value -> Prop) :
  (forall m info, get_git_info ps m allow = Ok info -> P info) ->
  forall ms acc d,
    extra_git_info ps allow ms acc = Ok d ->
    (forall k v, Dict.get k acc = Some v -> P v) ->
    forall k v, Dict.get k d = Some v -> P v.
Proof.
  intros HP. induction ms as [|m ms IH]; intros acc d; cbn.
  - intros [= <-]. auto.
  - destruct (get_git_info ps m allow) as [info|] eqn:E; [|discriminate].
    intros H Hacc. apply (IH _ _ H).
    intros k v. destruct (decide (module_key m = k)) as [<-|Hne].
    + rewrite dict_get_set_eq. intros [= <-]. eauto.
    + rewrite dict_get_set_ne by assumption. apply Hacc.
Qed.

Lemma extra_git_info_keys (ps : process) (allow : bool) :
  forall ms acc d,
    extra_git_info ps allow ms acc = Ok d ->
    forall m, m ∈ ms -> Dict.mem (module_key m) d = true.
Proof.
  assert (Hmono : forall ms acc d, extra_git_info ps allow ms acc = Ok d ->
            forall k, Dict.mem k acc = true -> Dict.mem k d = true).
  { induction ms as [|m ms IH]; intros acc d; cbn.
    - now intros [= <-].
    - destruct (get_git_info ps m allow) as [info|]; [|discriminate].
      intros H k Hk. apply (IH _ _ H). unfold Dict.mem in *.
      destruct (decide (module_key m = k)) as [<-|Hne].
      + now rewrite dict_get_set_eq.
      + now rewrite dict_get_set_ne. }
  induction ms as [|m ms IH]; intros acc d; cbn.
  - intros _ m H. now apply elem_of_nil in H.
  - destruct (get_git_info ps m allow) as [info|]; [|discriminate].
    intros H m' Hin. apply elem_of_cons in Hin as [->|Hin].
    + apply (Hmono _ _ _ H). unfold Dict.mem. now rewrite dict_get_set_eq.
    + now apply (IH _ _ H).
Qed.

Lemma record_of_tracked_module cl c bound seed altered :
  Dict.get "tracked_module" (record_of cl c bound seed altered)
  = if disable_git_tracking (cl_config cl) then None else cl_git_info cl.
Proof.
  unfold record_of. cbv zeta.
  rewrite dict_get_set_in_ne, dict_get_set_ne by discriminate.
  destruct (negb (is_None (extra_modules (cl_config cl))));
    rewrite ?dict_get_opt_set_ne by discriminate;
    (destruct (disable_git_tracking (cl_config cl)); cbn [negb];
     [|destruct (cl_git_info cl); cbn [opt_set]; [now rewrite dict_get_set_eq|]]);
    rewrite dict_get_set_ne by discriminate;
    (destruct (include_package_inventory (cl_config cl));
     rewrite ?dict_get_opt_set_ne by discriminate);
    rewrite dict_get_set_in_ne by discriminate;
    rewrite !dict_get_set_ne by discriminate; reflexivity.
Qed.

Lemma record_of_extra_tracked_modules cl c bound seed altered :
  Dict.get "extra_tracked_modules" (record_of cl c bound seed altered)
  = if is_None (extra_modules (cl_config cl)) then None else cl_extra_modules_git_info cl.
Proof.
  unfold record_of. cbv zeta.
  rewrite dict_get_set_in_ne, dict_get_set_ne by discriminate.
  destruct (is_None (extra_modules (cl_config cl))); cbn [negb];
    [|destruct (cl_extra_modules_git_info cl); cbn [opt_set];
      [now rewrite dict_get_set_eq|]];
    (destruct (negb (disable_git_tracking (cl_config cl)));
     rewrite ?dict_get_opt_set_ne by discriminate);
    rewrite dict_get_set_ne by discriminate;
    (destruct (include_package_inventory (cl_config cl));
     rewrite ?dict_get_opt_set_ne by discriminate);
    rewrite dict_get_set_in_ne by discriminate;
    rewrite !dict_get_set_ne by discriminate; reflexivity.
Qed.

(** X8: a function decorated with [allow_dirty_repo] false writes only git
    records of clean repositories: the [tracked_module] entry of every
    record, and each entry of [extra_tracked_modules], of which there is
    one for every extra module, says that [git_is_dirty] is false. *)
Theorem X8_records_of_strict_decoration_are_clean
    (cfg : config) (ps : process) (f : pyfunction) (cl : closure)
    (c : call) (st st1 : state) (p : plan) :
  decorate cfg ps f = Ok cl ->
  allow_dirty_repo cfg = false ->
  pre_call cl c st = (Ok p, st1) ->
  (disable_git_tracking cfg = false ->
   exists info, Dict.get "tracked_module" (pl_record p) = Some info
                /\ clean_git_record info)
  /\ (forall ms, extra_modules cfg = Some ms ->
      exists d, Dict.get "extra_tracked_modules" (pl_record p) = Some (VDict d)
                /\ forall m, m ∈ ms ->
                     exists info, Dict.get (module_key m) d = Some info
                                  /\ clean_git_record info).
Proof.
  intros Hdec Hstrict Hpre.
  apply decorate_decorator in Hdec as [_ Hdec].
  destruct (decorator_inv _ _ _ _ Hdec)
    as (Hcfg & _ & _ & _ & _ & _ & Hgit & Hextra & _).
  destruct (pre_call_record _ _ _ _ _ Hpre) as (bound & seed & sa & sb & _ & _ & ->).
  rewrite record_of_tracked_module, record_of_extra_tracked_modules, Hcfg.
  rewrite Hstrict in *. split.
  - intros Hon. rewrite Hon in *. destruct Hgit as (md & info & _ & Hinfo & ->).
    exists info. split; [reflexivity|]. now apply strict_git_info_clean in Hinfo.
  - intros ms Hms. rewrite Hms in *. destruct Hextra as (d & Hd & ->).
    exists d. split; [reflexivity|]. intros m Hm.
    pose proof (extra_git_info_keys _ _ _ _ _ Hd m Hm) as Hk. unfold Dict.mem in Hk.
    destruct (Dict.get (module_key m) d) as [info|] eqn:E; [|discriminate].
    exists info. split; [reflexivity|].
    refine (extra_git_info_all ps false clean_git_record
              (fun m info H => strict_git_info_clean _ _ _ H) _ _ _ Hd _ _ _ E).
    intros k v. discriminate.
Qed.

Lemma X8_records_of_strict_decoration_are_clean_witness :
  exists cl p st1 d info,
    decorate Strict.options Sample.machine
      (Sample.def "f" [Sample.required "x"] (Sample.observe "x")) = Ok cl
    /\ allow_dirty_repo Strict.options = false
    /\ pre_call cl (Sample.call_with [VInt 4] []) Sample.disk = (Ok p, st1)
    /\ Dict.get "extra_tracked_modules" (pl_record p) = Some (VDict d)
    /\ Dict.get "helpers" d = Some info
    /\ clean_git_record info.
Proof.
  eexists _, _, _.
  match goal with
  | |- exists d info, ?H /\ _ => assert (Hdec : H) by (vm_compute; reflexivity)
  end.
  match goal with
  | |- exists d info, _ /\ _ /\ ?H /\ _ => assert (Hpre : H) by (vm_compute; reflexivity)
  end.
  destruct (proj2 (X8_records_of_strict_decoration_are_clean _ _ _ _ _ _ _ _
                     Hdec eq_refl Hpre) _ eq_refl) as (d & Hd & Hall).
  destruct (Hall (ByObject Strict.helpers) (list_elem_of_here _ _)) as (info & Hinfo & Hclean).
  exists d, info. repeat (split; [assumption || reflexivity|]). exact Hclean.
Defined.

(** ** Values that can be written *)

Lemma serializable_VList (l : list value) :
  serializable (VList l) <-> Forall serializable l.
Proof.
  unfold serializable. cbn [Json.dumps].
  induction l as [|x l IH].
  - cbn. split; [constructor | discriminate].
  - cbn. rewrite Forall_cons. fold (serializable x). unfold serializable at 1.
    destruct (Json.dumps x) as [s|].
    + match type of IH with
      | (match ?t with _ => _ end <> None <-> _) => destruct t
      end.
      * split; [intros _; split; [discriminate | now apply IH] | discriminate].
      * split; [congruence | intros [_ H]; now apply IH in H].
    + split; [congruence | intros [H _]; congruence].
Qed.

Lemma serializable_VDict (d : dict) :
  serializable (VDict d) <-> Forall (fun kv => serializable kv.2) d.
Proof.
  unfold serializable. cbn [Json.dumps].
  induction d as [|[k x] d IH].
  - cbn. split; [constructor | discriminate].
  - cbn. rewrite Forall_cons. cbn [snd].
    destruct (Json.dumps x) as [s|].
    + match type of IH with
      | (match ?t with _ => _ end <> None <-> _) => destruct t
      end.
      * split; [intros _; split; [discriminate | now apply IH] | discriminate].
      * split; [congruence | intros [_ H]; now apply IH in H].
    + split; [congruence | intros [H _]; congruence].
Qed.

Lemma serializable_set (k : string) (v : value) (d : dict) :
  serializable v -> Forall (fun kv => serializable kv.2) d ->
  Forall (fun kv => serializable kv.2) (Dict.set k v d).
Proof.
  intros Hv. induction d as [|[k' v'] d IH]; cbn.
  - intros _. repeat constructor. exact Hv.
  - intros H. apply Forall_cons in H as [H1 H2].
    destruct (String.eqb k' k); constructor; auto.
Qed.

Lemma serializable_get (k : string) (v : value) (d : dict) :
  Forall (fun kv => serializable kv.2) d -> Dict.get k d = Some v -> serializable v.
Proof.
  induction d as [|[k' v'] d IH]; cbn; [discriminate|].
  intros H. apply Forall_cons in H as [H1 H2].
  destruct (String.eqb k' k); [now intros [= <-] | auto].
Qed.

Lemma serializable_set_in (k k2 : string) (v : value) (d : dict) :
  serializable v -> Forall (fun kv => serializable kv.2) d ->
  Forall (fun kv => serializable kv.2) (Dict.set_in k k2 v d).
Proof.
  intros Hv Hd. unfold Dict.set_in.
  destruct (Dict.get k d) as [[]|] eqn:E; try assumption.
  apply serializable_set; [|assumption].
  apply serializable_VDict. apply serializable_set; [assumption|].
  apply serializable_VDict. exact (serializable_get _ _ _ Hd E).
Qed.

Lemma serializable_opt_set (k : string) (o : option value) (d : dict) :
  (forall v, o = Some v -> serializable v) -> Forall (fun kv => serializable kv.2) d ->
  Forall (fun kv => serializable kv.2) (opt_set k o d).
Proof.
  destruct o as [v|]; cbn; [|auto]. intros H. apply serializable_set. now apply H.
Qed.

Lemma serializable_vstrs (l : list string) : serializable (vstrs l).
Proof.
  apply serializable_VList. apply Forall_fmap, Forall_forall. intros s _. discriminate.
Qed.

Lemma serializable_fold_set {A} (key : A -> string) (val : A -> value) (l : list A) :
  (forall a, serializable (val a)) ->
  forall d, Forall (fun kv => serializable kv.2) d ->
    Forall (fun kv => serializable kv.2) (fold_left (fun d a => Dict.set (key a) (val a) d) l d).
Proof.
  intros Hval. induction l as [|a l IH]; intros d Hd; cbn; [assumption|].
  apply IH. now apply serializable_set.
Qed.


Lemma format_json_serializable (obj : value) (char_limit : option nat) :
  serializable (_format_json obj char_limit).
Proof.
  unfold _format_json, serializable.
  destruct (Json.dumps obj) as [s|] eqn:E;
    destruct (match char_limit with Some limit => _ | None => false end);
    cbn; congruence.
Qed.

Lemma serializable_format_arguments (arguments : dict) :
  serializable (format_arguments arguments).
Proof.
  apply serializable_VDict. apply Forall_fmap, Forall_forall.
  intros [k v] _. apply format_json_serializable.
Qed.

Lemma serializable_environment_vars environ extra :
  serializable (get_environment_vars environ extra).
Proof.
  apply serializable_VDict.
  apply (serializable_fold_set id (environ_get environ)); [|constructor].
  intros var. induction environ as [|[k v] environ IH]; cbn; [discriminate|].
  destruct (String.eqb k var); [discriminate | exact IH].
Qed.

Lemma serializable_environment_info (ps : process) (info : value) :
  get_environment_info ps = Ok info -> serializable info.
Proof.
  unfold get_environment_info. cbv zeta.
  destruct (getuser ps) as [u|];
    (destruct (docker_build_hash_file ps) as [text|];
     [destruct (splitlines text) as [|h t]; [discriminate|]|]);
    intros [= <-]; apply serializable_VDict;
    repeat (apply serializable_set;
            [first [apply serializable_vstrs | discriminate]|]);
    destruct (sys_orig_argv ps);
    repeat first [ apply serializable_set; [apply serializable_vstrs|]
                 | constructor; [apply serializable_vstrs|]
                 | constructor ].
Qed.

Lemma serializable_git_info (ps : process) (m : module_ref) (allow : bool) (info : value) :
  get_git_info ps m allow = Ok info -> serializable info.
Proof.
  unfold get_git_info.
  destruct (match m with ByName name => import_module ps name | ByObject md' => Ok md' end)
    as [md|e]; [|discriminate].
  destruct (mod_file md) as [file|]; [|discriminate].
  destruct (git_Repo ps file) as [repo|]; [|discriminate].
  destruct (negb allow && repo_is_dirty repo); [discriminate|].
  intros [= <-]. apply serializable_VDict.
  repeat (constructor;
          [first [ discriminate
                 | apply serializable_VDict;
                   apply (serializable_fold_set fst (fun item => VStr item.2));
                   [discriminate | constructor] ]|]).
  constructor.
Qed.

Lemma serializable_installed_packages (ps : process) :
  serializable (get_installed_packages ps).
Proof.
  apply serializable_VDict.
  apply (serializable_fold_set fst (fun item => VStr item.2)); [discriminate | constructor].
Qed.

Lemma serializable_resolved_seed (cl : closure) (c : call) (bound : dict) (sa sb : state)
    (seed : value) :
  resolve_seed cl c bound sa = (Ok seed, sb) -> serializable seed.
Proof.
  unfold resolve_seed. intros H. inv_bind H as s0 s1 Hs.
  rewrite seed_tasks_state in H. injection H as <- _.
  assert (Hs0 : isinstance_int s0 = true \/ s0 = VNone).
  { destruct (seed_parameter (cl_config cl)) as [sp|].
    - inv_bind Hs as v s2 Hv.
      destruct (isinstance_int v) eqn:Ei; cbn in Hs.
      + apply ret_inv in Hs as [<- _]. auto.
      + destruct v; cbn in Hs; try discriminate. apply ret_inv in Hs as [<- _]. auto.
    - apply ret_inv in Hs as [<- _]. auto. }
  destruct Hs0 as [Hi| ->]; [|discriminate].
  destruct s0; try discriminate; destruct b; discriminate.
Qed.

Lemma serializable_extra_git_info (ps : process) (allow : bool) :
  forall ms acc d,
    extra_git_info ps allow ms acc = Ok d ->
    Forall (fun kv : string * value => serializable kv.2) acc ->
    Forall (fun kv : string * value => serializable kv.2) d.
Proof.
  induction ms as [|m ms IH]; intros acc d; cbn.
  - now intros [= <-].
  - destruct (get_git_info ps m allow) as [info|] eqn:E; [|discriminate].
    intros H Hacc. apply (IH _ _ H). apply serializable_set; [|assumption].
    exact (serializable_git_info _ _ _ _ E).
Qed.

Lemma serializable_record_of (cfg : config) (ps : process) (f : pyfunction) (cl : closure)
    (c : call) (bound altered : dict) (seed : value) :
  decorator cfg ps f = Ok cl ->
  serializable seed ->
  Forall (fun kv => serializable kv.2) (record_of cl c bound seed altered).
Proof.
  intros Hdec Hseed.
  destruct (decorator_inv _ _ _ _ Hdec)
    as (Hcfg & _ & _ & _ & _ & _ & Hgit & Hextra & Henv & Hpkg & _).
  subst cfg. unfold record_of. cbv zeta.
  apply serializable_set_in; [apply serializable_format_arguments|].
  apply serializable_set; [assumption|].
  assert (Hx : forall d0, Forall (fun kv : string * value => serializable kv.2) d0 ->
            Forall (fun kv : string * value => serializable kv.2)
              (if negb (is_None (extra_modules (cl_config cl)))
               then opt_set "extra_tracked_modules" (cl_extra_modules_git_info cl) d0
               else d0)).
  { intros d0 Hd0. destruct (extra_modules (cl_config cl)) as [ms|]; [|assumption].
    destruct Hextra as (d & Hd & ->). cbn.
    apply serializable_set; [|assumption]. apply serializable_VDict.
    apply (serializable_extra_git_info _ _ _ _ _ Hd). constructor. }
  assert (Hg : forall d0, Forall (fun kv : string * value => serializable kv.2) d0 ->
            Forall (fun kv : string * value => serializable kv.2)
              (if negb (disable_git_tracking (cl_config cl))
               then opt_set "tracked_module" (cl_git_info cl) d0
               else d0)).
  { intros d0 Hd0. destruct (disable_git_tracking (cl_config cl)); [assumption|].
    destruct Hgit as (md & info & _ & Hinfo & ->). cbn.
    apply serializable_set; [|assumption]. exact (serializable_git_info _ _ _ _ Hinfo). }
  apply Hx, Hg.
  apply serializable_set.
  { apply serializable_VDict.
    repeat (constructor; [first [discriminate | apply serializable_format_arguments
                                | cbn; destruct (cl_source_file cl); discriminate]|]).
    constructor. }
  assert (Hp : forall d0, Forall (fun kv : string * value => serializable kv.2) d0 ->
            Forall (fun kv : string * value => serializable kv.2)
              (if include_package_inventory (cl_config cl)
               then opt_set "package_inventory" (cl_package_inventory cl) d0
               else d0)).
  { intros d0 Hd0. rewrite Hpkg.
    destruct (include_package_inventory (cl_config cl)); [|assumption]. cbn.
    apply serializable_set; [apply serializable_installed_packages | assumption]. }
  apply Hp.
  apply serializable_set_in; [apply serializable_environment_vars|].
  apply serializable_set; [exact (serializable_environment_info _ _ Henv)|].
  repeat (constructor; [discriminate|]). constructor.
Qed.

Lemma serializable_finish_record (c : call) (record : dict) :
  Forall (fun kv => serializable kv.2) record ->
  Forall (fun kv => serializable kv.2) (finish_record c record).
Proof.
  intros H. unfold finish_record.
  apply serializable_set_in; [discriminate|].
  apply serializable_set_in; [discriminate | assumption].
Qed.

Lemma serializable_out_record (previous : option value) (record : dict) :
  (forall v, previous = Some v -> serializable v) ->
  Forall (fun kv => serializable kv.2) record ->
  serializable (out_record_of previous record).
Proof.
  intros Hprev Hrec. apply serializable_VDict in Hrec.
  destruct previous as [v|]; [|exact Hrec]. cbn.
  specialize (Hprev v eq_refl). unfold chained.
  destruct v; try (apply serializable_VList; repeat constructor; assumption).
  apply serializable_VList. apply Forall_app. split.
  - now apply serializable_VList.
  - repeat constructor. assumption.
Qed.

(** a document that can be serialized is written whole or not at all *)
Lemma write_record_raise (cwd : list string) (q : path) (doc : value) (st st' : state)
    (e : exn) :
  serializable doc ->
  write_record cwd q doc st = (Raise e, st') -> st' = st.
Proof.
  intros Hdoc. unfold write_record. rewrite bind_run. unfold lift.
  destruct (json_name q) as [q'|]; [|now intros [= _ <-]].
  unfold serializable in Hdoc. unfold json_dump.
  destruct (Json.dumps doc) eqn:E; [|congruence].
  destruct (FS.write _ _ _); [discriminate | now intros [= _ <-]].
Qed.



(** ** Binding the arguments *)

Lemma mem_set_mono (k k' : string) (v : value) (d : dict) :
  Dict.mem k d = true -> Dict.mem k (Dict.set k' v d) = true.
Proof.
  unfold Dict.mem. destruct (decide (k' = k)) as [->|Hne].
  - now rewrite dict_get_set_eq.
  - now rewrite dict_get_set_ne.
Qed.

Lemma mem_set_eq (k : string) (v : value) (d : dict) : Dict.mem k (Dict.set k v d) = true.
Proof. unfold Dict.mem. now rewrite dict_get_set_eq. Qed.

Lemma bind_positional_inv (args : list value) :
  forall params kwargs acc a rest,
    Signature.bind_positional params args kwargs acc = Ok (a, rest) ->
    (forall k, Dict.mem k acc = true -> Dict.mem k a = true)
    /\ (forall p, p ∈ params -> needs_value p ->
        p ∈ rest \/ Dict.mem (par_name p) a = true).
Proof.
  induction args as [|arg args IH]; intros [|param params'] kwargs acc a rest; cbn.
  - intros ?; simplify_eq. split; [auto|]. intros p Hp. now apply elem_of_nil in Hp.
  - destruct (par_kind param) eqn:Ek.
    + destruct (Dict.mem (par_name param) kwargs); [intros ?; simplify_eq; auto|].
      destruct (par_default param); intros ?; simplify_eq; auto.
    + intros ?; simplify_eq. split; [auto|].
      intros p Hp (_ & Hk & _). apply elem_of_cons in Hp as [->|Hp]; [congruence | auto].
    + destruct (Dict.mem (par_name param) kwargs); [intros ?; simplify_eq; auto|].
      destruct (par_default param); intros ?; simplify_eq; auto.
    + destruct (Dict.mem (par_name param) kwargs); intros ?; simplify_eq; auto.
  - discriminate.
  - destruct (par_kind param) eqn:Ek; try discriminate.
    + destruct (Dict.mem (par_name param) kwargs); [discriminate|].
      intros H. apply IH in H as [Hmono Hrest]. split.
      * intros k Hk. apply Hmono. now apply mem_set_mono.
      * intros p Hp Hneeds. apply elem_of_cons in Hp as [->|Hp]; [|auto].
        right. apply Hmono, mem_set_eq.
    + intros ?; simplify_eq. split.
      * intros k Hk. now apply mem_set_mono.
      * intros p Hp (_ & Hk & _). apply elem_of_cons in Hp as [->|Hp]; [congruence | auto].
Qed.

Lemma bind_keywords_inv (params : list parameter) :
  forall kwargs acc kp a kwargs' kp',
    Signature.bind_keywords params kwargs acc kp = Ok (a, kwargs', kp') ->
    (forall k, Dict.mem k acc = true -> Dict.mem k a = true)
    /\ (forall p, p ∈ params -> needs_value p -> Dict.mem (par_name p) a = true).
Proof.
  induction params as [|param params IH]; intros kwargs acc kp a kwargs' kp'; cbn.
  - intros ?; simplify_eq. split; [auto|]. intros p Hp. now apply elem_of_nil in Hp.
  - assert (Hskip : forall kw0 acc0 kp0,
              Signature.bind_keywords params kw0 acc0 kp0 = Ok (a, kwargs', kp') ->
              ~ needs_value param ->
              (forall k, Dict.mem k acc0 = true -> Dict.mem k a = true)
              /\ (forall p, p ∈ param :: params -> needs_value p ->
                  Dict.mem (par_name p) a = true)).
    { intros kw0 acc0 kp0 H Hno. apply IH in H as [Hmono Hall]. split; [auto|].
      intros p Hp Hneeds. apply elem_of_cons in Hp as [->|Hp]; [contradiction | auto]. }
    assert (Hnormal :
      match Dict.pop (par_name param) kwargs with
      | Some (arg_val, kwargs0) =>
          Signature.bind_keywords params kwargs0 (Dict.set (par_name param) arg_val acc) kp
      | None =>
          match par_default param with
          | Some _ => Signature.bind_keywords params kwargs acc kp
          | None => Raise (Signature.missing param)
          end
      end = Ok (a, kwargs', kp') ->
      (forall k, Dict.mem k acc = true -> Dict.mem k a = true)
      /\ (forall p, p ∈ param :: params -> needs_value p -> Dict.mem (par_name p) a = true)).
    { destruct (Dict.pop (par_name param) kwargs) as [[arg_val kwargs0]|].
      - intros H. apply IH in H as [Hmono Hall]. split.
        + intros k Hk. apply Hmono. now apply mem_set_mono.
        + intros p Hp Hneeds. apply elem_of_cons in Hp as [->|Hp]; [|auto].
          apply Hmono, mem_set_eq.
      - destruct (par_default param) eqn:Ed; [|discriminate].
        intros H. apply (Hskip _ _ _ H). intros (Hd & _). congruence. }
    destruct (par_kind param) eqn:Ek; try exact Hnormal.
    + intros H. apply (Hskip _ _ _ H). intros (_ & Hk & _). congruence.
    + intros H. apply (Hskip _ _ _ H). intros (_ & _ & Hk). congruence.
Qed.

Lemma signature_bind_inv (sig : list parameter) (args : list value) (kwargs a : dict) :
  Signature.bind sig args kwargs = Ok a ->
  forall p, p ∈ sig -> needs_value p -> Dict.mem (par_name p) a = true.
Proof.
  unfold Signature.bind.
  destruct (Signature.bind_positional sig args kwargs []) as [[a1 rest]|] eqn:E1;
    [|discriminate].
  destruct (Signature.bind_keywords rest kwargs a1 None) as [[[a2 kw'] kp]|] eqn:E2;
    [|discriminate].
  apply bind_positional_inv in E1 as [_ Hpos].
  apply bind_keywords_inv in E2 as [Hmono Hkw].
  assert (Ha2 : forall p, p ∈ sig -> needs_value p -> Dict.mem (par_name p) a2 = true).
  { intros p Hp Hneeds. destruct (Hpos p Hp Hneeds); auto. }
  destruct kw' as [|[k v] kw'].
  - intros [= <-]. exact Ha2.
  - destruct kp as [kwp|]; [|discriminate].
    intros [= <-] p Hp Hneeds. apply mem_set_mono. auto.
Qed.

Lemma signature_bind_raises (sig : list parameter) (args : list value) (kwargs : dict)
    (e : exn) :
  Signature.bind sig args kwargs = Raise e -> exists msg, e = TypeError msg.
Proof.
  assert (Hpos : forall args params kw acc e0,
            Signature.bind_positional params args kw acc = Raise e0 ->
            exists msg, e0 = TypeError msg).
  { clear. induction args as [|arg args IH]; intros [|param params'] kw acc e0; cbn.
    - discriminate.
    - destruct (par_kind param); try discriminate;
        (destruct (Dict.mem (par_name param) kw); try discriminate);
        (destruct (par_default param); try discriminate);
        intros [= <-]; unfold Signature.missing; eauto.
    - intros [= <-]; eauto.
    - destruct (par_kind param); try discriminate;
        try solve [intros [= <-]; eauto].
      destruct (Dict.mem (par_name param) kw); [intros [= <-]; eauto | apply IH]. }
  assert (Hkw : forall params kw acc kp e0,
            Signature.bind_keywords params kw acc kp = Raise e0 ->
            exists msg, e0 = TypeError msg).
  { clear. induction params as [|param params IH]; intros kw acc kp e0; cbn;
      [discriminate|].
    destruct (par_kind param); try apply IH;
      (destruct (Dict.pop (par_name param) kw) as [[arg_val kw0]|]; [apply IH|]);
      (destruct (par_default param); [apply IH|]);
      intros [= <-]; unfold Signature.missing; eauto. }
  unfold Signature.bind.
  destruct (Signature.bind_positional sig args kwargs []) as [[a1 rest]|] eqn:E1;
    [|intros [= <-]; eauto].
  destruct (Signature.bind_keywords rest kwargs a1 None) as [[[a2 kw'] kp]|] eqn:E2;
    [|intros [= <-]; eauto].
  destruct kw' as [|[k v] kw']; [discriminate|].
  destruct kp; [discriminate|]. intros [= <-]. eauto.
Qed.

Lemma apply_defaults_keys (sig : list parameter) (a : dict) :
  (forall p, p ∈ sig -> needs_value p -> Dict.mem (par_name p) a = true) ->
  map fst (Signature.apply_defaults sig a) = map par_name sig.
Proof.
  induction sig as [|param sig IH]; intros H; cbn; [reflexivity|].
  assert (IH' : map fst (Signature.apply_defaults sig a) = map par_name sig).
  { apply IH. intros p Hp. apply H. now apply list_elem_of_further. }
  destruct (Dict.get (par_name param) a) as [v|] eqn:Eg; cbn; [now rewrite IH'|].
  destruct (par_default param) as [v|] eqn:Ed; cbn; [now rewrite IH'|].
  destruct (par_kind param) eqn:Ek; cbn; try (now rewrite IH').
  - exfalso. specialize (H param (list_elem_of_here _ _)).
    unfold needs_value, Dict.mem in H. rewrite Eg, Ed, Ek in H.
    assert (false = true) by (apply H; repeat split; congruence). discriminate.
  - exfalso. specialize (H param (list_elem_of_here _ _)).
    unfold needs_value, Dict.mem in H. rewrite Eg, Ed, Ek in H.
    assert (false = true) by (apply H; repeat split; congruence). discriminate.
Qed.

Lemma bind_arguments_inv (cl : closure) (c : call) (bound : dict) :
  bind_arguments cl c = Ok bound ->
  exists kwargs a,
    Signature.bind (cl_signature cl) (c_args c) kwargs = Ok a
    /\ bound = Signature.apply_defaults (cl_signature cl) a
    /\ (kwargs = c_kwargs c
        \/ exists inj, directory_injection_parameter (cl_config cl) = Some inj
                       /\ kwargs = Dict.set inj VNone (c_kwargs c)).
Proof.
  unfold bind_arguments. cbv zeta.
  destruct (Signature.bind (cl_signature cl) (c_args c) (c_kwargs c)) as [a|e] eqn:E.
  - intros [= <-]. eauto 10.
  - destruct e; try discriminate.
    destruct (directory_injection_parameter (cl_config cl)) as [inj|]; [|discriminate].
    destruct (Signature.bind (cl_signature cl) (c_args c) (Dict.set inj VNone (c_kwargs c)))
      as [a|e'] eqn:E';
      [|discriminate].
    intros [= <-]. eauto 10.
Qed.

Lemma has_names (sig : list parameter) (n : string) :
  Signature.has sig n = existsb (fun k' => String.eqb k' n) (map par_name sig).
Proof.
  unfold Signature.has. induction sig as [|p sig IH]; cbn; [reflexivity|]. now rewrite IH.
Qed.

Lemma bound_arguments_keys (cl : closure) (c : call) (bound : dict) :
  bind_arguments cl c = Ok bound -> map fst bound = map par_name (cl_signature cl).
Proof.
  intros H. apply bind_arguments_inv in H as (kwargs & a & Hbind & -> & _).
  apply apply_defaults_keys. exact (signature_bind_inv _ _ _ _ Hbind).
Qed.

Lemma bound_argument_present (cl : closure) (c : call) (bound : dict) (n : string) :
  bind_arguments cl c = Ok bound ->
  Signature.has (cl_signature cl) n = true ->
  exists v, Dict.get n bound = Some v.
Proof.
  intros H Hn. apply bound_arguments_keys in H.
  rewrite has_names, <- H, <- dict_mem_keys in Hn. unfold Dict.mem in Hn.
  destruct (Dict.get n bound); [eauto | discriminate].
Qed.

Lemma keys_set_present (k : string) (v : value) (d : dict) :
  existsb (fun k' => String.eqb k' k) (map fst d) = true ->
  map fst (Dict.set k v d) = map fst d.
Proof. intros H. now rewrite keys_set, H. Qed.

Lemma keys_injections (cfg : config) (d : path) (seed : value) (bound : dict)
    (names : list string) :
  map fst bound = names ->
  (forall n, configured cfg n -> existsb (fun k' => String.eqb k' n) names = true) ->
  map fst (inject_directory cfg d (inject_seed cfg seed bound)) = names.
Proof.
  intros Hkeys Hconf.
  assert (Hseed : map fst (inject_seed cfg seed bound) = names).
  { unfold inject_seed. destruct (seed_parameter cfg) as [sp|] eqn:E; [|assumption].
    rewrite keys_set_present; [assumption|]. rewrite Hkeys. apply Hconf.
    unfold configured. auto. }
  unfold inject_directory.
  destruct (directory_injection_parameter cfg) as [inj|] eqn:Ei.
  { rewrite keys_set_present; [assumption|]. rewrite Hseed. apply Hconf.
    unfold configured. auto. }
  destruct (include_uuid cfg || include_timestamp cfg); [|assumption].
  destruct (subdirectory_name_parameter cfg) as [sub|] eqn:Es.
  { rewrite keys_set_present; [assumption|]. rewrite Hseed. apply Hconf.
    unfold configured. auto. }
  destruct (directory_parameter cfg) as [dp|] eqn:Ed; [|assumption].
  rewrite keys_set_present; [assumption|]. rewrite Hseed. apply Hconf.
  unfold configured. auto.
Qed.

Lemma keys_format_arguments (arguments : dict) :
  exists d, format_arguments arguments = VDict d /\ map fst d = map fst arguments.
Proof.
  unfold format_arguments. eexists. split; [reflexivity|].
  rewrite map_map. reflexivity.
Qed.

(** X12: when the arguments of a call can be bound, the bound arguments
    hold one entry for each parameter of the function, in the order of the
    signature, the parameters that were not passed included; each parameter
    named to [tracked] has an entry, so the wrapper's own look-ups of them
    cannot fail.  The injections of the seed and of the directory replace
    values and add no entry: the function is called with one argument for
    each of its parameters, and the record lists the same parameters under
    [parameters] and under [altered_parameters]. *)
Theorem X12_arguments_cover_the_signature (cfg : config) (ps : process)
    (f : pyfunction) (cl : closure) (c : call) (st st1 : state) (p : plan) :
  decorate cfg ps f = Ok cl ->
  pre_call cl c st = (Ok p, st1) ->
  let names := map par_name (fn_signature f) in
  exists bound parameters altered,
    bind_arguments cl c = Ok bound
    /\ map fst bound = names
    /\ (forall n, configured cfg n -> exists v, Dict.get n bound = Some v)
    /\ map fst (pl_arguments p) = names
    /\ called_function_field "parameters" (pl_record p) = Some (VDict parameters)
    /\ map fst parameters = names
    /\ called_function_field "altered_parameters" (pl_record p) = Some (VDict altered)
    /\ map fst altered = names.
Proof.
  intros Hdec Hpre. cbv zeta.
  apply decorate_decorator in Hdec as [_ Hdec].
  destruct (decorator_inv _ _ _ _ Hdec) as (Hcfg & _ & _ & Hsig & _ & Hconf & _).
  destruct (pre_call_inv _ _ _ _ _ Hpre)
    as (bound & seed & sa & sb & sc & Hbind & _ & _ & _ & _ & _ & Hargs & _ & _ & _
        & Hparams & Haltered).
  pose proof (bound_arguments_keys _ _ _ Hbind) as Hkeys. rewrite Hsig in Hkeys.
  assert (Hconf' : forall n, configured cfg n ->
            existsb (fun k' => String.eqb k' n) (map par_name (fn_signature f)) = true).
  { intros n Hn. rewrite <- has_names. now apply Hconf. }
  assert (Hkeys' : map fst (pl_arguments p) = map par_name (fn_signature f)).
  { rewrite Hargs, Hcfg. now apply keys_injections. }
  destruct (keys_format_arguments bound) as (parameters & Ep & Hp).
  destruct (keys_format_arguments (pl_arguments p)) as (altered & Ea & Ha).
  exists bound, parameters, altered.
  split; [assumption|]. split; [assumption|].
  split.
  { intros n Hn. apply (bound_argument_present cl c); [assumption|].
    rewrite Hsig. now apply Hconf. }
  split; [assumption|].
  split; [now rewrite Hparams, Ep|]. split; [congruence|].
  split; [now rewrite Haltered, Ea|]. congruence.
Qed.

Lemma X12_arguments_cover_the_signature_witness :
  exists cl p st1,
    decorate (Sample.options None (Some "out") None None false true None (Some "seed")
                false false)
      Sample.machine
      (Sample.def "f" [Sample.required "out"; Sample.optional "lr" (VInt 3);
                       Sample.optional "seed" VNone] (Sample.observe "out")) = Ok cl
    /\ pre_call cl (Sample.call_with [VStr "/data/run"] []) Sample.disk = (Ok p, st1)
    /\ map fst (pl_arguments p) = ["out"; "lr"; "seed"].
Proof.
  eexists _, _, _.
  match goal with
  | |- ?H /\ _ => assert (Hdec : H) by (vm_compute; reflexivity)
  end.
  split; [exact Hdec|].
  match goal with
  | |- ?H /\ _ => assert (Hpre : H) by (vm_compute; reflexivity)
  end.
  split; [exact Hpre|].
  destruct (X12_arguments_cover_the_signature _ _ _ _ _ _ _ _ Hdec Hpre)
    as (bound & parameters & altered & _ & _ & _ & Hargs & _).
  exact Hargs.
Defined.

(** ** The exceptions of a call *)

Lemma raises_only_ret {A} P (a : A) : raises_only P (ret a).
Proof. intros st e st'. discriminate. Qed.

Lemma raises_only_mret {A} P (a : A) : raises_only P (mret a : M A).
Proof. apply raises_only_ret. Qed.

Lemma raises_only_raise {A} (P : exn -> Prop) (e : exn) : P e -> raises_only P (raise e : M A).
Proof. intros H st e' st'. unfold raise. now intros [= <- _]. Qed.

Lemma raises_only_lift {A} (P : exn -> Prop) (r : result A) :
  (forall e, r = Raise e -> P e) -> raises_only P (lift r).
Proof. intros H st e st'. unfold lift. intros [= -> _]. now apply H. Qed.

Lemma raises_only_bind {A B} P (m : M A) (k : A -> M B) :
  raises_only P m -> (forall a, raises_only P (k a)) -> raises_only P (m ≫= k).
Proof.
  intros Hm Hk st e st'. rewrite bind_run.
  destruct (m st) as [[a|e0] s1] eqn:E.
  - apply Hk.
  - intros [= <- _]. exact (Hm _ _ _ E).
Qed.

Lemma find_raises (k : list string) :
  forall n e, FS.find n k = Raise e -> call_error e = true.
Proof.
  induction k as [|s k IH]; intros n e; cbn; [discriminate|].
  destruct n as [|m]; [now intros [= <-]|].
  destruct (m !! s); [apply IH | now intros [= <-]].
Qed.

Lemma mkdir_raises (parents : bool) (k : list string) :
  forall n e, FS.mkdir parents n k = Raise e -> call_error e = true.
Proof.
  induction k as [|s k IH]; intros n e; cbn.
  - destruct n; [now intros [= <-] | discriminate].
  - destruct n as [|m]; [now intros [= <-]|].
    assert (Hd : forall c, match FS.mkdir parents c k with
                           | Ok c' => Ok (Dir (<[s:=c']> m))
                           | Raise e0 => Raise e0
                           end = Raise e -> call_error e = true).
    { intros c. destruct (FS.mkdir parents c k) eqn:E; [discriminate|].
      intros [= <-]. exact (IH _ _ E). }
    destruct (m !! s); [apply Hd|].
    destruct k; [apply Hd|]. destruct parents; [apply Hd | now intros [= <-]].
Qed.

Lemma write_raises (k : list string) (doc : option value) :
  forall n e, FS.write n k doc = Raise e -> call_error e = true.
Proof.
  induction k as [|s k IH]; intros n e; cbn.
  - destruct n; [discriminate | now intros [= <-]].
  - destruct n as [|m]; [now intros [= <-]|].
    destruct (m !! s) as [c|].
    + destruct (FS.write c k doc) eqn:E; [discriminate|].
      intros [= <-]. exact (IH _ _ E).
    + destruct k; [discriminate | now intros [= <-]].
Qed.

Lemma raises_only_path_mkdir cwd p parents :
  raises_only (fun e => call_error e = true) (path_mkdir cwd p parents).
Proof.
  intros st e st'. unfold path_mkdir.
  destruct (FS.mkdir parents (st_fs st) (Path.key cwd p)) eqn:E; [discriminate|].
  intros [= <- _]. exact (mkdir_raises _ _ _ _ E).
Qed.

Lemma raises_only_path_exists cwd p :
  raises_only (fun e => call_error e = true) (path_exists cwd p).
Proof. intros st e st'. discriminate. Qed.

Lemma raises_only_json_load cwd p :
  raises_only (fun e => call_error e = true) (json_load cwd p).
Proof.
  intros st e st'. unfold json_load, FS.load.
  destruct (FS.find (st_fs st) (Path.key cwd p)) as [[[v|]|m]|e0] eqn:E;
    try discriminate; intros [= <- _]; try reflexivity.
  exact (find_raises _ _ _ E).
Qed.

Lemma raises_only_dir_has_entry cwd p :
  raises_only (fun e => call_error e = true) (dir_has_entry cwd p).
Proof.
  intros st e st'. unfold dir_has_entry, FS.has_entry.
  destruct (FS.find (st_fs st) (Path.key cwd p)) as [[doc|m]|e0] eqn:E;
    try discriminate; intros [= <- _]; try reflexivity.
  exact (find_raises _ _ _ E).
Qed.

Lemma raises_only_json_dump cwd obj p :
  raises_only (fun e => call_error e = true) (json_dump cwd obj p).
Proof.
  intros st e st'. unfold json_dump.
  destruct (FS.write _ _ _) eqn:E.
  - destruct (Json.dumps obj); [discriminate | now intros [= <- _]].
  - intros [= <- _]. exact (write_raises _ _ _ _ E).
Qed.

Lemma raises_only_seed_tasks ps entropy seed :
  raises_only (fun e => call_error e = true) (seed_tasks ps entropy seed).
Proof. intros st e st'. now rewrite seed_tasks_state. Qed.

Lemma with_name_raises (p : path) (n : string) (e : exn) :
  Path.with_name p n = Raise e -> call_error e = true.
Proof.
  unfold Path.with_name. destruct (String.eqb (Path.name p) ""); [now intros [= <-]|].
  destruct (Path.valid_name n); [discriminate | now intros [= <-]].
Qed.

Lemma json_name_raises (p : path) (e : exn) :
  json_name p = Raise e -> call_error e = true.
Proof.
  unfold json_name. destruct (negb _); [apply with_name_raises | discriminate].
Qed.

Lemma Path_of_value_raises (v : value) (e : exn) :
  Path_of_value v = Raise e -> call_error e = true.
Proof. destruct v; cbn; try discriminate; now intros [= <-]. Qed.

Lemma path_div_raises (p : path) (v : value) (e : exn) :
  path_div p v = Raise e -> call_error e = true.
Proof. destruct v; cbn; try discriminate; now intros [= <-]. Qed.

Lemma bind_arguments_raises (cl : closure) (c : call) (e : exn) :
  bind_arguments cl c = Raise e -> call_error e = true.
Proof.
  unfold bind_arguments. cbv zeta.
  destruct (Signature.bind (cl_signature cl) (c_args c) (c_kwargs c)) as [a|e0] eqn:E;
    [discriminate|].
  apply signature_bind_raises in E as (msg & ->).
  destruct (directory_injection_parameter (cl_config cl)) as [inj|];
    [|now intros [= <-]].
  destruct (Signature.bind (cl_signature cl) (c_args c) (Dict.set inj VNone (c_kwargs c)))
    as [a|e'] eqn:E'; [discriminate|].
  apply signature_bind_raises in E' as (msg' & ->). now intros [= <-].
Qed.

Lemma raises_only_write_record cwd q doc :
  raises_only (fun e => call_error e = true) (write_record cwd q doc).
Proof.
  unfold write_record. apply raises_only_bind.
  - apply raises_only_lift, json_name_raises.
  - intros q'. apply raises_only_json_dump.
Qed.

Lemma argument_present (arguments : dict) (n : string) (v : value) :
  Dict.get n arguments = Some v -> argument arguments n = ret v.
Proof. intros H. unfold argument. now rewrite H. Qed.

Create HintDb raises.
#[local] Hint Resolve raises_only_ret raises_only_mret raises_only_path_mkdir
  raises_only_path_exists raises_only_json_load raises_only_dir_has_entry
  raises_only_json_dump raises_only_seed_tasks raises_only_write_record : raises.

Ltac raises_only_tac :=
  repeat first
    [ progress auto with raises
    | apply raises_only_bind; [|intros ?]
    | apply raises_only_raise; reflexivity
    | apply raises_only_lift;
      first [ apply with_name_raises | apply json_name_raises | apply Path_of_value_raises
            | apply path_div_raises | apply bind_arguments_raises ]
    | match goal with
      | |- raises_only _ (if ?b then _ else _) => destruct b
      | |- raises_only _ (when_ ?b _) => destruct b; cbn [when_]
      end ].

Lemma raises_only_resolve_directory (cl : closure) (c : call) (bound : dict) :
  is_None (literal_directory (cl_config cl)) <> is_None (directory_parameter (cl_config cl)) ->
  (forall n, configured (cl_config cl) n -> exists v, Dict.get n bound = Some v) ->
  raises_only (fun e => call_error e = true) (resolve_directory cl c bound).
Proof.
  intros Hone Hbound. unfold resolve_directory. cbv zeta.
  apply raises_only_bind; [|intros d; apply raises_only_bind; [|intros d']].
  - destruct (literal_directory (cl_config cl)) as [l|]; [raises_only_tac|].
    destruct (directory_parameter (cl_config cl)) as [dp|] eqn:Edp;
      [|now contradiction Hone].
    destruct (Hbound dp) as (v & Hv); [unfold configured; auto|].
    rewrite (argument_present _ _ _ Hv). raises_only_tac.
  - destruct (subdirectory_name_parameter (cl_config cl)) as [sub|] eqn:Es;
      [|raises_only_tac].
    destruct (Hbound sub) as (v & Hv); [unfold configured; auto|].
    rewrite (argument_present _ _ _ Hv). raises_only_tac.
  - raises_only_tac.
Qed.

Lemma raises_only_resolve_seed (cl : closure) (c : call) (bound : dict) :
  (forall n, configured (cl_config cl) n -> exists v, Dict.get n bound = Some v) ->
  raises_only (fun e => call_error e = true) (resolve_seed cl c bound).
Proof.
  intros Hbound. unfold resolve_seed.
  apply raises_only_bind; [|intros s; raises_only_tac].
  destruct (seed_parameter (cl_config cl)) as [sp|] eqn:Es; [|raises_only_tac].
  destruct (Hbound sp) as (v & Hv); [unfold configured; auto 10|].
  rewrite (argument_present _ _ _ Hv). raises_only_tac.
Qed.

Lemma raises_only_prepare_directory cfg cwd d :
  raises_only (fun e => call_error e = true) (prepare_directory cfg cwd d).
Proof. unfold prepare_directory. raises_only_tac. Qed.

Lemma raises_only_chain cfg cwd q :
  raises_only (fun e => call_error e = true) (chain cfg cwd q).
Proof. unfold chain. raises_only_tac. Qed.

Lemma pre_call_raises (cfg : config) (ps : process) (f : pyfunction) (cl : closure)
    (c : call) :
  decorate cfg ps f = Ok cl ->
  raises_only (fun e => call_error e = true) (pre_call cl c).
Proof.
  intros Hdec.
  destruct (decorate_inv _ _ _ _ Hdec) as (Hcfg & _ & _ & Hsig & Hone).
  apply decorate_decorator in Hdec as [_ Hdec].
  destruct (decorator_inv _ _ _ _ Hdec) as (_ & _ & _ & _ & _ & Hconf & _).
  intros st e st'. unfold pre_call. cbv zeta. rewrite bind_run. unfold lift at 1.
  destruct (bind_arguments cl c) as [bound|e0] eqn:Hbind;
    [|intros [= <- _]; exact (bind_arguments_raises _ _ _ Hbind)].
  assert (Hbound : forall n, configured (cl_config cl) n ->
            exists v, Dict.get n bound = Some v).
  { intros n Hn. apply (bound_argument_present cl c); [assumption|].
    rewrite Hsig. apply Hconf. now rewrite <- Hcfg. }
  revert st e st'.
  change (raises_only (fun e => call_error e = true)
    (resolve_directory cl c bound ≫= fun record_dir =>
     resolve_seed cl c bound ≫= fun seed =>
     prepare_directory (cl_config cl) (os_getcwd (cl_process cl)) record_dir ≫= fun _ =>
     lift (json_name (Path.joinpath record_dir (Path.of_string (cl_record_name_local cl))))
       ≫= fun full_record_path =>
     chain (cl_config cl) (os_getcwd (cl_process cl)) full_record_path ≫= fun previous =>
     ret (Plan
            (record_of cl c bound seed
               (inject_directory (cl_config cl) record_dir
                  (inject_seed (cl_config cl) seed bound)))
            (inject_directory (cl_config cl) record_dir
               (inject_seed (cl_config cl) seed bound))
            record_dir full_record_path previous))).
  apply raises_only_bind; [apply raises_only_resolve_directory; [now rewrite Hcfg | assumption]|].
  intros d. apply raises_only_bind; [now apply raises_only_resolve_seed|].
  intros seed. apply raises_only_bind; [apply raises_only_prepare_directory|].
  intros _. apply raises_only_bind; [apply raises_only_lift, json_name_raises|].
  intros q. apply raises_only_bind; [apply raises_only_chain|].
  intros prev. apply raises_only_ret.
Qed.



(** ** What a write changes *)

Lemma file_at_below_file (doc : option value) (t : string) (k : list string) :
  FS.file_at (File doc) (t :: k) = None.
Proof. reflexivity. Qed.

Lemma write_file_at_other (k : list string) (doc : option value) :
  forall n n' k', FS.write n k doc = Ok n' -> k' <> k ->
    FS.file_at n' k' = FS.file_at n k'.
Proof.
  induction k as [|s k IH]; intros n n' k'; cbn.
  - destruct n as [d|]; [|discriminate]. intros [= <-] Hne.
    destruct k' as [|t k']; [congruence | reflexivity].
  - destruct n as [|m]; [discriminate|].
    destruct (m !! s) as [c|] eqn:Hc.
    + destruct (FS.write c k doc) as [c'|] eqn:Hw; [|discriminate].
      intros [= <-] Hne. destruct k' as [|t k']; [reflexivity|].
      unfold FS.file_at. cbn.
      destruct (decide (s = t)) as [->|Hst].
      * rewrite lookup_insert_eq, Hc. apply (IH c c' k' Hw). congruence.
      * now rewrite lookup_insert_ne.
    + destruct k as [|s2 k2]; [|discriminate].
      intros [= <-] Hne. destruct k' as [|t k']; [reflexivity|].
      unfold FS.file_at. cbn.
      destruct (decide (s = t)) as [->|Hst].
      * rewrite lookup_insert_eq, Hc. destruct k' as [|t2 k']; [congruence | reflexivity].
      * now rewrite lookup_insert_ne.
Qed.

Lemma write_same (k : list string) (doc : option value) :
  forall n, FS.find n k = Ok (File doc) -> FS.write n k doc = Ok n.
Proof.
  induction k as [|s k IH]; intros n; cbn.
  - now intros [= ->].
  - destruct n as [|m]; [discriminate|].
    destruct (m !! s) as [c|] eqn:Hc; [|discriminate].
    intros H. rewrite (IH _ H). now rewrite insert_id.
Qed.

Lemma json_dump_frame cwd (obj : value) (q : path) (st st' : state) r :
  json_dump cwd obj q st = (r, st') ->
  st_seeds st' = st_seeds st
  /\ forall k, k <> Path.key cwd q -> FS.file_at (st_fs st') k = FS.file_at (st_fs st) k.
Proof.
  unfold json_dump. destruct (FS.write _ _ _) as [root|] eqn:Hw.
  - intros [= _ <-]. split; [reflexivity|]. intros k Hk. cbn.
    exact (write_file_at_other _ _ _ _ _ Hw Hk).
  - intros [= _ <-]. auto.
Qed.

Lemma write_record_frame cwd (path q : path) (doc : value) (st st' : state) r :
  json_name path = Ok q ->
  write_record cwd path doc st = (r, st') ->
  st_seeds st' = st_seeds st
  /\ forall k, k <> Path.key cwd q -> FS.file_at (st_fs st') k = FS.file_at (st_fs st) k.
Proof.
  intros Hq. unfold write_record. rewrite bind_run, Hq. cbn. apply json_dump_frame.
Qed.

(** ** What [json.load] gives back *)

Lemma value_nested_ind (P : value -> Prop) :
  P VNone -> (forall b, P (VBool b)) -> (forall z, P (VInt z)) -> (forall s, P (VStr s)) ->
  (forall l, Forall P l -> P (VList l)) ->
  (forall l, Forall P l -> P (VTuple l)) ->
  (forall d, Forall (fun kv => P kv.2) d -> P (VDict d)) ->
  (forall p, P (VPath p)) -> (forall cls r, P (VObj cls r)) ->
  forall v, P v.
Proof.
  intros HNone HBool HInt HStr HList HTuple HDict HPath HObj.
  fix IH 1.
  intros [| | | |l|l|d| |];
    [exact HNone | apply HBool | apply HInt | apply HStr | | | | apply HPath | apply HObj].
  - apply HList. induction l as [|x l IHl]; constructor; [apply IH | exact IHl].
  - apply HTuple. induction l as [|x l IHl]; constructor; [apply IH | exact IHl].
  - apply HDict. induction d as [|[k x] d IHd]; constructor; [apply IH | exact IHd].
Qed.

Lemma dumps_items_ext (l l' : list value) :
  Forall2 (fun x y => Json.dumps x = Json.dumps y) l l' ->
  Json.dumps (VList l) = Json.dumps (VList l').
Proof.
  intros H. cbn [Json.dumps].
  match goal with
  | |- match ?a with _ => _ end = match ?b with _ => _ end => assert (E : a = b)
  end.
  { induction H as [|x y l l' Hxy _ IH]; [reflexivity|]. cbn. now rewrite Hxy, IH. }
  now rewrite E.
Qed.

Lemma dumps_tuple (l : list value) : Json.dumps (VTuple l) = Json.dumps (VList l).
Proof. reflexivity. Qed.

Lemma dumps_dict_ext (d d' : dict) :
  Forall2 (fun x y => x.1 = y.1 /\ Json.dumps x.2 = Json.dumps y.2) d d' ->
  Json.dumps (VDict d) = Json.dumps (VDict d').
Proof.
  intros H. cbn [Json.dumps].
  match goal with
  | |- match ?a with _ => _ end = match ?b with _ => _ end => assert (E : a = b)
  end.
  { induction H as [|[k x] [k' y] l l' [Hk Hxy] _ IH]; [reflexivity|].
    cbn in Hk, Hxy. subst k'. cbn. now rewrite Hxy, IH. }
  now rewrite E.
Qed.

(** the text written for what was read is the text that was written *)
Lemma dumps_project (v : value) : Json.dumps (Json.project v) = Json.dumps v.
Proof.
  induction v as [| | | |l IH|l IH|d IH| |] using value_nested_ind; try reflexivity.
  - cbn [Json.project]. apply dumps_items_ext.
    induction IH as [|x l Hx _ IHl]; constructor; assumption.
  - cbn [Json.project]. rewrite dumps_tuple. apply dumps_items_ext.
    induction IH as [|x l Hx _ IHl]; constructor; assumption.
  - cbn [Json.project]. apply dumps_dict_ext.
    induction IH as [|[k x] l Hx _ IHl]; constructor; [split; [reflexivity|exact Hx]|assumption].
Qed.

Lemma project_idempotent (v : value) : Json.project (Json.project v) = Json.project v.
Proof.
  induction v as [| | | |l IH|l IH|d IH| |] using value_nested_ind; try reflexivity.
  - cbn [Json.project]. f_equal. rewrite map_map.
    induction IH as [|x l Hx _ IHl]; [reflexivity|].
    cbn [map]. f_equal; [exact Hx | exact IHl].
  - cbn [Json.project]. f_equal. rewrite map_map.
    induction IH as [|x l Hx _ IHl]; [reflexivity|].
    cbn [map]. f_equal; [exact Hx | exact IHl].
  - cbn [Json.project]. f_equal. rewrite map_map.
    induction IH as [|[k x] l Hx _ IHl]; [reflexivity|].
    cbn [map]. f_equal; [|exact IHl]. cbn. cbn in Hx. now rewrite Hx.
Qed.



(** ** The two writes of a call *)





(** ** The files a call touches *)



(** X18: a call that fails before its first write, on arguments that do
    not bind, a directory that cannot be made or is not empty, a seed of the
    wrong type or a record file that cannot be read, ends with that
    exception and has changed no file: at most it has created directories
    and seeded the generators. *)
Theorem X18_rejected_call_changes_no_file (cl : closure) (c : call) (st st1 : state)
    (e : exn) :
  pre_call cl c st = (Raise e, st1) ->
  wrapper cl c st = (Raise e, st1)
  /\ forall k, FS.file_at (st_fs st1) k = FS.file_at (st_fs st) k.
Proof.
  intros Hpre. split; [exact (wrapper_pre_raise _ _ _ _ _ Hpre)|].
  exact (keeps_files_pre_call _ _ _ _ _ Hpre).
Qed.

Lemma X18_rejected_call_changes_no_file_witness :
  exists cl msg st1,
    decorate (Sample.options (Some (PStr "/data")) None None None false false None None
                true false)
      Sample.machine (Sample.def "f" [Sample.required "x"] Sample.wipe) = Ok cl
    /\ pre_call cl (Sample.call_with [VInt 4] []) Sample.disk_junk
       = (Raise (FileExistsError msg), st1)
    /\ wrapper cl (Sample.call_with [VInt 4] []) Sample.disk_junk
       = (Raise (FileExistsError msg), st1)
    /\ FS.file_at (st_fs st1) ["data"; "junk"] = Some None.
Proof.
  eexists _, _, _. split; [vm_compute; reflexivity|].
  match goal with
  | |- ?H /\ _ => assert (Hpre : H) by (vm_compute; reflexivity)
  end.
  split; [exact Hpre|].
  destruct (X18_rejected_call_changes_no_file _ _ _ _ _ Hpre) as [Hw Hfiles].
  split; [exact Hw|]. rewrite Hfiles. reflexivity.
Defined.

(** ** The output directory *)

Lemma mkdir_find (parents : bool) (k : list string) :
  forall n n', FS.mkdir parents n k = Ok n' -> exists m, FS.find n' k = Ok (Dir m).
Proof.
  induction k as [|s k IH]; intros n n'; cbn.
  - destruct n as [|m]; [discriminate|]. intros [= <-]. eauto.
  - destruct n as [|m]; [discriminate|].
    assert (Hd : forall c, match FS.mkdir parents c k with
                           | Ok c' => Ok (Dir (<[s:=c']> m))
                           | Raise e0 => Raise e0
                           end = Ok n' -> exists m', FS.find n' (s :: k) = Ok (Dir m')).
    { intros c. destruct (FS.mkdir parents c k) as [c'|] eqn:E; [|discriminate].
      intros [= <-]. cbn. rewrite lookup_insert_eq. exact (IH _ _ E). }
    destruct (m !! s); [apply Hd|].
    destruct k; [apply Hd|]. destruct parents; [apply Hd | discriminate].
Qed.

(** X19: when the wrapper comes to its first write, the output directory of
    the call exists and is a directory; with [require_empty_directory] it
    has no entry. *)
Theorem X19_output_directory_exists (cl : closure) (c : call) (st st1 : state) (p : plan) :
  pre_call cl c st = (Ok p, st1) ->
  exists entries,
    FS.find (st_fs st1) (Path.key (os_getcwd (cl_process cl)) (pl_record_dir p))
    = Ok (Dir entries)
    /\ (require_empty_directory (cl_config cl) = true -> entries = ∅).
Proof.
  intros Hpre.
  destruct (pre_call_inv _ _ _ _ _ Hpre)
    as (bound & seed & sa & sb & sc & _ & _ & _ & Hprep & _ & Hchain & _).
  apply chain_state in Hchain. subst st1.
  unfold prepare_directory in Hprep.
  inv_bind Hprep as u s1 Hm. unfold path_mkdir in Hm.
  destruct (FS.mkdir _ (st_fs sb) _) as [root|] eqn:E; [|discriminate].
  injection Hm as Hu Hs. subst s1. destruct (mkdir_find _ _ _ _ E) as (m & Hfind).
  destruct (require_empty_directory (cl_config cl)).
  - inv_bind Hprep as nonempty s2 Hn. unfold dir_has_entry in Hn.
    injection Hn as Hn Hs. subst s2. cbn in Hn. unfold FS.has_entry in Hn.
    rewrite Hfind in Hn.
    destruct nonempty; [discriminate|]. apply ret_inv in Hprep as [_ Hs]. subst sc.
    exists m. split; [exact Hfind|]. intros _.
    destruct (map_to_list m) eqn:El; [|discriminate].
    now apply map_to_list_empty_iff in El.
  - apply ret_inv in Hprep as [_ Hs]. subst sc.
    exists m. split; [exact Hfind | discriminate].
Qed.

Lemma X19_output_directory_exists_witness :
  exists cl p st1,
    decorate (Sample.options (Some (PStr "/data")) None (Some "name") None false false None
                None true false)
      Sample.machine (Sample.def "f" [Sample.required "name"] (Sample.observe "name")) = Ok cl
    /\ pre_call cl (Sample.call_with [VStr "run1"] []) Sample.disk = (Ok p, st1)
    /\ FS.find (st_fs st1) ["data"; "run1"] = Ok (Dir ∅).
Proof.
  eexists _, _, _. split; [vm_compute; reflexivity|].
  match goal with
  | |- ?H /\ _ => assert (Hpre : H) by (vm_compute; reflexivity)
  end.
  split; [exact Hpre|].
  destruct (X19_output_directory_exists _ _ _ _ _ Hpre) as (entries & Hfind & Hempty).
  rewrite (Hempty eq_refl) in Hfind. exact Hfind.
Defined.

(** ** The suffix of the output directory *)

Lemma length_append (a b : string) :
  String.length (a ++ b) = (String.length a + String.length b)%nat.
Proof.
  induction a as [|x a IH]; [reflexivity|]. rewrite append_cons. cbn. now rewrite IH.
Qed.

Lemma append_suffix_inj (a b x y : string) :
  a ++ x = b ++ y -> String.length x = String.length y -> x = y.
Proof.
  intros H Hlen.
  assert (Hab : String.length a = String.length b).
  { apply (f_equal String.length) in H. rewrite !length_append in H. lia. }
  revert b H Hab. induction a as [|c a IH]; intros [|c' b] H Hab; try discriminate.
  - exact H.
  - rewrite !append_cons in H. injection H as _ H. injection Hab as Hab. now apply (IH b).
Qed.

Lemma with_name_root (p q : path) (n : string) :
  Path.with_name p n = Ok q -> p_root q = p_root p.
Proof.
  unfold Path.with_name.
  destruct (String.eqb (Path.name p) ""); [discriminate|].
  destruct (Path.valid_name n); [|discriminate]. now intros [= <-].
Qed.

Lemma resolve_directory_suffix (cl : closure) (c : call) (bound : dict) (st sa : state)
    (d : path) :
  resolve_directory cl c bound st = (Ok d, sa) ->
  include_timestamp (cl_config cl) || include_uuid (cl_config cl) = true ->
  p_root d = true
  /\ exists base, Path.name d = base ++ "_" ++ suffix_of (cl_config cl) c.
Proof.
  unfold resolve_directory, suffix_of. cbv zeta. intros H Hsuffix.
  inv_bind H as d0 s0 H0. inv_bind H as d1 s1 H1.
  destruct (include_timestamp (cl_config cl)).
  - apply lift_ok_inv in H as [H _]. split.
    + now rewrite (with_name_root _ _ _ H).
    + exists (Path.name d1). exact (with_name_name _ _ _ H).
  - cbn in Hsuffix. rewrite Hsuffix in H. apply lift_ok_inv in H as [H _]. split.
    + now rewrite (with_name_root _ _ _ H).
    + exists (Path.name d1). exact (with_name_name _ _ _ H).
Qed.

(** X20: with [include_timestamp] or [include_uuid], the output directory of
    a call is an absolute path whose name ends with an underscore and the
    timestamp of the call, or its uuid, the one the record holds under
    [uuid].  Two calls whose suffixes differ (and are equally long, as uuids
    and timestamps are) get different directories. *)
Theorem X20_suffixed_directories_are_distinct (cl : closure) (c1 c2 : call)
    (s1 s2 t1 t2 : state) (p1 p2 : plan) :
  include_timestamp (cl_config cl) || include_uuid (cl_config cl) = true ->
  pre_call cl c1 s1 = (Ok p1, t1) ->
  pre_call cl c2 s2 = (Ok p2, t2) ->
  p_root (pl_record_dir p1) = true
  /\ (exists base, Path.name (pl_record_dir p1) = base ++ "_" ++ suffix_of (cl_config cl) c1)
  /\ Dict.get "uuid" (pl_record p1) = Some (VStr (c_uuid4 c1))
  /\ (String.length (suffix_of (cl_config cl) c1) = String.length (suffix_of (cl_config cl) c2) ->
      suffix_of (cl_config cl) c1 <> suffix_of (cl_config cl) c2 ->
      pl_record_dir p1 <> pl_record_dir p2).
Proof.
  intros Hsuffix Hpre1 Hpre2.
  destruct (pre_call_inv _ _ _ _ _ Hpre1)
    as (b1 & seed1 & sa1 & _ & _ & _ & Hdir1 & _ & _ & _ & _ & _ & _ & Huuid & _).
  destruct (pre_call_inv _ _ _ _ _ Hpre2)
    as (b2 & seed2 & sa2 & _ & _ & _ & Hdir2 & _).
  destruct (resolve_directory_suffix _ _ _ _ _ _ Hdir1 Hsuffix) as (Hroot1 & base1 & Hn1).
  destruct (resolve_directory_suffix _ _ _ _ _ _ Hdir2 Hsuffix) as (_ & base2 & Hn2).
  split; [exact Hroot1|]. split; [eauto|]. split; [exact Huuid|].
  intros Hlen Hne Heq. apply Hne.
  rewrite Heq, Hn2 in Hn1.
  assert (E : "_" ++ suffix_of (cl_config cl) c2 = "_" ++ suffix_of (cl_config cl) c1).
  { apply (append_suffix_inj base2 base1); [exact Hn1|].
    rewrite !length_append. cbn. lia. }
  rewrite !append_cons, !append_nil_l in E. now injection E as ->.
Qed.

Lemma X20_suffixed_directories_are_distinct_witness :
  exists cl p1 t1 p2 t2,
    decorate (Sample.options (Some (PStr "/data/run")) None None (Some "out") false true None
                None false false)
      Sample.machine (Sample.def "f" [Sample.optional "out" VNone] (Sample.observe "out"))
    = Ok cl
    /\ pre_call cl (Sample.call_with [] []) Sample.disk = (Ok p1, t1)
    /\ pre_call cl
         (Call [] [] "7c9e6679-7425-40de-944b-e07fc1f90ae7" "2024-05-01 10:00:00.000000"
            "2024_05_01_10_00_00" "2024-05-01 10:00:02.500000" "0:00:02.500000" [] 5)
         Sample.disk = (Ok p2, t2)
    /\ Path.to_string (pl_record_dir p1)
       = "/data/run_2dddbaa6-620f-4aaa-9883-eb3557dbbdb2"
    /\ pl_record_dir p1 <> pl_record_dir p2.
Proof.
  eexists _, _, _, _, _. split; [vm_compute; reflexivity|].
  match goal with
  | |- ?H /\ _ => assert (Hpre1 : H) by (vm_compute; reflexivity)
  end.
  split; [exact Hpre1|].
  match goal with
  | |- ?H /\ _ => assert (Hpre2 : H) by (vm_compute; reflexivity)
  end.
  split; [exact Hpre2|].
  split; [vm_compute; reflexivity|].
  lazymatch type of Hpre1 with
  | pre_call ?k _ _ = _ =>
      apply (proj2 (proj2 (proj2 (X20_suffixed_directories_are_distinct k _ _ _ _ _ _ _ _
                                    (eq_refl true) Hpre1 Hpre2))))
  end.
  - reflexivity.
  - discriminate.
Defined.

(** ** The default name of the record file *)

Lemma contains_append (c : ascii) (a b : string) :
  Str.contains c (a ++ b) = Str.contains c a || Str.contains c b.
Proof.
  induction a as [|x a IH]; [reflexivity|]. rewrite append_cons. cbn.
  destruct (Ascii.eqb x c); [reflexivity | exact IH].
Qed.

Lemma rev_involutive (s : string) : Str.rev (Str.rev s) = s.
Proof.
  induction s as [|c s IH]; [reflexivity|].
  change (String c s) with (String c "" ++ s) at 1.
  rewrite rev_append, rev_append, IH. reflexivity.
Qed.

Lemma split_acc_without (c : ascii) (s cur : string) :
  Str.contains c s = false -> Str.split_acc c s cur = [Str.rev (Str.rev_acc s cur)].
Proof.
  revert cur. induction s as [|a s IH]; intros cur; cbn; [reflexivity|].
  destruct (Ascii.eqb a c); [discriminate|]. apply IH.
Qed.

Lemma split_without (c : ascii) (s : string) :
  Str.contains c s = false -> Str.split c s = [s].
Proof.
  intros H. unfold Str.split. rewrite (split_acc_without _ _ _ H).
  fold (Str.rev s). now rewrite rev_involutive.
Qed.

Lemma rfind_from_without (c : ascii) (s : string) (i : nat) (last : option nat) :
  Str.contains c s = false -> Str.rfind_from c s i last = last.
Proof.
  revert i last. induction s as [|a s IH]; intros i last; cbn; [reflexivity|].
  destruct (Ascii.eqb a c); [discriminate|]. apply IH.
Qed.

Lemma stem_of_without_dot (n : string) : Str.contains "." n = false -> Path.stem_of n = n.
Proof.
  intros H. unfold Path.stem_of, Str.rfind. now rewrite (rfind_from_without _ _ _ _ H).
Qed.

Lemma startswith_without (c : ascii) (s : string) :
  Str.contains c s = false -> Str.startswith s (String c "") = false.
Proof.
  destruct s as [|a s]; cbn; [reflexivity|].
  destruct (Ascii.eqb_spec a c) as [->|Hne]; [discriminate|]. intros _.
  destruct (Ascii.eqb_spec c a); [congruence | reflexivity].
Qed.

Lemma of_string_single (s : string) :
  Str.contains "/" s = false -> s <> "" -> s <> "." ->
  Path.of_string s = Path_ false [s].
Proof.
  intros Hslash Hne Hdot. unfold Path.of_string.
  rewrite (startswith_without _ _ Hslash), (split_without _ _ Hslash).
  cbn [filter]. unfold filter, list_filter. cbn.
  assert (E : Path.is_segment s = true).
  { unfold Path.is_segment. apply String.eqb_neq in Hne, Hdot. now rewrite Hne, Hdot. }
  destruct (decide (Path.is_segment s = true)); [reflexivity | contradiction].
Qed.

Lemma name_snoc (root : bool) (parts : list string) (n : string) :
  Path.name (Path_ root (parts ++ [n])) = n.
Proof. unfold Path.name. cbn. apply List.last_last. Qed.

Lemma json_name_default (d : path) (n : string) :
  Str.contains "." n = false -> Str.contains "/" n = false ->
  json_name (Path.joinpath d (Path.of_string (n ++ "_record")))
  = Ok (Path_ (p_root d) (p_parts d ++ [n ++ "_record.json"])).
Proof.
  intros Hdot Hslash.
  assert (Hlen : (7 <= String.length (n ++ "_record"))%nat)
    by (rewrite length_append; cbn; lia).
  rewrite of_string_single.
  2:{ rewrite contains_append, Hslash. reflexivity. }
  2:{ intros E. rewrite E in Hlen. cbn in Hlen. lia. }
  2:{ intros E. rewrite E in Hlen. cbn in Hlen. lia. }
  unfold Path.joinpath. cbn [p_root p_parts].
  unfold json_name, Path.stem. rewrite name_snoc.
  assert (Hend : Str.endswith (n ++ "_record") ".json" = false).
  { unfold Str.endswith. rewrite rev_append.
    change (Str.rev "_record") with "drocer_". change (Str.rev ".json") with "nosj.".
    rewrite append_cons. reflexivity. }
  rewrite Hend. cbn [negb].
  rewrite stem_of_without_dot by (rewrite contains_append, Hdot; reflexivity).
  unfold Path.with_name. rewrite name_snoc.
  assert (E1 : String.eqb (n ++ "_record") "" = false).
  { apply String.eqb_neq. intros E. rewrite E in Hlen. cbn in Hlen. lia. }
  rewrite E1.
  assert (E2 : Path.valid_name ((n ++ "_record") ++ ".json") = true).
  { unfold Path.valid_name.
    rewrite !contains_append, Hslash. cbn [Str.contains Ascii.eqb Bool.eqb orb negb andb].
    assert (Hl : (12 <= String.length ((n ++ "_record") ++ ".json"))%nat)
      by (rewrite !length_append; cbn; lia).
    assert (N1 : String.eqb ((n ++ "_record") ++ ".json") "" = false).
    { apply String.eqb_neq. intros E. rewrite E in Hl. cbn in Hl. lia. }
    assert (N2 : String.eqb ((n ++ "_record") ++ ".json") "." = false).
    { apply String.eqb_neq. intros E. rewrite E in Hl. cbn in Hl. lia. }
    rewrite N1, N2. reflexivity. }
  rewrite E2. cbn [p_root p_parts]. rewrite removelast_last, append_assoc. reflexivity.
Qed.

(** X21: when no record file name is given to [tracked], or an empty one,
    the record file of a call is the file named after the function, its
    name followed by [_record.json], in the output directory of the call.
    (A name of a function holds no dot and no slash.) *)
Theorem X21_default_record_file (cfg : config) (ps : process) (f : pyfunction)
    (cl : closure) (c : call) (st st1 : state) (p : plan) :
  decorate cfg ps f = Ok cl ->
  record_filename cfg = None \/ record_filename cfg = Some "" ->
  Str.contains "." (fn_name f) = false ->
  Str.contains "/" (fn_name f) = false ->
  pre_call cl c st = (Ok p, st1) ->
  pl_full_record_path p
  = Path_ (p_root (pl_record_dir p)) (p_parts (pl_record_dir p) ++ [fn_name f ++ "_record.json"])
  /\ Path.name (pl_full_record_path p) = fn_name f ++ "_record.json".
Proof.
  intros Hdec Hname Hdot Hslash Hpre.
  apply decorate_decorator in Hdec as [_ Hdec].
  destruct (decorator_inv _ _ _ _ Hdec) as (_ & _ & _ & _ & _ & _ & _ & _ & _ & _ & Hlocal).
  assert (Hl : cl_record_name_local cl = fn_name f ++ "_record").
  { rewrite Hlocal. destruct Hname as [-> | ->]; reflexivity. }
  destruct (pre_call_inv _ _ _ _ _ Hpre)
    as (bound & seed & sa & sb & sc & _ & _ & _ & _ & Hjson & _).
  rewrite Hl, (json_name_default _ _ Hdot Hslash) in Hjson. injection Hjson as <-.
  split; [reflexivity | apply name_snoc].
Qed.

Lemma X21_default_record_file_witness :
  exists cl p st1,
    decorate (Sample.options (Some (PStr "/data")) None None None false false None None
                false false)
      Sample.machine (Sample.def "train" [Sample.required "x"] (Sample.observe "x")) = Ok cl
    /\ pre_call cl (Sample.call_with [VInt 4] []) Sample.disk = (Ok p, st1)
    /\ Path.to_string (pl_full_record_path p) = "/data/train_record.json".
Proof.
  eexists _, _, _.
  match goal with
  | |- ?H /\ _ => assert (Hdec : H) by (vm_compute; reflexivity)
  end.
  split; [exact Hdec|].
  match goal with
  | |- ?H /\ _ => assert (Hpre : H) by (vm_compute; reflexivity)
  end.
  split; [exact Hpre|].
  rewrite (proj1 (X21_default_record_file _ _ _ _ _ _ _ _ Hdec (or_introl eq_refl)
                    eq_refl eq_refl Hpre)).
  vm_compute. reflexivity.
Defined.

(** ** The environment entry of a record *)

Lemma environment_info_entries (ps : process) (v : value) :
  get_environment_info ps = Ok v ->
  exists info,
    v = VDict info
    /\ Dict.get "environment_variables" info = None
    /\ Dict.get "user" info = Some (VStr (default "" (getuser ps)))
    /\ Dict.get "orig_argv" info = (vstrs <$> sys_orig_argv ps)
    /\ Dict.get "argv" info = Some (vstrs (sys_argv ps))
    /\ Dict.get "cwd" info = Some (VStr ("/" ++ Str.join "/" (os_getcwd ps))).
Proof.
  unfold get_environment_info. cbv zeta.
  destruct (docker_build_hash_file ps) as [text|];
    [destruct (splitlines text) as [|h t]; [discriminate|]|];
    intros [= <-]; eexists; (split; [reflexivity|]);
    destruct (sys_orig_argv ps), (getuser ps); repeat split; reflexivity.
Qed.

Lemma record_of_environment cl c bound seed altered (info : dict) :
  cl_environment_info cl = VDict info ->
  Dict.get "environment" (record_of cl c bound seed altered)
  = Some (VDict (Dict.set "environment_variables"
                   (get_environment_vars (c_environ c)
                      (extra_environment_variables (cl_config cl))) info)).
Proof.
  intros Henv. unfold record_of. cbv zeta.
  rewrite dict_get_set_in_ne, dict_get_set_ne by discriminate.
  destruct (negb (is_None (extra_modules (cl_config cl))));
    rewrite ?dict_get_opt_set_ne by discriminate;
    (destruct (negb (disable_git_tracking (cl_config cl)));
     rewrite ?dict_get_opt_set_ne by discriminate);
    rewrite dict_get_set_ne by discriminate;
    (destruct (include_package_inventory (cl_config cl));
     rewrite ?dict_get_opt_set_ne by discriminate);
    apply dict_get_set_in_eq; rewrite Henv; apply dict_get_set_eq.
Qed.



(** ** Chaining onto a file that cannot be read *)

(** X9: with [chain_records], a call whose record file exists and does not
    hold JSON fails with [JSONDecodeError] when the wrapper reads it, before
    anything is written: the file, like every other file, is left as it
    was. *)
Theorem X9_chaining_stops_on_a_file_that_is_not_json
    (cl : closure) (c : call) (st sa sb sc : state) (bound : dict) (d q : path)
    (seed : value) :
  let cfg := cl_config cl in
  let cwd := os_getcwd (cl_process cl) in
  chain_records cfg = true ->
  bind_arguments cl c = Ok bound ->
  resolve_directory cl c bound st = (Ok d, sa) ->
  resolve_seed cl c bound sa = (Ok seed, sb) ->
  prepare_directory cfg cwd d sb = (Ok tt, sc) ->
  json_name (Path.joinpath d (Path.of_string (cl_record_name_local cl))) = Ok q ->
  FS.file_at (st_fs st) (Path.key cwd q) = Some None ->
  exists msg,
    wrapper cl c st = (Raise (JSONDecodeError msg), sc)
    /\ forall k, FS.file_at (st_fs sc) k = FS.file_at (st_fs st) k.
Proof.
  cbv zeta. intros Hchain Hb Hd Hs Hp Hq Hfile.
  assert (Hfiles : forall k, FS.file_at (st_fs sc) k = FS.file_at (st_fs st) k).
  { intros k.
    rewrite (keeps_files_prepare_directory _ _ _ _ _ _ Hp k).
    rewrite (keeps_files_resolve_seed _ _ _ _ _ _ Hs k).
    exact (keeps_files_resolve_directory _ _ _ _ _ _ Hd k). }
  exists "Expecting value". split; [|exact Hfiles].
  apply wrapper_pre_raise. unfold pre_call. cbv zeta.
  rewrite bind_run. unfold lift at 1. rewrite Hb.
  rewrite bind_run, Hd. rewrite bind_run, Hs. rewrite bind_run, Hp.
  rewrite bind_run. unfold lift at 1. rewrite Hq.
  rewrite bind_run. unfold chain. rewrite Hchain.
  rewrite <- Hfiles in Hfile.
  rewrite bind_run. unfold path_exists. rewrite (file_at_exists _ _ _ Hfile).
  rewrite bind_run. unfold json_load, FS.load.
  unfold FS.file_at in Hfile.
  destruct (FS.find (st_fs sc) _) as [[doc|m]|e]; try discriminate.
  injection Hfile as ->. reflexivity.
Qed.

Lemma X9_chaining_stops_on_a_file_that_is_not_json_witness :
  exists cl st',
    decorate (Sample.options (Some (PStr "/data")) None None None false false None None
                false true)
      Sample.machine (Sample.def "f" [Sample.required "x"] (Sample.observe "x")) = Ok cl
    /\ FS.file_at (st_fs disk_garbled) ["data"; "f_record.json"] = Some None
    /\ (exists msg, wrapper cl (Sample.call_with [VInt 4] []) disk_garbled
                    = (Raise (JSONDecodeError msg), st'))
    /\ FS.file_at (st_fs st') ["data"; "f_record.json"] = Some None.
Proof.
  eexists _, _.
  match goal with
  | |- ?H /\ _ => assert (Hdec : H) by (vm_compute; reflexivity)
  end.
  split; [exact Hdec|]. split; [vm_compute; reflexivity|].
  lazymatch type of Hdec with
  | _ = Ok ?k =>
      destruct (X9_chaining_stops_on_a_file_that_is_not_json k
                  (Sample.call_with [VInt 4] []) disk_garbled
                  (State (st_fs disk_garbled) [])
                  (State (st_fs disk_garbled) [("random", VInt 272428); ("numpy", VInt 272428)])
                  (State (st_fs disk_garbled) [("random", VInt 272428); ("numpy", VInt 272428)])
                  [("x", VInt 4)] (Path.of_string "/data")
                  (Path.of_string "/data/f_record.json") (VInt 272428)
                  ltac:(vm_compute; reflexivity) ltac:(vm_compute; reflexivity)
                  ltac:(vm_compute; reflexivity) ltac:(vm_compute; reflexivity)
                  ltac:(vm_compute; reflexivity) ltac:(vm_compute; reflexivity)
                  ltac:(vm_compute; reflexivity)) as (msg & Hw & Hfiles)
  end.
  split; [exists msg; exact Hw|]. rewrite Hfiles. vm_compute. reflexivity.
Defined.

(** ** Missing parents of the output directory *)

Lemma mkdir_fresh (k : list string) :
  exists c, FS.mkdir true (Dir ∅) k = Ok c /\ FS.find c k = Ok (Dir ∅)
            /\ forall k', FS.file_at c k' = None.
Proof.
  induction k as [|s k (c & Hc & Hfind & Hfiles)]; cbn.
  - exists (Dir ∅). split; [reflexivity|]. split; [reflexivity|]. apply file_at_empty_dir.
  - rewrite lookup_empty.
    assert (E : match k with
                | [] => match FS.mkdir true (Dir ∅) k with
                        | Ok c' => Ok (Dir (<[s:=c']> ∅))
                        | Raise e => Raise e
                        end
                | _ :: _ => match FS.mkdir true (Dir ∅) k with
                            | Ok c' => Ok (Dir (<[s:=c']> ∅))
                            | Raise e => Raise e
                            end
                end = Ok (Dir (<[s:=c]> ∅))) by (destruct k; now rewrite Hc).
    exists (Dir (<[s:=c]> ∅)). split; [exact E|]. split.
    + cbn. now rewrite lookup_insert_eq.
    + intros [|t k']; [reflexivity|]. unfold FS.file_at. cbn.
      destruct (decide (s = t)) as [->|Hne].
      * rewrite lookup_insert_eq. apply Hfiles.
      * rewrite lookup_insert_ne, lookup_empty by assumption. reflexivity.
Qed.

Lemma mkdir_missing_parent (parent : list string) (s : string) :
  forall n, FS.find n parent = Raise FS.ENOENT ->
    FS.mkdir false n (parent ++ [s]) = Raise FS.ENOENT
    /\ exists n', FS.mkdir true n (parent ++ [s]) = Ok n'
                  /\ FS.find n' (parent ++ [s]) = Ok (Dir ∅)
                  /\ forall k, FS.file_at n' k = FS.file_at n k.
Proof.
  induction parent as [|t parent IH]; intros n; cbn; [discriminate|].
  destruct n as [|m]; [discriminate|].
  destruct (m !! t) as [c|] eqn:Hc.
  - intros H. destruct (IH c H) as (Hfalse & c' & Htrue & Hfind & Hfiles).
    rewrite Hfalse, Htrue. split; [reflexivity|].
    exists (Dir (<[t:=c']> m)). split; [reflexivity|]. split.
    + cbn. now rewrite lookup_insert_eq.
    + intros [|t' k]; [reflexivity|]. unfold FS.file_at. cbn.
      destruct (decide (t = t')) as [->|Hne].
      * rewrite lookup_insert_eq, Hc. apply Hfiles.
      * now rewrite lookup_insert_ne.
  - intros _. destruct (mkdir_fresh (parent ++ [s])) as (c & Hmk & Hfind & Hfiles).
    destruct (parent ++ [s])%list as [|t2 k2] eqn:E; [now destruct parent|].
    rewrite Hmk. split; [reflexivity|].
    exists (Dir (<[t:=c]> m)). split; [reflexivity|]. split.
    + cbn. now rewrite lookup_insert_eq.
    + intros [|t' k]; [reflexivity|]. unfold FS.file_at. cbn.
      destruct (decide (t = t')) as [->|Hne].
      * rewrite lookup_insert_eq, Hc. apply Hfiles.
      * now rewrite lookup_insert_ne.
Qed.


